(** * migrate_miscellaneous_grouped.py: grouping, collision resolution, moves
      and the NFO patch, as a shallow embedding.

    Python [str] values are modelled as [string]; a character is a code
    point below 256.  In that range [\d] is [0-9], [str.strip] and [\s] use
    the white space of [str.isspace], and [re.IGNORECASE] on the letters of
    the program's patterns is ASCII case folding.

    The file system is outside the program: [os.path.exists], [os.makedirs],
    [shutil.move], [open], [os.path.abspath] and the [os.walk] generator are
    the operations of a class [FileSystem]; the program is written once over
    any instance.  Every call it makes to them, and every [print], is
    recorded as an event. *)

From Stdlib Require Import String Ascii List Bool Arith ZArith Lia.
From Stdlib Require Import DecimalString DecimalNat.
Import ListNotations.
Local Open Scope string_scope.

(** ** Python string operations *)

Module Py.

(** [s[:n]] for [0 <= n]. *)
Fixpoint take (n : nat) (s : string) : string :=
  match n, s with
  | S n', String c s' => String c (take n' s')
  | _, _ => EmptyString
  end.

(** [s[n:]] for [0 <= n]. *)
Fixpoint drop (n : nat) (s : string) : string :=
  match n, s with
  | S n', String _ s' => drop n' s'
  | _, _ => s
  end.

(** [s[:-k]] for [0 < k]: the end index is clamped at 0. *)
Definition drop_last (k : nat) (s : string) : string :=
  take (String.length s - k) s.

(** [s.startswith(p)] *)
Definition startswith (s p : string) : bool := String.prefix p s.

(** [s.endswith(x)] *)
Definition endswith (s x : string) : bool :=
  (String.length x <=? String.length s)%nat &&
  String.eqb (drop (String.length s - String.length x) s) x.

(** [s.rfind(c)] for a one-character [c]: the highest index, or -1. *)
Fixpoint rfind_from (i : Z) (c : ascii) (s : string) : Z :=
  match s with
  | EmptyString => (-1)%Z
  | String a s' =>
      let r := rfind_from (i + 1) c s' in
      if (0 <=? r)%Z then r else if Ascii.eqb a c then i else (-1)%Z
  end.

Definition rfind (s : string) (c : ascii) : Z := rfind_from 0 c s.

(** [str.isspace] on one character, code points below 256. *)
Definition isspace (c : ascii) : bool :=
  let n := nat_of_ascii c in
  ((9 <=? n) && (n <=? 13) || (28 <=? n) && (n <=? 32)
   || (n =? 133) || (n =? 160))%nat.

Fixpoint lstrip (s : string) : string :=
  match s with
  | String c s' => if isspace c then lstrip s' else s
  | EmptyString => EmptyString
  end.

Fixpoint rstrip (s : string) : string :=
  match s with
  | EmptyString => EmptyString
  | String c s' =>
      match rstrip s' with
      | EmptyString => if isspace c then EmptyString else String c EmptyString
      | r => String c r
      end
  end.

(** [s.strip()] *)
Definition strip (s : string) : string := rstrip (lstrip s).

(** [str(n)] for a non-negative [int]. *)
Definition str_of_nat (n : nat) : string :=
  NilEmpty.string_of_uint (Nat.to_uint n).

(** [c in "0123456789"] *)
Definition isdigit (c : ascii) : bool :=
  let n := nat_of_ascii c in ((48 <=? n) && (n <=? 57))%nat.

(** [all(p(c) for c in s)] *)
Fixpoint all_chars (p : ascii -> bool) (s : string) : bool :=
  match s with
  | EmptyString => true
  | String c s' => p c && all_chars p s'
  end.

End Py.

(** ** os.path (posixpath) *)

Module OsPath.

(** [posixpath.join(a, b)] *)
Definition join2 (a b : string) : string :=
  if Py.startswith b "/" || String.eqb a "" then b
  else if Py.endswith a "/" then a ++ b
  else a ++ "/" ++ b.

(** [os.path.join(a, *p)] *)
Definition join (a : string) (p : list string) : string :=
  fold_left join2 p a.

(** [posixpath.basename(p)]: [p[p.rfind('/') + 1:]] *)
Definition basename (p : string) : string :=
  Py.drop (Z.to_nat (Py.rfind p "/" + 1)) p.

(** The [while filenameIndex < dotIndex] loop of [genericpath._splitext]:
    [n] iterations are left, [i] is [filenameIndex]; [true] when the loop
    returns the split, [false] when it runs to its end. *)
Fixpoint splitext_scan (n i : nat) (p : string) : bool :=
  match n with
  | O => false
  | S n' =>
      if negb (String.eqb (String.substring i 1 p) ".") then true
      else splitext_scan n' (S i) p
  end.

(** [posixpath.splitext(p)] *)
Definition splitext (p : string) : string * string :=
  let sepIndex := Py.rfind p "/" in
  let dotIndex := Py.rfind p "." in
  if (sepIndex <? dotIndex)%Z
     && splitext_scan (Z.to_nat (dotIndex - (sepIndex + 1)))
                      (Z.to_nat (sepIndex + 1)) p
  then (Py.take (Z.to_nat dotIndex) p, Py.drop (Z.to_nat dotIndex) p)
  else (p, EmptyString).

End OsPath.

(** ** Grouping: the base key of an entry (lines 82-93) *)

(** Lines 90-91 *)
Definition strip_poster (name_no_ext : string) : string :=
  if Py.endswith name_no_ext "-poster" then Py.drop_last 7 name_no_ext
  else name_no_ext.

Definition base_key_of (item : string) : string :=
  let name_no_ext := fst (OsPath.splitext item) in
  let name_no_ext :=
    if Py.endswith item ".trickplay" then Py.drop_last 10 item
    else name_no_ext in
  strip_poster name_no_ext.

(** The derivation in the specification's words, to compare with
    [base_key_of]: the cache marker is stripped from a directory that bears
    it; otherwise the text from the last [.] on is stripped; then a trailing
    poster marker. *)
Definition spec_strip_extension (name : string) : string :=
  let i := Py.rfind name "." in
  if (i <? 0)%Z then name else Py.take (Z.to_nat i) name.

Definition spec_base_key (is_dir : bool) (name : string) : string :=
  let stem :=
    if is_dir && Py.endswith name ".trickplay" then Py.drop_last 10 name
    else spec_strip_extension name in
  if Py.endswith stem "-poster" then Py.drop_last 7 stem else stem.

(** ** Regular expressions (the [re] module)

    A backtracking matcher in continuation-passing style: alternatives are
    tried in the order [re] tries them (greedy repetition takes the longest
    run first, lazy repetition the shortest), and the first complete match
    wins.  Every repetition in the program's patterns is over a
    one-character class, which is what [Star] covers. *)

Module Re.

Inductive regex : Type :=
| Empty
| Chr (p : ascii -> bool)
| Seq (a b : regex)
| Alt (a b : regex)
| Opt (a : regex)
| Star (greedy : bool) (p : ascii -> bool)
| Group (n : nat) (a : regex).

(** Captured groups, most recent first. *)
Definition groups := list (nat * string).

Fixpoint group (n : nat) (g : groups) : option string :=
  match g with
  | [] => None
  | (m, s) :: g' => if Nat.eqb m n then Some s else group n g'
  end.

(** The text between two positions of one string, given the remainders. *)
Definition consumed (s rest : string) : string :=
  Py.take (String.length s - String.length rest) s.

Section Matcher.
Context {A : Type}.

Fixpoint star_greedy (p : ascii -> bool) (k : string -> option A)
         (s : string) : option A :=
  match s with
  | String c s' =>
      if p c then
        match star_greedy p k s' with
        | Some r => Some r
        | None => k s
        end
      else k s
  | EmptyString => k s
  end.

Fixpoint star_lazy (p : ascii -> bool) (k : string -> option A)
         (s : string) : option A :=
  match k s with
  | Some r => Some r
  | None =>
      match s with
      | String c s' => if p c then star_lazy p k s' else None
      | EmptyString => None
      end
  end.

Fixpoint exec (r : regex) (s : string) (g : groups)
         (k : string -> groups -> option A) : option A :=
  match r with
  | Empty => k s g
  | Chr p =>
      match s with
      | String c s' => if p c then k s' g else None
      | EmptyString => None
      end
  | Seq a b => exec a s g (fun s1 g1 => exec b s1 g1 k)
  | Alt a b =>
      match exec a s g k with
      | Some x => Some x
      | None => exec b s g k
      end
  | Opt a =>
      match exec a s g k with
      | Some x => Some x
      | None => k s g
      end
  | Star true p => star_greedy p (fun s1 => k s1 g) s
  | Star false p => star_lazy p (fun s1 => k s1 g) s
  | Group n a => exec a s g (fun s1 g1 => k s1 ((n, consumed s s1) :: g1))
  end.
End Matcher.

(** [pattern.match(s)]: a match anchored at the start of [s]; the result is
    the unmatched remainder and the groups, group 0 being the whole match. *)
Definition match_ (r : regex) (s : string) : option (string * groups) :=
  exec (Group 0 r) s [] (fun rest g => Some (rest, g)).

(** Character classes. *)
Definition lower (c : ascii) : ascii :=
  let n := nat_of_ascii c in
  if ((65 <=? n) && (n <=? 90))%nat then ascii_of_nat (n + 32) else c.

Definition chr_eq (x : ascii) : ascii -> bool := fun c => Ascii.eqb c x.
Definition chr_eq_i (x : ascii) : ascii -> bool :=
  fun c => Ascii.eqb (lower c) (lower x).
Definition chr_ne (x : ascii) : ascii -> bool := fun c => negb (Ascii.eqb c x).
(** [.] without [re.DOTALL] *)
Definition dot : ascii -> bool := chr_ne "010".
(** [\d] and [\s] *)
Definition digit : ascii -> bool := Py.isdigit.
Definition space : ascii -> bool := Py.isspace.

(** A literal string; [ic] is [re.IGNORECASE]. *)
Fixpoint lit (ic : bool) (l : string) : regex :=
  match l with
  | EmptyString => Empty
  | String x l' => Seq (Chr (if ic then chr_eq_i x else chr_eq x)) (lit ic l')
  end.

(** [p+] for a class [p] *)
Definition plus (p : ascii -> bool) : regex := Seq (Chr p) (Star true p).

(** *** Replacement templates ([re] parses the replacement string) *)

Inductive titem : Type :=
| TLit (c : ascii)
| TGroup (n : nat).

Definition isoct (c : ascii) : bool :=
  let n := nat_of_ascii c in ((48 <=? n) && (n <=? 55))%nat.

Definition isasciiletter (c : ascii) : bool :=
  let n := nat_of_ascii c in
  ((65 <=? n) && (n <=? 90) || (97 <=? n) && (n <=? 122))%nat.

Definition dval (c : ascii) : nat := nat_of_ascii c - 48.

(** The template escapes [\a \b \f \n \r \t \v \\]. *)
Definition escape (c : ascii) : option ascii :=
  if Ascii.eqb c "a" then Some "007"%char
  else if Ascii.eqb c "b" then Some "008"%char
  else if Ascii.eqb c "f" then Some "012"%char
  else if Ascii.eqb c "n" then Some "010"%char
  else if Ascii.eqb c "r" then Some "013"%char
  else if Ascii.eqb c "t" then Some "009"%char
  else if Ascii.eqb c "v" then Some "011"%char
  else if Ascii.eqb c "\" then Some "\"%char
  else None.

Definition nat_of_digits (s : string) : nat :=
  match NilEmpty.uint_of_string s with
  | Some d => Nat.of_uint d
  | None => 0
  end.

Inductive tmode : Type :=
| TNormal
| TName (acc : string).

Definition tcons (i : titem) (r : option (list titem)) : option (list titem) :=
  option_map (cons i) r.

Definition tgroup (ngroups index : nat) (r : option (list titem))
  : option (list titem) :=
  if (ngroups <? index)%nat then None else tcons (TGroup index) r.

(** [parse_template]: [None] is a raised [re.error] (or [IndexError]);
    [ngroups] is [pattern.groups].  In [TName acc] the parser is inside
    [\g<...>] and has read [acc]; a group name must be decimal digits, as no
    pattern of the program names a group. *)
Fixpoint parse_template_from (ngroups : nat) (m : tmode) (s : string)
  : option (list titem) :=
  let continue := parse_template_from ngroups TNormal in
  match m, s with
  | TName _, EmptyString => None
  | TName acc, String c s' =>
      if Ascii.eqb c ">" then
        if String.eqb acc "" then None
        else if Py.all_chars Py.isdigit acc then
          tgroup ngroups (nat_of_digits acc) (continue s')
        else None
      else parse_template_from ngroups (TName (acc ++ String c "")) s'
  | TNormal, EmptyString => Some []
  | TNormal, String b r =>
      if negb (Ascii.eqb b "\") then tcons (TLit b) (continue r)
      else
        match r with
        | EmptyString => None
        | String c r0 =>
            if Ascii.eqb c "g" then
              match r0 with
              | String lt r1 =>
                  if Ascii.eqb lt "<"
                  then parse_template_from ngroups (TName "") r1
                  else None
              | EmptyString => None
              end
            else if Ascii.eqb c "0" then
              match r0 with
              | String d1 r1 =>
                  if isoct d1 then
                    match r1 with
                    | String d2 r2 =>
                        if isoct d2 then
                          tcons (TLit (ascii_of_nat
                                         ((8 * dval d1 + dval d2) mod 256)))
                                (continue r2)
                        else tcons (TLit (ascii_of_nat (dval d1))) (continue r1)
                    | EmptyString =>
                        tcons (TLit (ascii_of_nat (dval d1))) (continue r1)
                    end
                  else tcons (TLit zero) (continue r0)
              | EmptyString => tcons (TLit zero) (continue r0)
              end
            else if Py.isdigit c then
              match r0 with
              | String d1 r1 =>
                  if Py.isdigit d1 then
                    match r1 with
                    | String d2 r2 =>
                        if isoct c && isoct d1 && isoct d2 then
                          let v := 64 * dval c + 8 * dval d1 + dval d2 in
                          if (255 <? v)%nat then None
                          else tcons (TLit (ascii_of_nat v)) (continue r2)
                        else tgroup ngroups (10 * dval c + dval d1)
                                    (continue r1)
                    | EmptyString =>
                        tgroup ngroups (10 * dval c + dval d1) (continue r1)
                    end
                  else tgroup ngroups (dval c) (continue r0)
              | EmptyString => tgroup ngroups (dval c) (continue r0)
              end
            else
              match escape c with
              | Some x => tcons (TLit x) (continue r0)
              | None =>
                  if isasciiletter c then None
                  else tcons (TLit b) (tcons (TLit c) (continue r0))
              end
        end
  end.

Definition parse_template (ngroups : nat) (repl : string)
  : option (list titem) :=
  parse_template_from ngroups TNormal repl.

(** [match.expand]: a group that did not take part expands to nothing. *)
Fixpoint expand (t : list titem) (g : groups) : string :=
  match t with
  | [] => EmptyString
  | TLit c :: t' => String c (expand t' g)
  | TGroup n :: t' =>
      match group n g with
      | Some x => x ++ expand t' g
      | None => expand t' g
      end
  end.

(** The scan of [pattern.sub]: [skip] characters of [s] belong to the match
    just replaced. *)
Fixpoint sub_scan (r : regex) (t : list titem) (skip : nat) (s : string)
  : string :=
  match s with
  | EmptyString =>
      match match_ r s with
      | Some (_, g) => expand t g
      | None => EmptyString
      end
  | String c s' =>
      match skip with
      | S k => sub_scan r t k s'
      | O =>
          match match_ r s with
          | Some (rest, g) =>
              match String.length s - String.length rest with
              | O => expand t g ++ String c (sub_scan r t 0 s')
              | S k => expand t g ++ sub_scan r t k s'
              end
          | None => String c (sub_scan r t 0 s')
          end
      end
  end.

(** [re.sub(pattern, repl, s)]; [None] when the template does not compile. *)
Definition sub (r : regex) (ngroups : nat) (repl s : string) : option string :=
  match parse_template ngroups repl with
  | Some t => Some (sub_scan r t 0 s)
  | None => None
  end.

End Re.

(** ** The program's patterns *)

(** Line 102: the escaped prefix, which matches itself character by
    character, then [ - S], a first group of four [\d], [E], one or more
    [\d], [ - ], and a second group of any number of [.], greedy.  No flag
    is passed, and [re.match] anchors the start only. *)
Definition four_digits : Re.regex :=
  Re.Seq (Re.Chr Re.digit) (Re.Seq (Re.Chr Re.digit)
         (Re.Seq (Re.Chr Re.digit) (Re.Chr Re.digit))).

Definition name_pattern (original_group : string) : Re.regex :=
  Re.Seq (Re.lit false original_group)
  (Re.Seq (Re.lit false " - S")
  (Re.Seq (Re.Group 1 four_digits)
  (Re.Seq (Re.lit false "E")
  (Re.Seq (Re.plus Re.digit)
  (Re.Seq (Re.lit false " - ")
          (Re.Group 2 (Re.Star true Re.dot))))))).

(** Line 33, with [re.IGNORECASE]: group 1 is the opening title tag, group 2
    any number of [.], lazy, group 3 the closing title tag. *)
Definition title_pattern : Re.regex :=
  Re.Seq (Re.Group 1 (Re.lit true "<title>"))
  (Re.Seq (Re.Group 2 (Re.Star false Re.dot))
          (Re.Group 3 (Re.lit true "</title>"))).

(** Line 42, with [re.IGNORECASE]: [<year], optionally one or more [\s]
    followed by any number of characters other than [>]; then either [>],
    a lazy run of [.] and the closing year tag, or any number of [\s]
    and [/>]. *)
Definition year_pattern : Re.regex :=
  Re.Seq (Re.lit true "<year")
  (Re.Seq (Re.Opt (Re.Seq (Re.plus Re.space) (Re.Star true (Re.chr_ne ">"))))
          (Re.Alt (Re.Seq (Re.lit true ">")
                  (Re.Seq (Re.Star false Re.dot) (Re.lit true "</year>")))
                  (Re.Seq (Re.Star true Re.space) (Re.lit true "/>")))).

(** Lines 103-110: [re.match], then [group(1)] and [group(2).strip()]. *)
Definition parse_name (original_group base_key : string)
  : option (string * string) :=
  match Re.match_ (name_pattern original_group) base_key with
  | Some (_, g) =>
      match Re.group 1 g, Re.group 2 g with
      | Some year, Some t => Some (year, Py.strip t)
      | _, _ => None
      end
  | None => None
  end.

(** ** The outside world *)

(** One step of [os.walk]: [(root, dirs, files)]. *)
Definition listing : Type := string * list string * list string.

(** The file-system operations the program calls, over a world [W].  A
    result [None] is a raised exception; the world next to it is the one
    the failed call leaves behind. *)
Class FileSystem (W : Type) : Type := {
  walker : Type;
  fs_walk : string -> walker;
  fs_next : walker -> W -> option (listing * walker);
  fs_exists : W -> string -> bool;
  fs_abspath : string -> string;
  fs_makedirs : string -> W -> option unit * W;
  fs_move : string -> string -> W -> option unit * W;
  fs_read : string -> W -> option string * W;
  fs_write : string -> string -> W -> option unit * W
}.

(** What [print] is given, one constructor per [print] call of the source. *)
Inductive message : Type :=
| MStart (dry_run : bool)
| MSkip (original_group base_key : string)
| MMove (dry_run : bool) (item_name target_path : string)
| MMoveFailed (item_name : string)
| MDryNfo (new_title new_year nfo_path : string)
| MNfoError (nfo_path : string).

Inductive event : Type :=
| EExists (path : string)
| EMakedirs (path : string)
| EMove (src dst : string)
| ERead (path : string)
| EWrite (path content : string)
| EPrint (m : message)
| EUpdateNfo (nfo_path new_title new_year : string) (dry_run : bool).

(** How a computation ends: normally, with an exception in flight, or
    with the fuel of a [while] or [for] over a generator used up. *)
Inductive outcome (A : Type) : Type :=
| Ret (a : A)
| Raise
| Timeout.
Arguments Ret {A} a.
Arguments Raise {A}.
Arguments Timeout {A}.

(** A computation: from a world to an outcome, the world it leaves and the
    events it emitted, oldest first. *)
Definition M (W A : Type) : Type := W -> outcome A * W * list event.

Definition ret {W A} (a : A) : M W A := fun w => (Ret a, w, []).

Definition bind {W A B} (m : M W A) (f : A -> M W B) : M W B :=
  fun w =>
    match m w with
    | (Ret a, w1, t1) =>
        match f a w1 with
        | (o, w2, t2) => (o, w2, (t1 ++ t2)%list)
        end
    | (Raise, w1, t1) => (Raise, w1, t1)
    | (Timeout, w1, t1) => (Timeout, w1, t1)
    end.

(** [try: m except Exception: h] *)
Definition try_except {W A} (m : M W A) (h : M W A) : M W A :=
  fun w =>
    match m w with
    | (Raise, w1, t1) =>
        match h w1 with
        | (o, w2, t2) => (o, w2, (t1 ++ t2)%list)
        end
    | r => r
    end.

Definition emit {W} (e : event) : M W unit := fun w => (Ret tt, w, [e]).

Definition raise_ {W A} : M W A := fun w => (Raise, w, []).

Definition timeout {W A} : M W A := fun w => (Timeout, w, []).

(** An outside call: the event, then the call's result. *)
Definition call {W A} (e : event) (f : W -> option A * W) : M W A :=
  fun w =>
    match f w with
    | (Some a, w1) => (Ret a, w1, [e])
    | (None, w1) => (Raise, w1, [e])
    end.

Declare Scope monad_scope.
Delimit Scope monad_scope with monad.
Notation "x <- m ;; f" := (bind m (fun x => f))
  (at level 61, m at next level, right associativity) : monad_scope.
Notation "m ;; f" := (bind m (fun _ => f))
  (at level 61, right associativity) : monad_scope.
Local Open Scope monad_scope.

(** ** The program *)

(** Line 9 *)
Definition ROOT_DIR : string := "/Volumes/media/home_videos/home".

(** Lines 11-16 *)
Record HomeVideo : Type := {
  item_name : string;
  year : string;
  title : string;
  final_name : string
}.

(** [grouped_items[key].append(item)] on a [defaultdict(list)]: keys keep
    their insertion order. *)
Fixpoint dict_append (d : list (string * list string)) (key item : string)
  : list (string * list string) :=
  match d with
  | [] => [(key, [item])]
  | (k, v) :: d' =>
      if String.eqb k key then (k, (v ++ [item])%list) :: d'
      else (k, v) :: dict_append d' key item
  end.

(** Lines 71-93: the grouping loop over [all_items]. *)
Definition group_items (target_subdir original_group root : string)
           (all_items : list string) : list (string * list string) :=
  fold_left
    (fun grouped item =>
       if negb (Py.startswith item original_group) then grouped
       else if String.eqb (OsPath.basename root) target_subdir then grouped
       else dict_append grouped (base_key_of item) item)
    all_items [].

(** Line 113 and line 163. *)
Definition new_base_name_of (raw_title year : string) : string :=
  raw_title ++ " (" ++ year ++ ")".

Definition numbered (new_base_name : string) (collision_counter : nat)
  : string :=
  new_base_name ++ " (" ++ Py.str_of_nat collision_counter ++ ")".

(** The sequence of names the collision loop goes through: the new base
    name itself for counter 1, then the numbered names. *)
Definition candidate (new_base_name : string) (n : nat) : string :=
  if (n <=? 1)%nat then new_base_name else numbered new_base_name n.

(** Line 116 *)
Definition dest_dir_of (target_subdir raw_title year : string) : string :=
  OsPath.join ROOT_DIR [year; target_subdir; new_base_name_of raw_title year].

(** Lines 146-148 and 174-176: the suffix of an entry and its new path. *)
Definition suffix_of (base_key item : string) : string :=
  Py.drop (String.length base_key) item.

Definition proposed_path_of (dest_dir final_base_name base_key item : string)
  : string :=
  OsPath.join dest_dir [final_base_name ++ suffix_of base_key item].

Section Program.
Context {W : Type} {FS : FileSystem W}.

Definition path_exists (p : string) : M W bool :=
  call (EExists p) (fun w => (Some (fs_exists w p), w)).
Definition makedirs (p : string) : M W unit :=
  call (EMakedirs p) (fs_makedirs p).
Definition move (src dst : string) : M W unit :=
  call (EMove src dst) (fs_move src dst).
Definition read_text (p : string) : M W string :=
  call (ERead p) (fs_read p).
Definition write_text (p content : string) : M W unit :=
  call (EWrite p content) (fs_write p content).
Definition print (m : message) : M W unit := emit (EPrint m).

(** [re.sub] inside a computation: a template that does not compile
    raises. *)
Definition re_sub (r : Re.regex) (ngroups : nat) (repl s : string)
  : M W string :=
  match Re.sub r ngroups repl s with
  | Some x => ret x
  | None => raise_
  end.

(** Lines 18-53.  [EUpdateNfo] marks the call and its arguments. *)
Definition update_nfo (nfo_path new_title new_year : string)
           (dry_run : bool) : M W unit :=
  emit (EUpdateNfo nfo_path new_title new_year dry_run) ;;
  try_except
    (if dry_run then print (MDryNfo new_title new_year nfo_path)
     else
       content <- read_text nfo_path ;;
       new_content <- re_sub title_pattern 3
                             ("\1" ++ new_title ++ "\3") content ;;
       (if negb (String.eqb content new_content)
        then write_text nfo_path new_content else ret tt) ;;
       new_content <- re_sub year_pattern 0
                             ("<year>" ++ new_year ++ "</year>")
                             new_content ;;
       if negb (String.eqb content new_content)
       then write_text nfo_path new_content else ret tt)
    (print (MNfoError nfo_path)).

(** Lines 132-156: the [for] loop of one round; the result is
    [collision_found]. *)
Fixpoint check_items (root base_key dest_dir final_base_name : string)
         (items : list string) : M W bool :=
  match items with
  | [] => ret false
  | item :: rest =>
      if negb (Py.startswith item base_key)
      then check_items root base_key dest_dir final_base_name rest
      else
        let proposed_path :=
          proposed_path_of dest_dir final_base_name base_key item in
        e <- path_exists proposed_path ;;
        if e then
          if String.eqb (fs_abspath proposed_path) (OsPath.join root [item])
          then check_items root base_key dest_dir final_base_name rest
          else ret true
        else check_items root base_key dest_dir final_base_name rest
  end.

(** Lines 128-163: the [while True] loop, entered with
    [collision_counter] and [final_base_name]; the result is the
    [final_base_name] it leaves. *)
Fixpoint resolve (fuel : nat) (root base_key dest_dir new_base_name : string)
         (items : list string) (collision_counter : nat)
         (final_base_name : string) : M W string :=
  match fuel with
  | O => timeout
  | S fuel' =>
      collision_found <-
        check_items root base_key dest_dir final_base_name items ;;
      if negb collision_found then ret final_base_name
      else
        let collision_counter := collision_counter + 1 in
        resolve fuel' root base_key dest_dir new_base_name items
                collision_counter (numbered new_base_name collision_counter)
  end.

(** Lines 172-192: the body of the [for item in files_to_move] loop. *)
Definition move_item (dry_run : bool) (root base_key dest_dir : string)
           (item : HomeVideo) : M W unit :=
  let source_path := OsPath.join root [item_name item] in
  let suffix := suffix_of base_key (item_name item) in
  let target_name := final_name item ++ suffix in
  let target_path := OsPath.join dest_dir [target_name] in
  print (MMove dry_run (item_name item) target_path) ;;
  if negb dry_run then
    try_except
      (move source_path target_path ;;
       if Py.endswith target_name ".nfo"
       then update_nfo target_path (final_name item) (year item) false
       else ret tt)
      (print (MMoveFailed (item_name item)))
  else if Py.endswith target_name ".nfo"
       then update_nfo target_path (final_name item) (year item) true
       else ret tt.

Fixpoint for_each {A : Type} (body : A -> M W unit) (l : list A)
  : M W unit :=
  match l with
  | [] => ret tt
  | x :: l' => body x ;; for_each body l'
  end.

(** Lines 167-168 *)
Definition files_to_move_of (items : list string)
           (year raw_title final_base_name : string) : list HomeVideo :=
  map (fun item => {| item_name := item; year := year;
                      title := raw_title;
                      final_name := final_base_name |}) items.

(** Lines 98-192: the body of the [for base_key, items] loop. *)
Definition process_group (fuel : nat) (target_subdir original_group : string)
           (dry_run : bool) (root : string)
           (group : string * list string) : M W unit :=
  let (base_key, items) := group in
  match parse_name original_group base_key with
  | None => print (MSkip original_group base_key)
  | Some (year, raw_title) =>
      let new_base_name := new_base_name_of raw_title year in
      let dest_dir := dest_dir_of target_subdir raw_title year in
      e <- path_exists dest_dir ;;
      (if negb e then
         if dry_run then ret tt else makedirs dest_dir
       else ret tt) ;;
      final_base_name <-
        resolve fuel root base_key dest_dir new_base_name items 1
                new_base_name ;;
      for_each (move_item dry_run root base_key dest_dir)
               (files_to_move_of items year raw_title final_base_name)
  end.

(** Lines 62-192: the body of the [for root, dirs, files] loop. *)
Definition process_directory (fuel : nat)
           (target_subdir original_group : string) (dry_run : bool)
           (l : listing) : M W unit :=
  let '(root, dirs, files) := l in
  let all_items := (files ++ dirs)%list in
  for_each (process_group fuel target_subdir original_group dry_run root)
           (group_items target_subdir original_group root all_items).

(** The [for ... in os.walk(ROOT_DIR)] loop: the generator is advanced in
    the world of the moment. *)
Fixpoint walk_loop (fuel : nat) (body : listing -> M W unit) (g : walker)
  : M W unit :=
  match fuel with
  | O => timeout
  | S fuel' =>
      fun w =>
        match fs_next g w with
        | None => ret tt w
        | Some (l, g') => (body l ;; walk_loop fuel' body g') w
        end
  end.

(** Lines 55-192.  [fuel] bounds the number of directories walked and the
    rounds of each collision loop. *)
Definition migrate_media (fuel : nat) (target_subdir original_group : string)
           (dry_run : bool) : M W unit :=
  print (MStart dry_run) ;;
  walk_loop fuel
            (process_directory fuel target_subdir original_group dry_run)
            (fs_walk ROOT_DIR).

End Program.

(** ** An in-memory file system, to run the program on examples

    A world is a table from paths to nodes.  [script] is what the walk
    yields; an operation that would write under a path of [denied] raises,
    as on a read-only mount. *)

Module MemFS.

Inductive node : Type :=
| File (content : string)
| Dir.

Definition world : Type := list (string * node).

Fixpoint lookup (w : world) (p : string) : option node :=
  match w with
  | [] => None
  | (k, n) :: w' => if String.eqb k p then Some n else lookup w' p
  end.

Definition remove (p : string) (w : world) : world :=
  filter (fun e => negb (String.eqb (fst e) p)) w.

Definition is_denied (denied : list string) (p : string) : bool :=
  existsb (fun d => Py.startswith p d) denied.

Definition exists_ (w : world) (p : string) : bool :=
  match lookup w p with Some _ => true | None => false end.

Definition makedirs (denied : list string) (p : string) (w : world)
  : option unit * world :=
  if is_denied denied p || exists_ w p then (None, w)
  else (Some tt, (p, Dir) :: w).

Definition move (denied : list string) (src dst : string) (w : world)
  : option unit * world :=
  if is_denied denied dst then (None, w)
  else
    match lookup w src with
    | Some n => (Some tt, (dst, n) :: remove dst (remove src w))
    | None => (None, w)
    end.

Definition read (p : string) (w : world) : option string * world :=
  match lookup w p with
  | Some (File c) => (Some c, w)
  | _ => (None, w)
  end.

Definition write (denied : list string) (p content : string) (w : world)
  : option unit * world :=
  if is_denied denied p then (None, w)
  else (Some tt, (p, File content) :: remove p w).

Definition fs (script : list listing) (denied : list string)
  : FileSystem world := {|
  walker := list listing;
  fs_walk := fun _ => script;
  fs_next := fun g _ => match g with [] => None | l :: g' => Some (l, g') end;
  fs_exists := exists_;
  fs_abspath := fun p => p;
  fs_makedirs := makedirs denied;
  fs_move := move denied;
  fs_read := read;
  fs_write := write denied
|}.

End MemFS.

(** Scenario 1 of the specification, and variations of it. *)
Module Scenario.

Definition src_dir : string := "/Volumes/media/home_videos/home/in".

Definition party : string := "Home - S2021E01 - Birthday Party".

Definition files : list string :=
  [party ++ ".mp4"; party ++ "-poster.jpg"; party ++ ".nfo"].

Definition nfo_text : string :=
  "<title>Home - S2021E01 - Birthday Party</title><year/>".

Definition w0 : MemFS.world :=
  [(src_dir ++ "/" ++ party ++ ".mp4", MemFS.File "video");
   (src_dir ++ "/" ++ party ++ "-poster.jpg", MemFS.File "image");
   (src_dir ++ "/" ++ party ++ ".nfo", MemFS.File nfo_text)].

Definition script : list listing := [(src_dir, [], files)].

Definition dest : string :=
  "/Volumes/media/home_videos/home/2021/Videos/Birthday Party (2021)".

(** Scenario 2: an unrelated earlier run left a video under the name. *)
Definition w_taken : MemFS.world :=
  (dest, MemFS.Dir)
  :: (dest ++ "/Birthday Party (2021).mp4", MemFS.File "older") :: w0.

(** A library with two groups in one directory, the year directory of the
    first being read-only. *)
Definition two_files : list string :=
  ["Home - S2021E01 - A.mp4"; "Home - S2020E02 - B.mp4"].

Definition w_two : MemFS.world :=
  [(src_dir ++ "/Home - S2021E01 - A.mp4", MemFS.File "a");
   (src_dir ++ "/Home - S2020E02 - B.mp4", MemFS.File "b")].

Definition read_only : list string :=
  ["/Volumes/media/home_videos/home/2021"].

(** A metadata file whose title starts with a digit. *)
Definition july : string := "Home - S2021E01 - 4th of July".

Definition july_text : string :=
  "<title>Home - S2021E01 - 4th of July</title><year/>".

Definition w_july : MemFS.world :=
  [(src_dir ++ "/" ++ july ++ ".nfo", MemFS.File july_text)].

Definition july_dest : string :=
  "/Volumes/media/home_videos/home/2021/Videos/4th of July (2021)".

(** A metadata file whose title starts with three octal digits. *)
Definition trip : string := "Home - S2021E01 - 2021 Party".

Definition trip_text : string :=
  "<title>Home - S2021E01 - 2021 Party</title><year/>".

Definition w_trip : MemFS.world :=
  [(src_dir ++ "/" ++ trip ++ ".nfo", MemFS.File trip_text)].

Definition trip_dest : string :=
  "/Volumes/media/home_videos/home/2021/Videos/2021 Party (2021)".

(** The whole run over a scripted walk of one directory. *)
Definition run (files : list string) (denied : list string) (dry_run : bool)
           (w : MemFS.world) : outcome unit * MemFS.world * list event :=
  @migrate_media _ (MemFS.fs [(src_dir, [], files)] denied) 3 "Videos" "Home"
                 dry_run w.

End Scenario.

(** ** Vocabulary of the statements *)

Section Vocabulary.
Context {W : Type}.

(** Every event a computation emits satisfies [P], from any world. *)
Definition emits {A} (P : event -> Prop) (m : M W A) : Prop :=
  forall w, Forall P (snd (m w)).

(** A computation leaves the world as it found it. *)
Definition preserves {A} (m : M W A) : Prop :=
  forall w, snd (fst (m w)) = w.

(** A computation that does not run out of fuel, and one that lets no
    exception out. *)
Definition total {A} (m : M W A) : Prop :=
  forall w, fst (fst (m w)) <> Timeout.

Definition safe {A} (m : M W A) : Prop :=
  forall w, fst (fst (m w)) <> Raise.

End Vocabulary.

(** The events of [update_nfo]: its call mark, then reads, writes and
    prints on its own path only. *)
Definition nfo_event (nfo_path new_title new_year : string) (dry_run : bool)
           (e : event) : Prop :=
  match e with
  | EUpdateNfo p t y d =>
      p = nfo_path /\ t = new_title /\ y = new_year /\ d = dry_run
  | ERead p => p = nfo_path /\ dry_run = false
  | EWrite p _ => p = nfo_path /\ dry_run = false
  | EPrint (MDryNfo t y p) =>
      p = nfo_path /\ t = new_title /\ y = new_year /\ dry_run = true
  | EPrint (MNfoError p) => p = nfo_path
  | _ => False
  end.

(** An event that changes nothing and reads no file: a probe, a print, or
    the call mark of a simulated patch. *)
Definition quiet (e : event) : Prop :=
  match e with
  | EExists _ | EPrint _ => True
  | EUpdateNfo _ _ _ dry_run => dry_run = true
  | _ => False
  end.

(** What a dry run emits for one entry once the name is settled: the
    notice, and for a metadata file the simulated patch. *)
Definition dry_move_events (base_key dest_dir year final_base_name : string)
           (item : string) : list event :=
  let target_name := final_base_name ++ suffix_of base_key item in
  let target_path := OsPath.join dest_dir [target_name] in
  EPrint (MMove true item target_path)
  :: (if Py.endswith target_name ".nfo"
      then [EUpdateNfo target_path final_base_name year true;
            EPrint (MDryNfo final_base_name year target_path)]
      else []).

Definition is_move (e : event) : bool :=
  match e with EMove _ _ => true | _ => false end.

Definition is_patch_call (e : event) : bool :=
  match e with EUpdateNfo _ _ _ _ => true | _ => false end.

(** The events of one parsed group: [dest_dir] is fixed, [base] is the new
    base name, and every name used is a candidate of the collision loop.
    The events that are none of the probes, the directory creation, the
    moves and their notices are those of a metadata patch. *)
Definition group_event (root base_key : string) (items : list string)
           (year base dest_dir : string) (dry_run : bool) (e : event) : Prop :=
  match e with
  | EExists p =>
      p = dest_dir
      \/ exists n item,
          1 <= n /\ In item items
          /\ p = proposed_path_of dest_dir (candidate base n) base_key item
  | EMakedirs p => p = dest_dir /\ dry_run = false
  | EMove s d =>
      dry_run = false
      /\ exists n item,
          1 <= n /\ In item items /\ s = OsPath.join root [item]
          /\ d = proposed_path_of dest_dir (candidate base n) base_key item
  | EPrint (MMove d item p) =>
      d = dry_run
      /\ exists n,
          1 <= n /\ In item items
          /\ p = proposed_path_of dest_dir (candidate base n) base_key item
  | EPrint (MMoveFailed item) => In item items /\ dry_run = false
  | _ =>
      exists n item,
        1 <= n /\ In item items
        /\ Py.endswith (candidate base n ++ suffix_of base_key item) ".nfo"
           = true
        /\ nfo_event
             (proposed_path_of dest_dir (candidate base n) base_key item)
             (candidate base n) year dry_run e
  end.

(** The longest prefix of characters that satisfy [p], and what follows. *)
Fixpoint take_while (p : ascii -> bool) (s : string) : string :=
  match s with
  | String c s' => if p c then String c (take_while p s') else EmptyString
  | EmptyString => EmptyString
  end.

Fixpoint drop_while (p : ascii -> bool) (s : string) : string :=
  match s with
  | String c s' => if p c then drop_while p s' else s
  | EmptyString => EmptyString
  end.

(** The text before the first line feed. *)
Definition first_line (s : string) : string := take_while Re.dot s.

(** One round of the collision loop, as a condition on the world: some
    member that passes the [startswith] guard has a proposed path that
    exists and is not the member's own path. *)
Definition collides {W : Type} {FS : FileSystem W}
           (root base_key dest_dir final_base_name : string)
           (items : list string) (w : W) : bool :=
  existsb
    (fun item =>
       let proposed_path :=
         proposed_path_of dest_dir final_base_name base_key item in
       Py.startswith item base_key
       && fs_exists w proposed_path
       && negb (String.eqb (fs_abspath proposed_path)
                           (OsPath.join root [item])))
    items.

(** ** Vocabulary of the further properties *)

(** The entries of a listing that the grouping loop does not skip
    (lines 75-80): none in a directory named as the target, otherwise those
    that start with the prefix. *)
Definition eligible (target_subdir original_group root : string)
           (all_items : list string) : list string :=
  if String.eqb (OsPath.basename root) target_subdir then []
  else filter (fun item => Py.startswith item original_group) all_items.

(** [grouped_items[key]] read back: the list stored under the first
    occurrence of the key, or the empty list. *)
Fixpoint members (d : list (string * list string)) (key : string)
  : list string :=
  match d with
  | [] => []
  | (k, v) :: d' => if String.eqb k key then v else members d' key
  end.

(** [tag_eq tag s]: [s] is [tag] up to the case of its letters, as
    [re.IGNORECASE] compares them; [tag_prefix tag s]: [s] starts so. *)
Fixpoint tag_eq (tag s : string) : bool :=
  match tag, s with
  | EmptyString, EmptyString => true
  | String x tag', String c s' => Re.chr_eq_i x c && tag_eq tag' s'
  | _, _ => false
  end.

Definition tag_prefix (tag s : string) : bool :=
  tag_eq tag (Py.take (String.length tag) s).

(** A replacement template with no escape in it: its characters. *)
Definition literal_template (s : string) : list Re.titem :=
  map Re.TLit (list_ascii_of_string s).

(** What [pattern.sub] does with a pattern [r] that matches no empty text
    and a compiled template [t]: the text is read from the left; where no
    match starts the character is kept, and a match is replaced by the
    expansion of the template and reading goes on after it. *)
Inductive scanned (r : Re.regex) (t : list Re.titem) : string -> string -> Prop :=
| scanned_end : scanned r t EmptyString EmptyString
| scanned_keep (c : ascii) (s out : string) :
    Re.match_ r (String c s) = None ->
    scanned r t s out ->
    scanned r t (String c s) (String c out)
| scanned_match (m rest : string) (g : Re.groups) (out : string) :
    m <> EmptyString ->
    Re.match_ r (m ++ rest) = Some (rest, g) ->
    scanned r t rest out ->
    scanned r t (m ++ rest) (Re.expand t g ++ out).

(** A title element starts the text: an opening title tag in any case,
    an inner text with no line feed, a closing title tag in any case. *)
Definition title_element_at (s : string) : Prop :=
  exists o inner c rest,
    s = o ++ inner ++ c ++ rest
    /\ tag_eq "<title>" o = true
    /\ Py.all_chars Re.dot inner = true
    /\ tag_eq "</title>" c = true.

(** The title pass of the patcher, read from the left: a character where
    no title element starts is kept; of a title element the inner text, up
    to the first closing tag, is replaced by the new title, and the tags
    are kept as they were written. *)
Inductive title_rewritten (new_title : string) : string -> string -> Prop :=
| title_end : title_rewritten new_title EmptyString EmptyString
| title_keep (c : ascii) (s out : string) :
    ~ title_element_at (String c s) ->
    title_rewritten new_title s out ->
    title_rewritten new_title (String c s) (String c out)
| title_element (o inner c rest out : string) :
    tag_eq "<title>" o = true ->
    Py.all_chars Re.dot inner = true ->
    tag_eq "</title>" c = true ->
    (forall a b, inner = a ++ b -> b <> EmptyString ->
                 tag_prefix "</title>" (b ++ c ++ rest) = false) ->
    title_rewritten new_title rest out ->
    title_rewritten new_title (o ++ inner ++ c ++ rest)
                    (o ++ new_title ++ c ++ out).

(** A year element: [<year] in any case, optionally white space and
    attribute text without [>], then either [>], an inner text with no
    line feed and a closing year tag, or white space and [/>]. *)
Definition year_element (e : string) : Prop :=
  exists o attrs tail,
    e = o ++ attrs ++ tail
    /\ tag_eq "<year" o = true
    /\ (attrs = EmptyString
        \/ exists sp a, attrs = sp ++ a /\ sp <> EmptyString
                        /\ Py.all_chars Re.space sp = true
                        /\ Py.all_chars (Re.chr_ne ">") a = true)
    /\ ((exists inner c, tail = ">" ++ inner ++ c
                         /\ Py.all_chars Re.dot inner = true
                         /\ tag_eq "</year>" c = true)
        \/ (exists sp, tail = sp ++ "/>"
                       /\ Py.all_chars Re.space sp = true)).

Definition year_element_at (s : string) : Prop :=
  exists e rest, s = e ++ rest /\ year_element e.

(** The year pass of the patcher, read from the left: a character where no
    year element starts is kept, and a year element is replaced, whole, by
    the normalized element. *)
Inductive year_rewritten (new_year : string) : string -> string -> Prop :=
| year_end : year_rewritten new_year EmptyString EmptyString
| year_keep (c : ascii) (s out : string) :
    ~ year_element_at (String c s) ->
    year_rewritten new_year s out ->
    year_rewritten new_year (String c s) (String c out)
| year_replaced (e rest out : string) :
    year_element e ->
    year_rewritten new_year rest out ->
    year_rewritten new_year (e ++ rest)
                   ("<year>" ++ new_year ++ "</year>" ++ out).

Definition starts_with_digit (s : string) : bool :=
  match s with
  | String d _ => Py.isdigit d
  | EmptyString => false
  end.

(** The end of the year pattern: the two ways a year element may end,
    after its name and attributes. *)
Definition year_tail : Re.regex :=
  Re.Alt (Re.Seq (Re.lit true ">")
                 (Re.Seq (Re.Star false Re.dot) (Re.lit true "</year>")))
         (Re.Seq (Re.Star true Re.space) (Re.lit true "/>")).

(** The first and the last character of a text are white space. *)
Definition starts_with_space (s : string) : bool :=
  match s with
  | String c _ => Py.isspace c
  | EmptyString => false
  end.

Fixpoint ends_with_space (s : string) : bool :=
  match s with
  | EmptyString => false
  | String c EmptyString => Py.isspace c
  | String _ s' => ends_with_space s'
  end.

(** * Proofs *)

(** ** The model on small inputs *)

Example base_key_video :
  base_key_of "Home - S2021E01 - Birthday Party.mp4"
  = "Home - S2021E01 - Birthday Party".
Proof. reflexivity. Qed.

Example base_key_poster :
  base_key_of "Home - S2021E01 - Birthday Party-poster.jpg"
  = "Home - S2021E01 - Birthday Party".
Proof. reflexivity. Qed.

Example base_key_trickplay :
  base_key_of "Home - S2021E01 - Birthday Party.trickplay"
  = "Home - S2021E01 - Birthday Party".
Proof. reflexivity. Qed.

Example splitext_inner_dots : OsPath.splitext "a.b.c" = ("a.b", ".c").
Proof. reflexivity. Qed.

Example splitext_leading_dots : OsPath.splitext "..a" = ("..a", "").
Proof. reflexivity. Qed.

Example join_absolute_component :
  OsPath.join "/r" ["2021"; "/abs"; "x"] = "/abs/x".
Proof. reflexivity. Qed.

Example parse_scenario_1 :
  parse_name "Home" "Home - S2021E01 - Birthday Party"
  = Some ("2021", "Birthday Party").
Proof. reflexivity. Qed.

Example parse_scenario_4 : parse_name "Home" "Home - ClipWithoutYear" = None.
Proof. reflexivity. Qed.

Example parse_stops_at_line_feed :
  parse_name "Home" ("Home - S2021E01 - a" ++ String "010" "b")
  = Some ("2021", "a").
Proof. reflexivity. Qed.

Example sub_title_any_case :
  Re.sub title_pattern 3 "\1New (2021)\3"
         "<a><TITLE>old</title><title></Title>x</title>"
  = Some "<a><TITLE>New (2021)</title><title>New (2021)</Title>x</title>".
Proof. reflexivity. Qed.

Example sub_year_forms :
  Re.sub year_pattern 0 "<year>2021</year>"
         "<year/> <YEAR  a='b'/> <year foo>12</year><years />"
  = Some "<year>2021</year> <year>2021</year><years />".
Proof. reflexivity. Qed.

Example template_group_then_digit :
  Re.parse_template 3 "\14th" = None
  /\ Re.parse_template 3 "\1a"
     = Some [Re.TGroup 1; Re.TLit "a"]
  /\ Re.parse_template 3 "\1202"
     = Some [Re.TLit "P"; Re.TLit "2"].
Proof. repeat split. Qed.

Example scenario_1_result :
  MemFS.lookup (snd (fst (Scenario.run Scenario.files [] false Scenario.w0)))
               (Scenario.dest ++ "/Birthday Party (2021).nfo")
  = Some (MemFS.File "<title>Birthday Party (2021)</title><year>2021</year>").
Proof. vm_compute. reflexivity. Qed.

Example scenario_3_prefix_mismatch :
  group_items "Videos" "Home" "/in" ["Random - S2021E01 - Clip.mp4"] = [].
Proof. reflexivity. Qed.

(** ** Strings *)

Section StringFacts.

Lemma append_nil_r (s : string) : s ++ "" = s.
Proof. induction s; simpl; congruence. Qed.

Lemma append_assoc (a b c : string) : (a ++ b) ++ c = a ++ (b ++ c).
Proof. induction a; simpl; congruence. Qed.

Lemma length_append (a b : string) :
  String.length (a ++ b) = String.length a + String.length b.
Proof. induction a; simpl; congruence. Qed.

Lemma append_inv_head (a b c : string) : a ++ b = a ++ c -> b = c.
Proof. induction a; simpl; intros H; [assumption | injection H; auto]. Qed.

Lemma take_drop (n : nat) (s : string) : Py.take n s ++ Py.drop n s = s.
Proof.
  revert s; induction n; intros [|c s]; simpl; try reflexivity.
  now rewrite IHn.
Qed.

Lemma take_append (a b : string) : Py.take (String.length a) (a ++ b) = a.
Proof. induction a; simpl; [now destruct b | congruence]. Qed.

Lemma drop_append (a b : string) : Py.drop (String.length a) (a ++ b) = b.
Proof. induction a; simpl; auto. Qed.

Lemma take_all (s : string) : Py.take (String.length s) s = s.
Proof. induction s; simpl; congruence. Qed.

Lemma drop_last_append (a b : string) :
  Py.drop_last (String.length b) (a ++ b) = a.
Proof.
  unfold Py.drop_last. rewrite length_append.
  replace (String.length a + String.length b - String.length b)
    with (String.length a) by lia.
  apply take_append.
Qed.

Lemma drop_last_trickplay (k : string) :
  Py.drop_last 10 (k ++ ".trickplay") = k.
Proof. exact (drop_last_append k ".trickplay"). Qed.

Lemma drop_last_poster (k : string) : Py.drop_last 7 (k ++ "-poster") = k.
Proof. exact (drop_last_append k "-poster"). Qed.

Lemma startswith_iff (s p : string) :
  Py.startswith s p = true <-> exists r, s = p ++ r.
Proof.
  unfold Py.startswith. revert s.
  induction p as [|c p IH]; intros s; simpl.
  - destruct s; split; eauto.
  - destruct s as [|d s]; simpl.
    + split; [discriminate | intros [r Hr]; discriminate].
    + destruct (ascii_dec c d) as [->|Hne].
      * rewrite IH. split; intros [r Hr]; exists r; congruence.
      * split; [discriminate | intros [r Hr]; congruence].
Qed.

Lemma startswith_append (p r : string) : Py.startswith (p ++ r) p = true.
Proof. apply startswith_iff; eauto. Qed.

Lemma endswith_iff (s x : string) :
  Py.endswith s x = true <-> exists p, s = p ++ x.
Proof.
  unfold Py.endswith. split.
  - intros H. apply andb_true_iff in H as [_ H].
    apply String.eqb_eq in H.
    exists (Py.take (String.length s - String.length x) s).
    pose proof (take_drop (String.length s - String.length x) s) as E.
    rewrite H in E. now symmetry.
  - intros [p ->]. rewrite length_append. apply andb_true_iff. split.
    + apply Nat.leb_le. lia.
    + replace (String.length p + String.length x - String.length x)
        with (String.length p) by lia.
      rewrite drop_append. apply String.eqb_refl.
Qed.

Lemma endswith_append (p x : string) : Py.endswith (p ++ x) x = true.
Proof. apply endswith_iff; eauto. Qed.

End StringFacts.

(** ** Paths and base keys *)

Section BaseKeyFacts.

Lemma rfind_from_absent (i : Z) (c : ascii) (s : string) :
  Py.all_chars (Re.chr_ne c) s = true -> Py.rfind_from i c s = (-1)%Z.
Proof.
  revert i; induction s as [|a s IH]; intros i H; simpl in *; [reflexivity|].
  apply andb_true_iff in H as [Ha Hs].
  rewrite (IH _ Hs). simpl.
  unfold Re.chr_ne in Ha. apply negb_true_iff in Ha. now rewrite Ha.
Qed.

Lemma rfind_from_last (i : Z) (c : ascii) (a e : string) :
  (0 <= i)%Z -> Py.all_chars (Re.chr_ne c) e = true ->
  Py.rfind_from i c (a ++ String c e) = (i + Z.of_nat (String.length a))%Z.
Proof.
  revert i; induction a as [|x a IH]; intros i Hi He; simpl.
  - rewrite (rfind_from_absent _ _ _ He). simpl.
    rewrite Ascii.eqb_refl. lia.
  - rewrite IH by (lia || assumption).
    destruct (0 <=? i + 1 + Z.of_nat (String.length a))%Z eqn:E.
    + lia.
    + apply Z.leb_gt in E. lia.
Qed.

Lemma all_chars_append (p : ascii -> bool) (a b : string) :
  Py.all_chars p (a ++ b) = Py.all_chars p a && Py.all_chars p b.
Proof. induction a; simpl; [reflexivity | now rewrite IHa, andb_assoc]. Qed.

Lemma splitext_scan_shift (n i : nat) (c : ascii) (p : string) :
  OsPath.splitext_scan n (S i) (String c p) = OsPath.splitext_scan n i p.
Proof. revert i; induction n; intros i; simpl; [reflexivity | now rewrite IHn]. Qed.

Lemma substring_0_1 (c : ascii) (s : string) :
  String.substring 0 1 (String c s) = String c "".
Proof. simpl. now destruct s. Qed.

(** The loop finds a character other than [.] among the first
    [length k] exactly when [k] is not made of [.] only. *)
Lemma splitext_scan_prefix (k r : string) :
  OsPath.splitext_scan (String.length k) 0 (k ++ r)
  = negb (Py.all_chars (Re.chr_eq ".") k).
Proof.
  induction k as [|c k IH]; [reflexivity|].
  cbn [String.length OsPath.splitext_scan append].
  rewrite substring_0_1, splitext_scan_shift, IH.
  cbn [Py.all_chars String.eqb]. unfold Re.chr_eq.
  destruct (Ascii.eqb c "."); reflexivity.
Qed.

Lemma splitext_no_dot (p : string) :
  Py.all_chars (Re.chr_ne ".") p = true -> OsPath.splitext p = (p, "").
Proof.
  intros H. unfold OsPath.splitext, Py.rfind.
  rewrite (rfind_from_absent 0 "." p H).
  destruct (Py.rfind_from 0 "/" p <? -1)%Z eqn:E; [|reflexivity].
  destruct (OsPath.splitext_scan _ _ _); [|reflexivity].
  exfalso. apply Z.ltb_lt in E.
  clear -E. assert (forall i c s, (-1 <= Py.rfind_from i c s)%Z \/ (i <= Py.rfind_from i c s)%Z) as R.
  { intros i c s; revert i; induction s as [|a s IH]; intros i; simpl; [lia|].
    destruct (0 <=? Py.rfind_from (i + 1) c s)%Z eqn:E1.
    - apply Z.leb_le in E1. lia.
    - destruct (Ascii.eqb a c); lia. }
  destruct (R 0%Z "/"%char p); lia.
Qed.

(** [splitext] on a name without [/] whose last [.] follows [k]. *)
Lemma splitext_last_dot (k e : string) :
  Py.all_chars (Re.chr_ne "/") (k ++ "." ++ e) = true ->
  Py.all_chars (Re.chr_ne ".") e = true ->
  OsPath.splitext (k ++ "." ++ e)
  = if Py.all_chars (Re.chr_eq ".") k then (k ++ "." ++ e, "")
    else (k, "." ++ e).
Proof.
  intros Hsep He. unfold OsPath.splitext, Py.rfind.
  rewrite (rfind_from_absent 0 "/" _ Hsep).
  change (k ++ "." ++ e) with (k ++ String "." e).
  rewrite (rfind_from_last 0 "." k e) by (lia || assumption).
  replace (0 + Z.of_nat (String.length k) - (-1 + 1))%Z
    with (Z.of_nat (String.length k)) by lia.
  change (Z.to_nat (-1 + 1)) with 0.
  rewrite Z.add_0_l, Nat2Z.id, splitext_scan_prefix.
  replace (-1 <? Z.of_nat (String.length k))%Z with true
    by (symmetry; apply Z.ltb_lt; lia).
  destruct (Py.all_chars (Re.chr_eq ".") k); simpl; [reflexivity|].
  now rewrite take_append, drop_append.
Qed.

Lemma last_dot_unique (a a' e e' : string) :
  Py.all_chars (Re.chr_ne ".") e = true ->
  Py.all_chars (Re.chr_ne ".") e' = true ->
  a ++ "." ++ e = a' ++ "." ++ e' -> a = a'.
Proof.
  intros He He' H.
  assert (String.length a = String.length a') as L.
  { pose proof (rfind_from_last 0 "." a e ltac:(lia) He) as R.
    pose proof (rfind_from_last 0 "." a' e' ltac:(lia) He') as R'.
    change (a ++ "." ++ e) with (a ++ String "." e) in H.
    change (a' ++ "." ++ e') with (a' ++ String "." e') in H.
    rewrite H in R. lia. }
  rewrite <- (take_append a ("." ++ e)), H, L. apply take_append.
Qed.

Lemma splitext_fst_prefix (p : string) :
  p = fst (OsPath.splitext p) ++ snd (OsPath.splitext p).
Proof.
  unfold OsPath.splitext.
  destruct (_ && _); simpl; [now rewrite take_drop | now rewrite append_nil_r].
Qed.

Lemma strip_poster_prefix (s : string) : exists r, s = strip_poster s ++ r.
Proof.
  unfold strip_poster, Py.drop_last.
  destruct (Py.endswith s "-poster").
  - eexists. symmetry. apply take_drop.
  - exists "". now rewrite append_nil_r.
Qed.

(** The base key is the entry's name with a suffix removed. *)
Lemma base_key_prefix (item : string) :
  exists suffix, item = base_key_of item ++ suffix.
Proof.
  unfold base_key_of.
  destruct (Py.endswith item ".trickplay").
  - destruct (strip_poster_prefix (Py.drop_last 10 item)) as [r Hr].
    exists (r ++ Py.drop (String.length item - 10) item).
    rewrite <- append_assoc, <- Hr. symmetry. apply take_drop.
  - destruct (strip_poster_prefix (fst (OsPath.splitext item))) as [r Hr].
    exists (r ++ snd (OsPath.splitext item)).
    rewrite <- append_assoc, <- Hr. apply splitext_fst_prefix.
Qed.

Lemma suffix_of_append (k s : string) : suffix_of k (k ++ s) = s.
Proof. apply drop_append. Qed.

Lemma suffix_of_split (k item s : string) :
  item = k ++ s -> item = k ++ suffix_of k item.
Proof. intros ->. now rewrite suffix_of_append. Qed.

Lemma suffix_of_base_key (item : string) :
  item = base_key_of item ++ suffix_of (base_key_of item) item.
Proof.
  destruct (base_key_prefix item) as [s Hs].
  exact (suffix_of_split _ _ _ Hs).
Qed.

End BaseKeyFacts.

(** ** Grouping *)

Section GroupingFacts.

Lemma dict_append_member (d : list (string * list string))
      (key item k : string) (items : list string) (x : string) :
  In (k, items) (dict_append d key item) -> In x items ->
  (k = key /\ x = item) \/ exists items0, In (k, items0) d /\ In x items0.
Proof.
  induction d as [|[k0 v0] d IH]; simpl; intros Hin Hx.
  - destruct Hin as [E|[]]. injection E as <- <-.
    destruct Hx as [<-|[]]. now left.
  - destruct (String.eqb_spec k0 key) as [->|Hne].
    + destruct Hin as [E|Hin].
      * injection E as <- <-. apply in_app_or in Hx as [Hx|[<-|[]]].
        -- right. eauto.
        -- now left.
      * right. eauto.
    + destruct Hin as [E|Hin].
      * injection E as <- <-. right. eauto.
      * destruct (IH Hin Hx) as [?|(items0 & ? & ?)]; [now left|].
        right. eauto.
Qed.

(** Every member of a group starts with the prefix, comes from the
    listing, and has the group's key as its base key. *)
Lemma group_items_member (target_subdir original_group root : string)
      (all_items : list string) (k : string) (items : list string)
      (x : string) :
  In (k, items) (group_items target_subdir original_group root all_items) ->
  In x items ->
  k = base_key_of x /\ Py.startswith x original_group = true
  /\ In x all_items
  /\ String.eqb (OsPath.basename root) target_subdir = false.
Proof.
  unfold group_items.
  set (f := fun grouped item => _).
  set (P := fun x k => k = base_key_of x /\ Py.startswith x original_group = true
                  /\ In x all_items
                  /\ String.eqb (OsPath.basename root) target_subdir = false).
  enough (forall l d,
             incl l all_items ->
             (forall k items x, In (k, items) d -> In x items -> P x k) ->
             forall k items x,
               In (k, items) (fold_left f l d) -> In x items -> P x k) as G.
  { intros H1 H2. eapply (G all_items []); eauto using incl_refl.
    intros ? ? ? []. }
  clear k items x.
  induction l as [|a l IH]; intros d Hl Hd k items x; simpl; [apply Hd|].
  apply IH; [eapply incl_cons_inv; eauto|].
  clear k items x. intros k items x. unfold f at 1.
  destruct (Py.startswith a original_group) eqn:Ea; simpl; [|apply Hd].
  destruct (String.eqb (OsPath.basename root) target_subdir) eqn:Er;
    [apply Hd|].
  intros Hin Hx.
  destruct (dict_append_member _ _ _ _ _ _ Hin Hx) as [[-> ->]|(v & ? & ?)].
  - repeat split; auto. apply Hl. now left.
  - eapply Hd; eauto.
Qed.

End GroupingFacts.

(** ** Claims on base keys *)

(** C10: every entry placed in a group has the group's BaseKey as a literal
    prefix of its raw name: the key is the entry's base key, which is the
    name with a suffix removed, so the slice [item[len(base_key):]] is
    within the name and gives back the name when appended to the key, and
    the [startswith] guard of the collision loop holds for every member. *)
Theorem C10_base_key_is_prefix
        (target_subdir original_group root : string)
        (all_items : list string) (k : string) (items : list string)
        (item : string) :
  In (k, items) (group_items target_subdir original_group root all_items) ->
  In item items ->
  k = base_key_of item
  /\ (exists suffix, item = k ++ suffix)
  /\ String.length k <= String.length item
  /\ item = k ++ suffix_of k item
  /\ Py.startswith item k = true.
Proof.
  intros Hg Hi.
  destruct (group_items_member _ _ _ _ _ _ _ Hg Hi) as (-> & _).
  pose proof (suffix_of_base_key item) as E.
  split; [reflexivity|]. split; [eauto|]. split.
  - rewrite E at 2. rewrite length_append. lia.
  - split; [assumption|]. apply startswith_iff. eauto.
Qed.

Lemma C10_base_key_is_prefix_witness :
  let files := ["Home - S2021E01 - A.mp4"; "Home - S2021E01 - A-poster.jpg"] in
  In ("Home - S2021E01 - A", files) (group_items "Videos" "Home" "/in" files)
  /\ In "Home - S2021E01 - A-poster.jpg" files
  /\ Py.startswith "Home - S2021E01 - A-poster.jpg" "Home - S2021E01 - A"
     = true.
Proof.
  intros files.
  assert (In ("Home - S2021E01 - A", files)
             (group_items "Videos" "Home" "/in" files)) as H1
      by (vm_compute; left; reflexivity).
  assert (In "Home - S2021E01 - A-poster.jpg" files) as H2
      by (vm_compute; right; left; reflexivity).
  split; [exact H1|]. split; [exact H2|].
  exact (proj2 (proj2 (proj2 (proj2
           (C10_base_key_is_prefix "Videos" "Home" "/in" files
              "Home - S2021E01 - A" files
              "Home - S2021E01 - A-poster.jpg" H1 H2))))).
Defined.

(** C9, as the code has it: for every entry name without [/], (1) a name
    that ends with the 10-character marker [.trickplay] loses exactly that
    marker, whether or not the entry is a directory, and this is decided
    before the extension rule; (2) otherwise the extension is what
    [os.path.splitext] takes it to be: the text from the last [.] on is
    stripped when some character before that [.] is not a [.]; (3) a name
    with no [.], or with only [.] before its last [.], is left whole;
    (4) then, in every case, a trailing 7-character [-poster] is stripped
    if present. *)
Theorem C9_base_key_derivation (item : string) :
  Py.all_chars (Re.chr_ne "/") item = true ->
  (forall k, item = k ++ ".trickplay" -> base_key_of item = strip_poster k)
  /\ (forall k e,
         item = k ++ "." ++ e ->
         Py.all_chars (Re.chr_ne ".") e = true ->
         Py.all_chars (Re.chr_eq ".") k = false ->
         base_key_of item = strip_poster k)
  /\ (Py.endswith item ".trickplay" = false ->
      (Py.all_chars (Re.chr_ne ".") item = true
       \/ exists d e, item = d ++ "." ++ e
                      /\ Py.all_chars (Re.chr_eq ".") d = true
                      /\ Py.all_chars (Re.chr_ne ".") e = true) ->
      base_key_of item = strip_poster item)
  /\ (forall k, strip_poster (k ++ "-poster") = k)
  /\ (forall k, Py.endswith k "-poster" = false -> strip_poster k = k).
Proof.
  intros Hsep. repeat split.
  - intros k ->. unfold base_key_of.
    rewrite endswith_append.
    now rewrite drop_last_trickplay.
  - intros k e -> He Hk. unfold base_key_of.
    destruct (Py.endswith (k ++ "." ++ e) ".trickplay") eqn:Et.
    + apply endswith_iff in Et as [k' Hk'].
      assert (k = k') as <-.
      { apply (last_dot_unique k k' e "trickplay" He eq_refl Hk'). }
      rewrite Hk'. now rewrite drop_last_trickplay.
    + now rewrite (splitext_last_dot k e Hsep He), Hk.
  - intros Et [Hn|(d & e & -> & Hd & He)]; unfold base_key_of; rewrite Et.
    + now rewrite (splitext_no_dot item Hn).
    + now rewrite (splitext_last_dot d e Hsep He), Hd.
  - intros k. unfold strip_poster. rewrite endswith_append.
    apply drop_last_poster.
  - intros k Hk. unfold strip_poster. now rewrite Hk.
Qed.

Lemma C9_base_key_derivation_witness :
  Py.all_chars (Re.chr_ne "/") "Home - S2021E01 - A-poster.jpg" = true
  /\ base_key_of "Home - S2021E01 - A-poster.jpg" = "Home - S2021E01 - A".
Proof.
  split; [reflexivity|].
  destruct (C9_base_key_derivation "Home - S2021E01 - A-poster.jpg" eq_refl)
    as (_ & H2 & _ & H4 & _).
  rewrite (H2 "Home - S2021E01 - A-poster" "jpg" eq_refl eq_refl eq_refl).
  exact (H4 "Home - S2021E01 - A").
Defined.

(** C9, as stated, fails on a name whose only [.] is its first character:
    the code keeps [.nfo] whole, where stripping the text from the last [.]
    on leaves nothing. *)
Lemma C9_counterexample :
  base_key_of ".nfo" = ".nfo"
  /\ spec_base_key false ".nfo" = ""
  /\ base_key_of ".nfo" <> spec_base_key false ".nfo".
Proof. repeat split. discriminate. Qed.

(** ** Reasoning on computations *)

Section MonadFacts.
Context {W : Type}.

Lemma emits_ret {A} P (a : A) : emits P (@ret W A a).
Proof. intros w. constructor. Qed.

Lemma emits_raise {A} P : emits P (@raise_ W A).
Proof. intros w. constructor. Qed.

Lemma emits_timeout {A} P : emits P (@timeout W A).
Proof. intros w. constructor. Qed.

Lemma emits_emit (P : event -> Prop) e : P e -> emits P (@emit W e).
Proof. intros H w. repeat constructor. exact H. Qed.

Lemma emits_call {A} (P : event -> Prop) e (f : W -> option A * W) :
  P e -> emits P (call e f).
Proof.
  intros H w. unfold call. destruct (f w) as [[a|] w1]; repeat constructor;
    exact H.
Qed.

Lemma emits_bind {A B} P (m : M W A) (f : A -> M W B) :
  emits P m -> (forall a, emits P (f a)) -> emits P (bind m f).
Proof.
  intros Hm Hf w. unfold bind. specialize (Hm w).
  destruct (m w) as [[[a| |] w1] t1]; simpl in *; try assumption.
  specialize (Hf a w1). destruct (f a w1) as [[o w2] t2]; simpl in *.
  apply Forall_app. now split.
Qed.

Lemma emits_try {A} P (m h : M W A) :
  emits P m -> emits P h -> emits P (try_except m h).
Proof.
  intros Hm Hh w. unfold try_except. specialize (Hm w).
  destruct (m w) as [[[a| |] w1] t1]; simpl in *; try assumption.
  specialize (Hh w1). destruct (h w1) as [[o w2] t2]; simpl in *.
  apply Forall_app. now split.
Qed.

Lemma emits_bind_post {A B} P (Q : A -> Prop) (m : M W A) (f : A -> M W B) :
  emits P m ->
  (forall w a w1 t1, m w = (Ret a, w1, t1) -> Q a) ->
  (forall a, Q a -> emits P (f a)) ->
  emits P (bind m f).
Proof.
  intros Hm HQ Hf w. unfold bind. specialize (Hm w). specialize (HQ w).
  destruct (m w) as [[[a| |] w1] t1]; simpl in *; try assumption.
  specialize (Hf a (HQ _ _ _ eq_refl) w1).
  destruct (f a w1) as [[o w2] t2]; simpl in *.
  apply Forall_app. now split.
Qed.

Lemma emits_if {A} P (b : bool) (m1 m2 : M W A) :
  emits P m1 -> emits P m2 -> emits P (if b then m1 else m2).
Proof. now destruct b. Qed.

Lemma preserves_ret {A} (a : A) : preserves (@ret W A a).
Proof. intros w. reflexivity. Qed.

Lemma preserves_emit e : preserves (@emit W e).
Proof. intros w. reflexivity. Qed.

Lemma preserves_timeout {A} : preserves (@timeout W A).
Proof. intros w. reflexivity. Qed.

Lemma preserves_bind {A B} (m : M W A) (f : A -> M W B) :
  preserves m -> (forall a, preserves (f a)) -> preserves (bind m f).
Proof.
  intros Hm Hf w. unfold bind. specialize (Hm w).
  destruct (m w) as [[[a| |] w1] t1]; simpl in *; try assumption.
  specialize (Hf a w1). destruct (f a w1) as [[o w2] t2]; simpl in *.
  congruence.
Qed.

Lemma preserves_try {A} (m h : M W A) :
  preserves m -> preserves h -> preserves (try_except m h).
Proof.
  intros Hm Hh w. unfold try_except. specialize (Hm w).
  destruct (m w) as [[[a| |] w1] t1]; simpl in *; try assumption.
  specialize (Hh w1). destruct (h w1) as [[o w2] t2]; simpl in *.
  congruence.
Qed.

Lemma preserves_if {A} (b : bool) (m1 m2 : M W A) :
  preserves m1 -> preserves m2 -> preserves (if b then m1 else m2).
Proof. now destruct b. Qed.

Lemma total_ret {A} (a : A) : total (@ret W A a).
Proof. intros w. discriminate. Qed.

Lemma total_raise {A} : total (@raise_ W A).
Proof. intros w. discriminate. Qed.

Lemma total_emit e : total (@emit W e).
Proof. intros w. discriminate. Qed.

Lemma total_call {A} e (f : W -> option A * W) : total (call e f).
Proof. intros w. unfold call. destruct (f w) as [[a|] w1]; discriminate. Qed.

Lemma total_bind {A B} (m : M W A) (f : A -> M W B) :
  total m -> (forall a, total (f a)) -> total (bind m f).
Proof.
  intros Hm Hf w. unfold bind. specialize (Hm w).
  destruct (m w) as [[[a| |] w1] t1]; simpl in *; try congruence.
  specialize (Hf a w1). now destruct (f a w1) as [[o w2] t2].
Qed.

Lemma total_try {A} (m h : M W A) :
  total m -> total h -> total (try_except m h).
Proof.
  intros Hm Hh w. unfold try_except. specialize (Hm w).
  destruct (m w) as [[[a| |] w1] t1]; simpl in *; try congruence.
  specialize (Hh w1). now destruct (h w1) as [[o w2] t2].
Qed.

Lemma total_if {A} (b : bool) (m1 m2 : M W A) :
  total m1 -> total m2 -> total (if b then m1 else m2).
Proof. now destruct b. Qed.

Lemma safe_ret {A} (a : A) : safe (@ret W A a).
Proof. intros w. discriminate. Qed.

Lemma safe_emit e : safe (@emit W e).
Proof. intros w. discriminate. Qed.

Lemma safe_bind {A B} (m : M W A) (f : A -> M W B) :
  safe m -> (forall a, safe (f a)) -> safe (bind m f).
Proof.
  intros Hm Hf w. unfold bind. specialize (Hm w).
  destruct (m w) as [[[a| |] w1] t1]; simpl in *; try congruence.
  specialize (Hf a w1). now destruct (f a w1) as [[o w2] t2].
Qed.

Lemma safe_try {A} (m h : M W A) : safe h -> safe (try_except m h).
Proof.
  intros Hh w. unfold try_except.
  destruct (m w) as [[[a| |] w1] t1]; simpl in *; try discriminate.
  specialize (Hh w1). now destruct (h w1) as [[o w2] t2].
Qed.

Lemma safe_if {A} (b : bool) (m1 m2 : M W A) :
  safe m1 -> safe m2 -> safe (if b then m1 else m2).
Proof. now destruct b. Qed.

Lemma returns_unit (m : M W unit) :
  total m -> safe m -> forall w, fst (fst (m w)) = Ret tt.
Proof.
  intros Ht Hs w. specialize (Ht w). specialize (Hs w).
  destruct (fst (fst (m w))) as [[]| |]; congruence.
Qed.

Lemma emits_weaken {A} (P Q : event -> Prop) (m : M W A) :
  (forall e, P e -> Q e) -> emits P m -> emits Q m.
Proof. intros H Hm w. eapply Forall_impl; [exact H | apply Hm]. Qed.

Lemma bind_inv {A B} (m : M W A) (f : A -> M W B) w o w' tr :
  bind m f w = (o, w', tr) ->
  (exists a w1 t1 t2,
      m w = (Ret a, w1, t1) /\ f a w1 = (o, w', t2)
      /\ tr = (t1 ++ t2)%list)
  \/ (o = Raise /\ m w = (Raise, w', tr))
  \/ (o = Timeout /\ m w = (Timeout, w', tr)).
Proof.
  unfold bind. destruct (m w) as [[[a| |] w1] t1].
  - destruct (f a w1) as [[o2 w2] t2] eqn:E. intros H.
    injection H as <- <- <-. left. exists a, w1, t1, t2. auto.
  - intros H. injection H as <- <- <-. right. left. auto.
  - intros H. injection H as <- <- <-. right. right. auto.
Qed.

Lemma bind_Ret_inv {A B} (m : M W A) (f : A -> M W B) w b w' tr :
  bind m f w = (Ret b, w', tr) ->
  exists a w1 t1 t2,
    m w = (Ret a, w1, t1) /\ f a w1 = (Ret b, w', t2)
    /\ tr = (t1 ++ t2)%list.
Proof.
  intros H. apply bind_inv in H as [H|[[H _]|[H _]]];
    [assumption | discriminate | discriminate].
Qed.

Lemma bind_ret_l {A B} (a : A) (f : A -> M W B) (w : W) :
  bind (ret a) f w = f a w.
Proof. unfold bind, ret. now destruct (f a w) as [[o w2] t2]. Qed.

Lemma bind_emit {B} e (f : unit -> M W B) (w : W) :
  bind (emit e) f w
  = (fst (fst (f tt w)), snd (fst (f tt w)), e :: snd (f tt w)).
Proof. unfold bind, emit. now destruct (f tt w) as [[o w2] t2]. Qed.

End MonadFacts.

Section ProgramFacts.
Context {W : Type} {FS : FileSystem W}.

Lemma emits_path_exists P p : P (EExists p) -> emits P (path_exists p).
Proof. apply emits_call. Qed.

Lemma preserves_path_exists p : preserves (path_exists p).
Proof. intros w. reflexivity. Qed.

Lemma emits_for_each {A} P (body : A -> M W unit) (l : list A) :
  (forall x, In x l -> emits P (body x)) -> emits P (for_each body l).
Proof.
  induction l as [|x l IH]; intros H; simpl.
  - apply emits_ret.
  - apply emits_bind; [apply H; now left|].
    intros _. apply IH. intros y Hy. apply H. now right.
Qed.

Lemma preserves_for_each {A} (body : A -> M W unit) (l : list A) :
  (forall x, preserves (body x)) -> preserves (for_each body l).
Proof.
  intros H. induction l as [|x l IH]; simpl.
  - apply preserves_ret.
  - apply preserves_bind; auto.
Qed.

Lemma emits_walk_loop P fuel (body : listing -> M W unit) g :
  (forall l, emits P (body l)) -> emits P (walk_loop fuel body g).
Proof.
  intros H. revert g. induction fuel as [|n IH]; intros g; simpl.
  - apply emits_timeout.
  - intros w. destruct (fs_next g w) as [[l g']|].
    + apply emits_bind; auto.
    + constructor.
Qed.

Lemma preserves_walk_loop fuel (body : listing -> M W unit) g :
  (forall l, preserves (body l)) -> preserves (walk_loop fuel body g).
Proof.
  intros H. revert g. induction fuel as [|n IH]; intros g; simpl.
  - apply preserves_timeout.
  - intros w. destruct (fs_next g w) as [[l g']|].
    + apply preserves_bind; auto.
    + reflexivity.
Qed.

Lemma emits_update_nfo nfo_path new_title new_year dry_run :
  emits (nfo_event nfo_path new_title new_year dry_run)
        (update_nfo nfo_path new_title new_year dry_run).
Proof.
  unfold update_nfo.
  apply emits_bind; [apply emits_emit; simpl; auto|]. intros _.
  apply emits_try; [|apply emits_emit; simpl; auto].
  destruct dry_run.
  - apply emits_emit; simpl; auto.
  - apply emits_bind; [apply emits_call; simpl; auto|]. intros content.
    apply emits_bind.
    { unfold re_sub. destruct (Re.sub _ _ _ _);
        [apply emits_ret | apply emits_raise]. }
    intros new_content.
    apply emits_bind.
    { apply emits_if; [apply emits_call; simpl; auto | apply emits_ret]. }
    intros _. apply emits_bind.
    { unfold re_sub. destruct (Re.sub _ _ _ _);
        [apply emits_ret | apply emits_raise]. }
    intros new_content2.
    apply emits_if; [apply emits_call; simpl; auto | apply emits_ret].
Qed.

Lemma total_re_sub r n repl s : total (re_sub (W:=W) r n repl s).
Proof.
  unfold re_sub. destruct (Re.sub r n repl s);
    [apply total_ret | apply total_raise].
Qed.

(** [update_nfo] catches everything: it returns normally, and never runs
    out of fuel. *)
Lemma update_nfo_returns nfo_path new_title new_year dry_run w :
  fst (fst (update_nfo nfo_path new_title new_year dry_run w)) = Ret tt.
Proof.
  apply returns_unit.
  - unfold update_nfo. apply total_bind; [apply total_emit|]. intros _.
    apply total_try; [|apply total_emit].
    destruct dry_run; [apply total_emit|].
    repeat first [ apply total_bind; [|intros ?] | apply total_call
                 | apply total_re_sub | apply total_if | apply total_ret ].
  - unfold update_nfo. apply safe_bind; [apply safe_emit|]. intros _.
    apply safe_try. apply safe_emit.
Qed.

End ProgramFacts.

(** ** Dry runs *)

Section DryRun.
Context {W : Type} {FS : FileSystem W}.

Lemma nfo_event_dry_quiet p t y e : nfo_event p t y true e -> quiet e.
Proof.
  destruct e as [| | | | |m|]; simpl; try tauto.
  - intros [_ H]; discriminate.
  - intros [_ H]; discriminate.
Qed.

Lemma quiet_update_nfo_dry p t y : emits quiet (update_nfo p t y true).
Proof.
  eapply emits_weaken; [apply nfo_event_dry_quiet | apply emits_update_nfo].
Qed.

Lemma update_nfo_dry p t y (w : W) :
  update_nfo p t y true w
  = (Ret tt, w, [EUpdateNfo p t y true; EPrint (MDryNfo t y p)]).
Proof. reflexivity. Qed.

Lemma quiet_check_items root bk dest final items :
  emits quiet (check_items root bk dest final items).
Proof.
  induction items as [|item items IH]; simpl.
  - apply emits_ret.
  - destruct (Py.startswith item bk); simpl; [|assumption].
    apply emits_bind; [apply emits_path_exists; exact I|].
    intros [|]; [|assumption].
    apply emits_if; [assumption | apply emits_ret].
Qed.

Lemma preserves_check_items root bk dest final items :
  preserves (check_items root bk dest final items).
Proof.
  induction items as [|item items IH]; simpl.
  - apply preserves_ret.
  - destruct (Py.startswith item bk); simpl; [|assumption].
    apply preserves_bind; [apply preserves_path_exists|].
    intros [|]; [|assumption].
    apply preserves_if; [assumption | apply preserves_ret].
Qed.

Lemma quiet_resolve fuel root bk dest base items n final :
  emits quiet (resolve fuel root bk dest base items n final).
Proof.
  revert n final; induction fuel as [|fuel IH]; intros n final; simpl.
  - apply emits_timeout.
  - apply emits_bind; [apply quiet_check_items|].
    intros [|]; simpl; [apply IH | apply emits_ret].
Qed.

Lemma preserves_resolve fuel root bk dest base items n final :
  preserves (resolve fuel root bk dest base items n final).
Proof.
  revert n final; induction fuel as [|fuel IH]; intros n final; simpl.
  - apply preserves_timeout.
  - apply preserves_bind; [apply preserves_check_items|].
    intros [|]; simpl; [apply IH | apply preserves_ret].
Qed.

Lemma dry_move_item root bk dest hv (w : W) :
  move_item true root bk dest hv w
  = (Ret tt, w,
     dry_move_events bk dest (year hv) (final_name hv) (item_name hv)).
Proof.
  unfold move_item, dry_move_events, print. rewrite bind_emit.
  cbn [negb]. destruct (Py.endswith _ _).
  - now rewrite update_nfo_dry.
  - reflexivity.
Qed.

(** The moves of a dry run, event by event. *)
Lemma dry_moves root bk dest y t final items (w : W) :
  for_each (move_item true root bk dest) (files_to_move_of items y t final) w
  = (Ret tt, w, flat_map (dry_move_events bk dest y final) items).
Proof.
  induction items as [|item items IH]; [reflexivity|].
  unfold files_to_move_of in *. cbn [map for_each flat_map].
  unfold bind. rewrite dry_move_item, IH. reflexivity.
Qed.

Lemma dry_process_group fuel ts og root bk items (w : W) :
  process_group fuel ts og true root (bk, items) w
  = match parse_name og bk with
    | None => (Ret tt, w, [EPrint (MSkip og bk)])
    | Some (y, t) =>
        let dest := dest_dir_of ts t y in
        let base := new_base_name_of t y in
        match resolve fuel root bk dest base items 1 base w with
        | (Ret final, _, probes) =>
            (Ret tt, w,
             EExists dest
             :: (probes ++ flat_map (dry_move_events bk dest y final) items)%list)
        | (Raise, _, probes) => (Raise, w, EExists dest :: probes)
        | (Timeout, _, probes) => (Timeout, w, EExists dest :: probes)
        end
    end.
Proof.
  unfold process_group.
  destruct (parse_name og bk) as [[y t]|]; [|reflexivity].
  cbv zeta.
  pose proof (preserves_resolve fuel root bk (dest_dir_of ts t y)
                (new_base_name_of t y) items 1 (new_base_name_of t y) w) as Hw.
  unfold bind at 1. unfold bind at 1.
  unfold path_exists at 1, call at 1.
  destruct (fs_exists w (dest_dir_of ts t y)); cbn [negb ret app];
    unfold bind;
    destruct (resolve fuel root bk (dest_dir_of ts t y)
                      (new_base_name_of t y) items 1 (new_base_name_of t y) w)
      as [[[final| |] w1] probes]; cbn [fst snd] in Hw; subst w1;
    try reflexivity;
    rewrite dry_moves; reflexivity.
Qed.

Lemma quiet_process_group fuel ts og root g :
  emits quiet (process_group fuel ts og true root g).
Proof.
  destruct g as [bk items]. intros w. rewrite dry_process_group.
  destruct (parse_name og bk) as [[y t]|]; [|repeat constructor].
  cbv zeta.
  pose proof (quiet_resolve fuel root bk (dest_dir_of ts t y)
                (new_base_name_of t y) items 1 (new_base_name_of t y) w) as Hq.
  destruct (resolve _ _ _ _ _ _ _ _ w) as [[[final| |] w1] probes];
    cbn [fst snd] in *; constructor; try exact I; try assumption.
  apply Forall_app. split; [assumption|].
  apply Forall_flat_map. apply Forall_forall. intros item _.
  unfold dry_move_events. destruct (Py.endswith _ _); repeat constructor.
Qed.

Lemma preserves_process_group fuel ts og root g :
  preserves (process_group fuel ts og true root g).
Proof.
  destruct g as [bk items]. intros w. rewrite dry_process_group.
  destruct (parse_name og bk) as [[y t]|]; [|reflexivity].
  cbv zeta. now destruct (resolve _ _ _ _ _ _ _ _ w) as [[[final| |] w1] probes].
Qed.

(** C7: a run with [dry_run=True] leaves every world as it found it, and
    all it emits are [os.path.exists] probes, prints and the marks of
    simulated patches: no directory is created, nothing is moved, no file
    is read or written.  Grouping, parsing, probing and logging still take
    place: a group whose key does not parse prints its skip notice; for
    any other the destination is probed, the collision loop runs with all
    its probes, and each member gets its notice (and a metadata file its
    simulated patch) under the name the loop settled on. *)
Theorem C7_dry_run_mutates_nothing fuel ts og (w : W) :
  (snd (fst (migrate_media fuel ts og true w)) = w
   /\ Forall quiet (snd (migrate_media fuel ts og true w)))
  /\ forall root bk items,
      process_group fuel ts og true root (bk, items) w
      = match parse_name og bk with
        | None => (Ret tt, w, [EPrint (MSkip og bk)])
        | Some (y, t) =>
            let dest := dest_dir_of ts t y in
            let base := new_base_name_of t y in
            match resolve fuel root bk dest base items 1 base w with
            | (Ret final, _, probes) =>
                (Ret tt, w,
                 EExists dest
                 :: (probes
                     ++ flat_map (dry_move_events bk dest y final) items)%list)
            | (Raise, _, probes) => (Raise, w, EExists dest :: probes)
            | (Timeout, _, probes) => (Timeout, w, EExists dest :: probes)
            end
        end.
Proof.
  split; [split|].
  - apply (@preserves_bind W); [apply preserves_emit|]. intros _.
    apply preserves_walk_loop. intros [[root dirs] files].
    apply preserves_for_each. intros g. apply preserves_process_group.
  - apply (@emits_bind W); [apply emits_emit; exact I|]. intros _.
    apply emits_walk_loop. intros [[root dirs] files].
    apply emits_for_each. intros g _. apply quiet_process_group.
  - intros. apply dry_process_group.
Qed.

End DryRun.

(** ** Moves *)

Section Moves.
Context {W : Type} {FS : FileSystem W}.

Lemma no_move_nfo_event p t y d (l : list event) :
  Forall (nfo_event p t y d) l -> filter is_move l = [].
Proof.
  induction 1 as [|e l He _ IH]; [reflexivity|].
  simpl. rewrite IH. now destruct e.
Qed.

(** One real move: the notice, the call of [shutil.move], and then the
    metadata patch when the move went through and the new name ends with
    [.nfo], or the failure notice when it did not. *)
Lemma move_item_real root bk dest hv (w : W) :
  let src := OsPath.join root [item_name hv] in
  let target_name := final_name hv ++ suffix_of bk (item_name hv) in
  let dst := OsPath.join dest [target_name] in
  exists w' rest,
    move_item false root bk dest hv w
    = (Ret tt, w',
       EPrint (MMove false (item_name hv) dst) :: EMove src dst :: rest)
    /\ filter is_move rest = []
    /\ match fs_move src dst w with
       | (Some _, w1) =>
           if Py.endswith target_name ".nfo"
           then (w', rest) =
                (snd (fst (update_nfo dst (final_name hv) (year hv) false w1)),
                 snd (update_nfo dst (final_name hv) (year hv) false w1))
                /\ exists rest',
                    rest = EUpdateNfo dst (final_name hv) (year hv) false
                           :: rest'
           else w' = w1 /\ rest = []
       | (None, w1) =>
           w' = w1 /\ rest = [EPrint (MMoveFailed (item_name hv))]
       end.
Proof.
  intros src target_name dst.
  unfold move_item. fold src target_name dst.
  unfold print, bind, emit, try_except, move, call. cbn [negb].
  destruct (fs_move src dst w) as [[[]|] w1]; cbn [fst snd].
  - destruct (Py.endswith target_name ".nfo").
    + pose proof (update_nfo_returns dst (final_name hv) (year hv) false w1)
        as Hr.
      pose proof (emits_update_nfo dst (final_name hv) (year hv) false w1)
        as He.
      assert (exists rest', snd (update_nfo dst (final_name hv) (year hv)
                                            false w1)
                            = EUpdateNfo dst (final_name hv) (year hv) false
                              :: rest') as Hfirst.
      { unfold update_nfo. rewrite bind_emit. cbn [snd]. eauto. }
      destruct (update_nfo dst (final_name hv) (year hv) false w1)
        as [[o w2] t2]; cbn [fst snd] in *. subst o.
      exists w2, t2. split; [reflexivity|]. split.
      * eapply no_move_nfo_event; eassumption.
      * split; [reflexivity | assumption].
    + exists w1, []. cbn [ret fst snd app]. repeat split.
  - exists w1, [EPrint (MMoveFailed (item_name hv))].
    cbn [fst snd app]. repeat split.
Qed.

(** All the moves of a group, in order, under one final name. *)
Lemma real_moves root bk dest y t final items (w : W) :
  exists w' tr,
    for_each (move_item false root bk dest)
             (files_to_move_of items y t final) w = (Ret tt, w', tr)
    /\ filter is_move tr
       = map (fun item =>
                EMove (OsPath.join root [item])
                      (OsPath.join dest [final ++ suffix_of bk item])) items.
Proof.
  revert w. induction items as [|item items IH]; intros w.
  - exists w, []. split; reflexivity.
  - unfold files_to_move_of in *. cbn [map for_each].
    destruct (move_item_real root bk dest
                {| item_name := item; year := y; title := t;
                   final_name := final |} w) as (w1 & rest & E & Hn & _).
    cbn [item_name final_name] in E.
    destruct (IH w1) as (w2 & tr & E2 & Hm).
    exists w2. eexists. unfold bind. rewrite E, E2. split; [reflexivity|].
    cbn [app filter is_move]. rewrite filter_app, Hn, Hm. reflexivity.
Qed.

Lemma filter_is_move_quiet (l : list event) :
  Forall quiet l -> filter is_move l = [].
Proof.
  induction 1 as [|e l He _ IH]; [reflexivity|].
  simpl. rewrite IH. now destruct e.
Qed.

(** C6: for every entry of every group the raw name is the BaseKey
    followed by the MoveSuffix, the slice [item[len(base_key):]]; and when
    a group is processed for real, the calls of [shutil.move] are, in the
    order of the entries, from the entry's path to the destination
    directory joined with the name the collision loop returned followed by
    that same suffix, unchanged. *)
Theorem C6_suffix_preserved
        (fuel : nat) (target_subdir original_group root : string)
        (all_items : list string) (k : string) (items : list string)
        (y t : string) (w w' : W) (tr : list event) :
  In (k, items) (group_items target_subdir original_group root all_items) ->
  parse_name original_group k = Some (y, t) ->
  process_group fuel target_subdir original_group false root (k, items) w
  = (Ret tt, w', tr) ->
  (forall item, In item items -> item = k ++ suffix_of k item)
  /\ exists final w1 w2 probes,
      resolve fuel root k (dest_dir_of target_subdir t y)
              (new_base_name_of t y) items 1 (new_base_name_of t y) w1
      = (Ret final, w2, probes)
      /\ filter is_move tr
         = map (fun item =>
                  EMove (OsPath.join root [item])
                        (OsPath.join (dest_dir_of target_subdir t y)
                                     [final ++ suffix_of k item])) items.
Proof.
  intros Hg Hp Hrun. split.
  - intros item Hi.
    destruct (group_items_member _ _ _ _ _ _ _ Hg Hi) as (-> & _).
    apply suffix_of_base_key.
  - unfold process_group in Hrun. rewrite Hp in Hrun.
    set (dest := dest_dir_of target_subdir t y) in *.
    set (base := new_base_name_of t y) in *.
    apply bind_Ret_inv in Hrun as (e & w0 & t0 & tr0 & E0 & Hrun & ->).
    apply bind_Ret_inv in Hrun as ([] & w1 & t1 & tr1 & E1 & Hrun & ->).
    apply bind_Ret_inv in Hrun as (final & w2 & probes & tr2 & E2 & Hrun & ->).
    assert (filter is_move t0 = []) as Ht0.
    { revert E0. unfold path_exists, call. intros E.
      apply (f_equal snd) in E. cbn [snd] in E. now subst t0. }
    assert (filter is_move t1 = []) as Ht1.
    { revert E1. unfold makedirs, call, ret.
      destruct (negb e); [destruct (fs_makedirs dest w0) as [[[]|] w3]|];
        intros E; apply (f_equal snd) in E; cbn [snd] in E; now subst t1. }
    pose proof (quiet_resolve fuel root k dest base items 1 base w1) as Hq.
    rewrite E2 in Hq. cbn [snd] in Hq.
    destruct (real_moves root k dest y t final items w2)
      as (w3 & tr3 & E3 & Hm).
    rewrite E3 in Hrun. apply (f_equal snd) in Hrun. cbn [snd] in Hrun.
    subst tr2.
    exists final, w1, w2, probes. split; [exact E2|].
    rewrite !filter_app, Ht0, Ht1, (filter_is_move_quiet _ Hq), Hm.
    reflexivity.
Qed.

End Moves.

(** ** The events of a group *)

Section GroupEvents.
Context {W : Type} {FS : FileSystem W}.
Variables (root k : string) (items : list string).
Variables (y t : string) (dest : string) (dry : bool).

Local Abbreviation base := (new_base_name_of t y).
Local Abbreviation P := (group_event root k items y base dest dry).

Lemma candidate_succ (n : nat) :
  1 <= n -> numbered base (n + 1) = candidate base (n + 1).
Proof.
  intros H. unfold candidate.
  destruct (Nat.leb_spec (n + 1) 1); [lia | reflexivity].
Qed.

Lemma candidate_one : candidate base 1 = base.
Proof. reflexivity. Qed.

Lemma events_check_items n l :
  1 <= n -> incl l items ->
  emits P (check_items root k dest (candidate base n) l).
Proof.
  intros Hn. induction l as [|item l IH]; intros Hl; simpl.
  - apply emits_ret.
  - assert (incl l items) as Hl' by (eapply incl_cons_inv; eauto).
    destruct (Py.startswith item k); simpl; [|auto].
    apply emits_bind.
    + apply emits_path_exists. right. exists n, item.
      repeat split; auto. apply Hl. now left.
    + intros [|]; [|auto]. apply emits_if; [auto | apply emits_ret].
Qed.

Lemma events_resolve fuel n :
  1 <= n ->
  emits P (resolve fuel root k dest base items n (candidate base n)).
Proof.
  revert n. induction fuel as [|fuel IH]; intros n Hn; simpl.
  - apply emits_timeout.
  - apply emits_bind; [apply events_check_items; auto using incl_refl|].
    intros [|]; simpl; [|apply emits_ret].
    rewrite candidate_succ by assumption. apply IH. lia.
Qed.

(** Whatever the loop returns is one of the candidates. *)
Lemma resolve_candidate fuel n (w : W) final w' tr :
  1 <= n ->
  resolve fuel root k dest base items n (candidate base n) w
  = (Ret final, w', tr) ->
  exists m, n <= m /\ final = candidate base m.
Proof.
  revert n w tr. induction fuel as [|fuel IH]; intros n w tr Hn; simpl.
  - discriminate.
  - intros H. apply bind_Ret_inv in H as (c & w1 & t1 & t2 & _ & H & _).
    destruct c; simpl in H.
    + rewrite candidate_succ in H by assumption.
      apply IH in H as (m & Hm & ->); [|lia]. exists m. split; [lia | auto].
    + injection H as <- _ _. exists n. auto.
Qed.

Lemma events_move_item n item :
  1 <= n -> In item items ->
  emits P (move_item dry root k dest
             {| item_name := item; year := y; title := t;
                final_name := candidate base n |}).
Proof.
  intros Hn Hi. unfold move_item. cbn [item_name final_name year].
  assert (forall d,
             d = dry ->
             Py.endswith (candidate base n ++ suffix_of k item) ".nfo" = true ->
             emits P (update_nfo
                        (OsPath.join dest
                                     [candidate base n ++ suffix_of k item])
                        (candidate base n) y d)) as Hnfo.
  { intros d -> He. eapply emits_weaken; [|apply emits_update_nfo].
    intros e Hev. unfold P, group_event.
    destruct e as [| | | | |[]|]; simpl in Hev; try contradiction;
      exists n, item; repeat split; auto; tauto. }
  apply emits_bind.
  { apply emits_emit. split; [reflexivity|]. exists n. auto. }
  intros _. destruct dry eqn:Ed; cbn [negb].
  - destruct (Py.endswith _ _) eqn:Ee; [auto | apply emits_ret].
  - apply emits_try.
    + apply emits_bind.
      { apply emits_call. split; [reflexivity|]. exists n, item. auto. }
      intros _. destruct (Py.endswith _ _) eqn:Ee; [auto | apply emits_ret].
    + apply emits_emit. split; auto.
Qed.

Lemma events_moves n :
  1 <= n ->
  emits P (for_each (move_item dry root k dest)
                    (files_to_move_of items y t (candidate base n))).
Proof.
  intros Hn. apply emits_for_each. intros hv Hhv.
  unfold files_to_move_of in Hhv. apply in_map_iff in Hhv as (item & <- & Hi).
  now apply events_move_item.
Qed.

End GroupEvents.

Section GroupEventsTop.
Context {W : Type} {FS : FileSystem W}.

(** Every event of a group whose key parses is a [group_event]. *)
Lemma events_process_group fuel ts og dry root k items y t :
  parse_name og k = Some (y, t) ->
  emits (group_event root k items y (new_base_name_of t y)
                     (dest_dir_of ts t y) dry)
        (process_group fuel ts og dry root (k, items)).
Proof.
  intros Hp. unfold process_group. rewrite Hp.
  apply emits_bind; [apply emits_path_exists; now left|].
  intros e. apply emits_bind.
  { destruct (negb e); [|apply emits_ret].
    destruct dry eqn:Ed; [apply emits_ret|].
    apply emits_call. split; reflexivity. }
  intros _.
  apply emits_bind_post
    with (Q := fun final => exists m, 1 <= m
                             /\ final = candidate (new_base_name_of t y) m).
  - apply (events_resolve root k items y t (dest_dir_of ts t y) dry fuel 1).
    lia.
  - intros w final w1 t1 H.
    apply (resolve_candidate root k items y t (dest_dir_of ts t y) fuel 1)
      in H; [assumption | lia].
  - intros final (m & Hm & ->). now apply events_moves.
Qed.

End GroupEventsTop.

(** ** Claims on a processed group *)

Section GroupClaims.
Context {W : Type} {FS : FileSystem W}.

(** C2, as the code has it: the patcher is called only on a path the group
    moves to whose name ends with [.nfo], with newTitle equal to the final
    name of the group, that is the candidate
    [<title> (<year>)] or [<title> (<year>) (<n>)] the collision loop
    settled on, and newYear equal to the parsed year; and every entry
    whose move went through and whose target name ends with [.nfo] is
    patched so, straight after its move. *)
Theorem C2_patcher_gets_final_name
        (fuel : nat) (ts og : string) (dry : bool) (root k : string)
        (items : list string) (y t : string) (w : W) :
  parse_name og k = Some (y, t) ->
  Forall (fun e =>
            match e with
            | EUpdateNfo p new_title new_year d =>
                new_year = y /\ d = dry
                /\ exists n item,
                    1 <= n /\ In item items
                    /\ new_title = candidate (t ++ " (" ++ y ++ ")") n
                    /\ p = OsPath.join (dest_dir_of ts t y)
                                       [new_title ++ suffix_of k item]
                    /\ Py.endswith (new_title ++ suffix_of k item) ".nfo"
                       = true
            | _ => True
            end)
         (snd (process_group fuel ts og dry root (k, items) w))
  /\ forall dest hv (w0 w1 : W),
      let src := OsPath.join root [item_name hv] in
      let target_name := final_name hv ++ suffix_of k (item_name hv) in
      let dst := OsPath.join dest [target_name] in
      fs_move src dst w0 = (Some tt, w1) ->
      Py.endswith target_name ".nfo" = true ->
      exists w' rest,
        move_item false root k dest hv w0
        = (Ret tt, w',
           EPrint (MMove false (item_name hv) dst)
           :: EMove src dst
           :: EUpdateNfo dst (final_name hv) (year hv) false :: rest).
Proof.
  intros Hp. split.
  - eapply Forall_impl;
      [|apply (events_process_group fuel ts og dry root k items y t Hp w)].
    intros [| | | | | |p nt ny d]; try (intros _; exact I).
    intros (n & item & Hn & Hi & He & Hev). simpl in Hev.
    destruct Hev as (-> & -> & -> & ->).
    repeat split; try reflexivity. exists n, item. repeat split; auto.
  - intros dest hv w0 w1 src target_name dst Hm He.
    destruct (move_item_real root k dest hv w0) as (w' & rest & E & _ & H).
    fold src target_name dst in E, H. rewrite Hm, He in H.
    destruct H as (_ & rest' & ->). eauto.
Qed.

(** C4, as the code has it: [os.makedirs] is called outside any [try], so
    when it raises for the destination of a group the exception leaves
    [process_group] in the world the failed call left, and nothing more of
    the group runs; a group that raises ends the loop over the groups of
    its directory, after the groups before it and before those after it;
    a directory that raises ends the walk at once; and [migrate_media]
    lets the exception of the walk out. *)
Theorem C4_makedirs_failure_aborts
        (fuel : nat) (ts og root k : string) (items : list string)
        (y t : string) (w w1 : W) :
  parse_name og k = Some (y, t) ->
  fs_exists w (dest_dir_of ts t y) = false ->
  fs_makedirs (dest_dir_of ts t y) w = (None, w1) ->
  process_group fuel ts og false root (k, items) w
  = (Raise, w1,
     [EExists (dest_dir_of ts t y); EMakedirs (dest_dir_of ts t y)])
  /\ (forall (body : string * list string -> M W unit) before g after
             w0 wa ta wb tb,
         for_each body before w0 = (Ret tt, wa, ta) ->
         body g wa = (Raise, wb, tb) ->
         for_each body (before ++ g :: after) w0
         = (Raise, wb, (ta ++ tb)%list))
  /\ (forall (body : listing -> M W unit) n gen gen' l w0 wb tb,
         fs_next gen w0 = Some (l, gen') ->
         body l w0 = (Raise, wb, tb) ->
         walk_loop (S n) body gen w0 = (Raise, wb, tb))
  /\ (forall n w0 wb tb,
         walk_loop n (process_directory n ts og false) (fs_walk ROOT_DIR) w0
         = (Raise, wb, tb) ->
         migrate_media n ts og false w0
         = (Raise, wb, EPrint (MStart false) :: tb)).
Proof.
  intros Hp He Hm. repeat split.
  - unfold process_group. rewrite Hp.
    unfold bind, path_exists, makedirs, call. rewrite He. cbn [negb].
    now rewrite Hm.
  - intros body before. induction before as [|b before IH];
      intros g after w0 wa ta wb tb H1 H2.
    + injection H1 as <- <-. cbn [app for_each]. unfold bind.
      now rewrite H2.
    + cbn [app for_each] in *.
      apply bind_Ret_inv in H1 as ([] & w2 & t2 & t3 & E & H1 & ->).
      unfold bind. rewrite E.
      rewrite (IH g after w2 wa t3 wb tb H1 H2).
      now rewrite app_assoc.
  - intros body n gen gen' l w0 wb tb Hn Hb.
    cbn [walk_loop]. rewrite Hn. unfold bind. now rewrite Hb.
  - intros n w0 wb tb H. unfold migrate_media, print.
    rewrite bind_emit, H. reflexivity.
Qed.

End GroupClaims.

Lemma C2_patcher_gets_final_name_witness :
  parse_name "Home" Scenario.party = Some ("2021", "Birthday Party")
  /\ Forall (fun e =>
               match e with
               | EUpdateNfo _ new_title new_year _ =>
                   new_year = "2021"
                   /\ exists n, new_title = candidate "Birthday Party (2021)" n
               | _ => True
               end)
            (snd (@process_group _ (MemFS.fs [] []) 3 "Videos" "Home" false
                    Scenario.src_dir (Scenario.party, Scenario.files)
                    Scenario.w0)).
Proof.
  split; [reflexivity|].
  eapply Forall_impl;
    [|apply (proj1 (@C2_patcher_gets_final_name _ (MemFS.fs [] []) 3 "Videos"
                     "Home" false Scenario.src_dir Scenario.party
                     Scenario.files "2021" "Birthday Party" Scenario.w0
                     eq_refl))].
  intros [| | | | | |p nt ny d]; try (intros _; exact I).
  intros (-> & _ & n & _ & _ & _ & -> & _). split; [reflexivity|].
  exists n. reflexivity.
Defined.

(** C2, as stated, fails on scenario 1: the title parsed from the base key
    is [Birthday Party], and the one call of the patcher gets
    [Birthday Party (2021)]. *)
Lemma C2_counterexample :
  parse_name "Home" Scenario.party = Some ("2021", "Birthday Party")
  /\ filter is_patch_call
            (snd (Scenario.run Scenario.files [] false Scenario.w0))
     = [EUpdateNfo (Scenario.dest ++ "/Birthday Party (2021).nfo")
                   "Birthday Party (2021)" "2021" false]
  /\ "Birthday Party (2021)" <> "Birthday Party".
Proof.
  split; [reflexivity|]. split; [vm_compute; reflexivity | discriminate].
Qed.

Lemma C4_makedirs_failure_aborts_witness :
  parse_name "Home" "Home - S2021E01 - A" = Some ("2021", "A")
  /\ MemFS.exists_ Scenario.w_two (dest_dir_of "Videos" "A" "2021") = false
  /\ MemFS.makedirs Scenario.read_only (dest_dir_of "Videos" "A" "2021")
                    Scenario.w_two = (None, Scenario.w_two)
  /\ @process_group _ (MemFS.fs [] Scenario.read_only) 3 "Videos" "Home" false
       Scenario.src_dir ("Home - S2021E01 - A", ["Home - S2021E01 - A.mp4"])
       Scenario.w_two
     = (Raise, Scenario.w_two,
        [EExists (dest_dir_of "Videos" "A" "2021");
         EMakedirs (dest_dir_of "Videos" "A" "2021")]).
Proof.
  split; [reflexivity|]. split; [reflexivity|]. split; [reflexivity|].
  exact (proj1 (@C4_makedirs_failure_aborts _ (MemFS.fs [] Scenario.read_only)
                  3 "Videos" "Home" Scenario.src_dir "Home - S2021E01 - A"
                  ["Home - S2021E01 - A.mp4"] "2021" "A" Scenario.w_two
                  Scenario.w_two eq_refl eq_refl eq_refl)).
Defined.

(** C4, as stated, fails when the year directory of the first of two groups
    is read-only: the run ends with the exception in flight straight after
    the failed [os.makedirs], the second group is never looked at, and both
    files are where they were. *)
Lemma C4_counterexample :
  Scenario.run Scenario.two_files Scenario.read_only false Scenario.w_two
  = (Raise, Scenario.w_two,
     [EPrint (MStart false);
      EExists "/Volumes/media/home_videos/home/2021/Videos/A (2021)";
      EMakedirs "/Volumes/media/home_videos/home/2021/Videos/A (2021)"]).
Proof. vm_compute. reflexivity. Qed.

(** C1, as stated, fails on scenario 2: after one collision the candidate
    is [Birthday Party (2021) (2)], and the path probed and moved to for the
    video is in the directory [Birthday Party (2021)], not in a directory
    named after the candidate. *)
Lemma C1_counterexample :
  let tr := snd (Scenario.run Scenario.files [] false Scenario.w_taken) in
  let p := Scenario.dest ++ "/Birthday Party (2021) (2).mp4" in
  nth_error tr 3 = Some (EExists p)
  /\ nth_error tr 7
     = Some (EMove (Scenario.src_dir ++ "/" ++ Scenario.party ++ ".mp4") p)
  /\ Py.startswith
       p (OsPath.join ROOT_DIR ["2021"; "Videos"; "Birthday Party (2021) (2)"])
     = false
  /\ Py.startswith
       p (OsPath.join ROOT_DIR ["2021"; "Videos"; "Birthday Party (2021)"]
          ++ "/")
     = true.
Proof. vm_compute. repeat split. Qed.

(** C8, on a title that starts with a digit: the replacement template is
    the new title between the references to groups 1 and 3, so the first
    reference runs into the title.  With [4th of July (2021)] it reads as
    group 14, the template does not compile, and the file keeps its old
    title and its old year; with [2021 Party (2021)] it reads as the octal
    escape 120, the letter P, and the opening title tag is lost. *)
Theorem C8_title_with_leading_digit :
  (let r := Scenario.run [Scenario.july ++ ".nfo"] [] false Scenario.w_july in
   let path := Scenario.july_dest ++ "/4th of July (2021).nfo" in
   fst (fst r) = Ret tt
   /\ MemFS.lookup (snd (fst r)) path = Some (MemFS.File Scenario.july_text)
   /\ nth_error (snd r) 6
      = Some (EUpdateNfo path "4th of July (2021)" "2021" false)
   /\ nth_error (snd r) 8 = Some (EPrint (MNfoError path))
   /\ Re.sub title_pattern 3 ("\1" ++ "4th of July (2021)" ++ "\3")
             Scenario.july_text = None)
  /\ (let r := Scenario.run [Scenario.trip ++ ".nfo"] [] false Scenario.w_trip in
      let path := Scenario.trip_dest ++ "/2021 Party (2021).nfo" in
      MemFS.lookup (snd (fst r)) path
      = Some (MemFS.File "P21 Party (2021)</title><year>2021</year>")).
Proof. vm_compute. repeat split. Qed.

(** ** The matcher *)

Section MatcherFacts.
Context {A : Type}.

Lemma drop_0 (s : string) : Py.drop 0 s = s.
Proof. now destruct s. Qed.

Lemma exec_lit (l s : string) (g : Re.groups)
      (k : string -> Re.groups -> option A) :
  Re.exec (Re.lit false l) s g k
  = if Py.startswith s l then k (Py.drop (String.length l) s) g else None.
Proof.
  unfold Py.startswith. revert s. induction l as [|x l IH]; intros s.
  - cbn [Re.lit Re.exec String.length]. rewrite drop_0. now destruct s.
  - cbn [Re.lit Re.exec String.length]. destruct s as [|c s]; [reflexivity|].
    cbn [String.prefix Py.drop]. unfold Re.chr_eq.
    destruct (ascii_dec x c) as [<-|Hne].
    + rewrite Ascii.eqb_refl. apply IH.
    + destruct (Ascii.eqb_spec c x); [congruence | reflexivity].
Qed.

Lemma exec_lit_append (l r : string) (g : Re.groups)
      (k : string -> Re.groups -> option A) :
  Re.exec (Re.lit false l) (l ++ r) g k = k r g.
Proof. now rewrite exec_lit, startswith_append, drop_append. Qed.

Lemma exec_lit_inv (l s : string) (g : Re.groups)
      (k : string -> Re.groups -> option A) (x : A) :
  Re.exec (Re.lit false l) s g k = Some x ->
  exists r, s = l ++ r /\ k r g = Some x.
Proof.
  rewrite exec_lit. destruct (Py.startswith s l) eqn:E; [|discriminate].
  apply startswith_iff in E as [r ->]. rewrite drop_append. eauto.
Qed.

Lemma star_greedy_append (p : ascii -> bool) (k : string -> option A)
      (a r : string) (x : A) :
  Py.all_chars p a = true ->
  match r with String c _ => p c = false | EmptyString => True end ->
  k r = Some x ->
  Re.star_greedy p k (a ++ r) = Some x.
Proof.
  intros Ha Hr Hk. induction a as [|c a IH]; cbn [append].
  - destruct r as [|c r]; cbn [Re.star_greedy]; [assumption|].
    now rewrite Hr.
  - cbn [Py.all_chars] in Ha. apply andb_true_iff in Ha as [Hc Ha].
    cbn [Re.star_greedy]. now rewrite Hc, (IH Ha).
Qed.

Lemma star_greedy_inv (p : ascii -> bool) (k : string -> option A)
      (s : string) (x : A) :
  Re.star_greedy p k s = Some x ->
  exists a r, s = a ++ r /\ Py.all_chars p a = true /\ k r = Some x.
Proof.
  induction s as [|c s IH]; cbn [Re.star_greedy]; intros H.
  - exists "", "". auto.
  - destruct (p c) eqn:Hc.
    + destruct (Re.star_greedy p k s) as [v|] eqn:E.
      * injection H as ->. destruct (IH eq_refl) as (a & r & -> & Ha & Hk).
        exists (String c a), r. cbn [Py.all_chars append]. rewrite Hc, Ha.
        auto.
      * exists "", (String c s). auto.
    + exists "", (String c s). auto.
Qed.

Lemma star_greedy_total (p : ascii -> bool) (k : string -> option A)
      (s : string) :
  (forall r, k r <> None) ->
  Re.star_greedy p k s = k (drop_while p s).
Proof.
  intros Hk. induction s as [|c s IH]; cbn [Re.star_greedy drop_while];
    [reflexivity|].
  destruct (p c); [|reflexivity]. rewrite IH.
  destruct (k (drop_while p s)) eqn:E; [reflexivity | now apply Hk in E].
Qed.

End MatcherFacts.

Section WhileFacts.

Lemma take_drop_while (p : ascii -> bool) (s : string) :
  s = take_while p s ++ drop_while p s.
Proof.
  induction s as [|c s IH]; cbn [take_while drop_while]; [reflexivity|].
  destruct (p c); cbn [append]; congruence.
Qed.

Lemma consumed_append (a r : string) : Re.consumed (a ++ r) r = a.
Proof.
  unfold Re.consumed. rewrite length_append.
  replace (String.length a + String.length r - String.length r)
    with (String.length a) by lia.
  apply take_append.
Qed.

Lemma consumed_drop_while (p : ascii -> bool) (s : string) :
  Re.consumed s (drop_while p s) = take_while p s.
Proof.
  rewrite (take_drop_while p s) at 1. apply consumed_append.
Qed.

Lemma drop_while_append (p : ascii -> bool) (a r : string) :
  Py.all_chars p a = true ->
  match r with String c _ => p c = false | EmptyString => True end ->
  drop_while p (a ++ r) = r.
Proof.
  intros Ha Hr. induction a as [|c a IH]; cbn [append].
  - destruct r as [|c r]; cbn [drop_while]; [reflexivity | now rewrite Hr].
  - cbn [Py.all_chars] in Ha. apply andb_true_iff in Ha as [Hc Ha].
    cbn [drop_while]. rewrite Hc. auto.
Qed.

Lemma all_chars_take_while (p q : ascii -> bool) (s : string) :
  Py.all_chars p s = true -> Py.all_chars p (take_while q s) = true.
Proof.
  induction s as [|c s IH]; cbn [Py.all_chars take_while]; [reflexivity|].
  intros H. apply andb_true_iff in H as [Hc Hs].
  destruct (q c); [|reflexivity]. cbn [Py.all_chars]. now rewrite Hc, IH.
Qed.

Lemma all_chars_lstrip (p : ascii -> bool) (s : string) :
  Py.all_chars p s = true -> Py.all_chars p (Py.lstrip s) = true.
Proof.
  induction s as [|c s IH]; cbn [Py.all_chars Py.lstrip]; [reflexivity|].
  intros H. destruct (Py.isspace c); [|exact H].
  apply andb_true_iff in H as [_ Hs]. auto.
Qed.

Lemma all_chars_rstrip (p : ascii -> bool) (s : string) :
  Py.all_chars p s = true -> Py.all_chars p (Py.rstrip s) = true.
Proof.
  induction s as [|c s IH]; cbn [Py.all_chars Py.rstrip]; [reflexivity|].
  intros H. apply andb_true_iff in H as [Hc Hs]. specialize (IH Hs).
  destruct (Py.rstrip s) as [|d r].
  - destruct (Py.isspace c); [reflexivity|]. cbn [Py.all_chars].
    now rewrite Hc.
  - cbn [Py.all_chars] in *. now rewrite Hc, IH.
Qed.

Lemma all_chars_strip (p : ascii -> bool) (s : string) :
  Py.all_chars p s = true -> Py.all_chars p (Py.strip s) = true.
Proof. intros H. now apply all_chars_rstrip, all_chars_lstrip. Qed.

End WhileFacts.

(** ** Parsing a base key *)

Section ParseFacts.

Lemma length_4 (y : string) :
  String.length y = 4 ->
  exists c1 c2 c3 c4, y = String c1 (String c2 (String c3 (String c4 ""))).
Proof.
  destruct y as [|c1 [|c2 [|c3 [|c4 [|c5 y]]]]]; try discriminate.
  intros _. eauto.
Qed.

Lemma exec_four_digits {A} (y r : string) (g : Re.groups)
      (k : string -> Re.groups -> option A) :
  String.length y = 4 -> Py.all_chars Py.isdigit y = true ->
  Re.exec four_digits (y ++ r) g k = k r g.
Proof.
  intros Hl Hd. destruct (length_4 y Hl) as (c1 & c2 & c3 & c4 & ->).
  cbn [Py.all_chars] in Hd.
  repeat (apply andb_true_iff in Hd as [?Hc Hd]).
  unfold four_digits, Re.digit. cbn [Re.exec append].
  now rewrite Hc, Hc0, Hc1, Hc2.
Qed.

Lemma exec_four_digits_inv {A} (s : string) (g : Re.groups)
      (k : string -> Re.groups -> option A) (x : A) :
  Re.exec four_digits s g k = Some x ->
  exists y r, s = y ++ r /\ String.length y = 4
              /\ Py.all_chars Py.isdigit y = true /\ k r g = Some x.
Proof.
  unfold four_digits, Re.digit. cbn [Re.exec].
  destruct s as [|c1 [|c2 [|c3 [|c4 r]]]];
    repeat match goal with
           | |- context [if Py.isdigit ?c then _ else _] =>
               destruct (Py.isdigit c) eqn:?
           end; try discriminate.
  intros H. exists (String c1 (String c2 (String c3 (String c4 "")))), r.
  cbn [Py.all_chars append String.length].
  rewrite Heqb, Heqb0, Heqb1, Heqb2. auto.
Qed.

Lemma isdigit_space : Py.isdigit " " = false.
Proof. reflexivity. Qed.

(** After the digits of the episode number comes [ - ], which starts with
    no digit. *)
Lemma not_digit_head (rest : string) :
  match " - " ++ rest with
  | String c _ => Re.digit c = false
  | EmptyString => True
  end.
Proof. reflexivity. Qed.

Lemma parse_name_intro (og y ds rest : string) :
  String.length y = 4 -> Py.all_chars Py.isdigit y = true ->
  ds <> "" -> Py.all_chars Py.isdigit ds = true ->
  parse_name og (og ++ " - S" ++ y ++ "E" ++ ds ++ " - " ++ rest)
  = Some (y, Py.strip (first_line rest)).
Proof.
  intros Hl Hy Hne Hds. unfold parse_name, Re.match_, name_pattern.
  fold four_digits. cbn [Re.exec].
  rewrite exec_lit_append, exec_lit_append.
  rewrite (exec_four_digits y _ _ _ Hl Hy).
  rewrite exec_lit_append.
  destruct ds as [|d ds]; [congruence|].
  cbn [Py.all_chars] in Hds. apply andb_true_iff in Hds as [Hd Hds].
  remember (" - " ++ rest) as tail eqn:Et.
  unfold Re.plus. cbn [Re.exec append]. unfold Re.digit at 1. rewrite Hd.
  erewrite star_greedy_append; [| exact Hds | subst tail; apply not_digit_head |].
  2: { cbv beta. subst tail. rewrite exec_lit_append. cbn [Re.exec].
       rewrite star_greedy_total by discriminate. reflexivity. }
  cbn [Re.group Nat.eqb].
  rewrite consumed_append, consumed_drop_while. reflexivity.
Qed.

Lemma parse_name_elim (og bk y t : string) :
  parse_name og bk = Some (y, t) ->
  exists ds rest,
    bk = og ++ " - S" ++ y ++ "E" ++ ds ++ " - " ++ rest
    /\ String.length y = 4 /\ Py.all_chars Py.isdigit y = true
    /\ ds <> "" /\ Py.all_chars Py.isdigit ds = true
    /\ t = Py.strip (first_line rest).
Proof.
  unfold parse_name, Re.match_, name_pattern.
  destruct (Re.exec _ bk [] _) as [[rest0 g]|] eqn:E; [|discriminate].
  cbn [Re.exec] in E.
  apply exec_lit_inv in E as (r1 & -> & E).
  apply exec_lit_inv in E as (r2 & -> & E).
  apply exec_four_digits_inv in E as (y0 & r3 & -> & Hl & Hy & E).
  apply exec_lit_inv in E as (r4 & -> & E).
  unfold Re.plus in E. cbn [Re.exec] in E.
  destruct r4 as [|d r4]; [discriminate|].
  destruct (Re.digit d) eqn:Hd; [|discriminate].
  apply star_greedy_inv in E as (ds & r5 & -> & Hds & E).
  apply exec_lit_inv in E as (rest & -> & E).
  cbn [Re.exec] in E. rewrite star_greedy_total in E by discriminate.
  injection E as <- <-. cbn [Re.group Nat.eqb].
  rewrite consumed_append, consumed_drop_while.
  intros H. injection H as <- <-.
  exists (String d ds), rest. cbn [Py.all_chars append].
  change Re.digit with Py.isdigit in *. rewrite Hd, Hds.
  repeat split; try assumption; try reflexivity. discriminate.
Qed.

Lemma parse_name_chars (p : ascii -> bool) (og bk y t : string) :
  parse_name og bk = Some (y, t) ->
  Py.all_chars p bk = true -> Py.all_chars p t = true.
Proof.
  intros H Hb. apply parse_name_elim in H as (ds & rest & -> & _ & _ & _ & _ & ->).
  rewrite !all_chars_append in Hb.
  repeat (apply andb_true_iff in Hb as [_ Hb]).
  now apply all_chars_strip, all_chars_take_while.
Qed.

End ParseFacts.

(** C3, as the code has it: a BaseKey parses exactly when it is the prefix,
    [ - S], four digits, [E], one or more digits, [ - ] and any remainder,
    empty or not; the match is anchored at the start, compares characters
    as they are (an upper-case S and E only) and has no anchor at the end.
    Then year is the four digits and title is the remainder up to its
    first line feed, trimmed.  A group whose key does not parse prints its
    skip notice and nothing else happens: no probe, no move. *)
Theorem C3_parse_name {W : Type} {FS : FileSystem W} (og bk : string) :
  (forall y t,
      parse_name og bk = Some (y, t)
      <-> exists ds rest,
        bk = og ++ " - S" ++ y ++ "E" ++ ds ++ " - " ++ rest
        /\ String.length y = 4 /\ Py.all_chars Py.isdigit y = true
        /\ ds <> "" /\ Py.all_chars Py.isdigit ds = true
        /\ t = Py.strip (first_line rest))
  /\ (parse_name og bk = None ->
      forall fuel ts dry root items (w : W),
        process_group fuel ts og dry root (bk, items) w
        = (Ret tt, w, [EPrint (MSkip og bk)])).
Proof.
  split.
  - intros y t. split.
    + apply parse_name_elim.
    + intros (ds & rest & -> & Hl & Hy & Hne & Hds & ->).
      now apply parse_name_intro.
  - intros H fuel ts dry root items w. unfold process_group. now rewrite H.
Qed.

(** C3, as stated, fails on a lower-case marker, which does not parse, and
    on an empty title remainder, which does. *)
Lemma C3_counterexample :
  parse_name "Home" "Home - s2021e01 - Clip" = None
  /\ parse_name "Home" "Home - S2021E01 - " = Some ("2021", "").
Proof. split; reflexivity. Qed.

(** ** The collision loop *)

Section Counting.

Lemma uint_digits (d : Decimal.uint) :
  Py.all_chars Py.isdigit (NilEmpty.string_of_uint d) = true.
Proof. induction d; simpl; auto. Qed.

Lemma str_of_nat_digits (n : nat) :
  Py.all_chars Py.isdigit (Py.str_of_nat n) = true.
Proof. apply uint_digits. Qed.

Lemma str_of_nat_inj (n m : nat) : Py.str_of_nat n = Py.str_of_nat m -> n = m.
Proof.
  unfold Py.str_of_nat. intros H.
  apply (f_equal NilEmpty.uint_of_string) in H. rewrite !NilEmpty.usu in H.
  injection H as H. apply (f_equal Nat.of_uint) in H.
  now rewrite !Unsigned.of_to in H.
Qed.

(** A run of digits ends where the closing parenthesis stands. *)
Lemma digits_paren_inj (a b s s' : string) :
  Py.all_chars Py.isdigit a = true -> Py.all_chars Py.isdigit b = true ->
  a ++ String ")" s = b ++ String ")" s' -> a = b.
Proof.
  revert b. induction a as [|c a IH]; intros [|d b] Ha Hb H;
    cbn [append Py.all_chars] in *.
  - reflexivity.
  - injection H as <- _. discriminate.
  - injection H as -> _. discriminate.
  - injection H as <- H.
    apply andb_true_iff in Ha as [_ Ha]. apply andb_true_iff in Hb as [_ Hb].
    f_equal. eauto.
Qed.

Lemma numbered_inj (base : string) (n n' : nat) (s s' : string) :
  numbered base n ++ s = numbered base n' ++ s' -> n = n'.
Proof.
  unfold numbered. rewrite !append_assoc. intros H.
  apply append_inv_head in H.
  cbn [append] in H. injection H as H.
  rewrite ?append_assoc in H. cbn [append] in H.
  apply str_of_nat_inj.
  exact (digits_paren_inj _ _ s s' (str_of_nat_digits n)
                          (str_of_nat_digits n') H).
Qed.

Lemma join2_same_head (d b u u' : string) :
  b <> "" -> OsPath.join2 d (b ++ u) = OsPath.join2 d (b ++ u') -> u = u'.
Proof.
  intros Hb. destruct b as [|c b]; [congruence|].
  assert (forall s, String.prefix "" s = true) as Hnil by (now intros []).
  unfold OsPath.join2, Py.startswith. cbn [append String.prefix].
  destruct (ascii_dec "/" c); rewrite ?Hnil; cbn [orb].
  - intros H. injection H as H. eapply append_inv_head; eauto.
  - destruct (String.eqb d "").
    + intros H. injection H as H. eapply append_inv_head; eauto.
    + destruct (Py.endswith d "/"); intros H.
      * apply append_inv_head in H. injection H as H.
        eapply append_inv_head; eauto.
      * apply append_inv_head in H. cbn [append] in H. injection H as H.
        eapply append_inv_head; eauto.
Qed.

Lemma new_base_name_nonempty (t y : string) : new_base_name_of t y <> "".
Proof. unfold new_base_name_of. destruct t; discriminate. Qed.

(** Two numbered candidates never propose the same path. *)
Lemma proposed_path_inj (dest t y bk item item' : string) (n n' : nat) :
  2 <= n -> 2 <= n' ->
  proposed_path_of dest (candidate (new_base_name_of t y) n) bk item
  = proposed_path_of dest (candidate (new_base_name_of t y) n') bk item' ->
  n = n'.
Proof.
  intros Hn Hn'. unfold proposed_path_of, candidate, OsPath.join.
  destruct (Nat.leb_spec n 1); [lia|]. destruct (Nat.leb_spec n' 1); [lia|].
  cbn [fold_left]. unfold numbered. rewrite !append_assoc. intros Hp.
  apply join2_same_head in Hp; [|apply new_base_name_nonempty].
  assert (numbered "" n ++ suffix_of bk item
          = numbered "" n' ++ suffix_of bk item') as Hp'.
  { unfold numbered. cbn [append]. rewrite !append_assoc. exact Hp. }
  exact (numbered_inj _ _ _ _ _ Hp').
Qed.

Lemma pigeonhole (R : nat -> string -> Prop) (lo : nat) :
  (forall n n' p, lo <= n -> lo <= n' -> R n p -> R n' p -> n = n') ->
  forall N l,
    (forall n, lo <= n < lo + N -> exists p, In p l /\ R n p) ->
    N <= List.length l.
Proof.
  intros Hinj. induction N as [|N IH]; intros l H; [lia|].
  destruct (H (lo + N)) as (p & Hp & HR); [lia|].
  assert (N <= List.length (List.remove string_dec p l)) as HN.
  { apply IH. intros n Hn. destruct (H n) as (q & Hq & HRq); [lia|].
    exists q. split; [|assumption].
    apply in_in_remove; [|assumption].
    intros ->. assert (n = lo + N) by (apply (Hinj _ _ p); auto; lia). lia. }
  pose proof (remove_length_lt string_dec l p Hp). lia.
Qed.

Lemma bounded_search (f : nat -> bool) (lo N : nat) :
  (exists n, lo <= n < lo + N /\ f n = false)
  \/ (forall n, lo <= n < lo + N -> f n = true).
Proof.
  induction N as [|N [(n & Hn & Hf)|IH]].
  - right. intros n Hn. lia.
  - left. exists n. split; [lia | assumption].
  - destruct (f (lo + N)) eqn:E.
    + right. intros n Hn. destruct (Nat.eq_dec n (lo + N)) as [->|];
        [assumption | apply IH; lia].
    + left. exists (lo + N). split; [lia | assumption].
Qed.

Lemma least_false (f : nat -> bool) (n : nat) :
  1 <= n -> f n = false ->
  exists m, 1 <= m <= n /\ f m = false
            /\ forall j, 1 <= j < m -> f j = true.
Proof.
  induction n as [n IHn] using lt_wf_ind. intros Hn Hf.
  destruct (bounded_search f 1 (n - 1)) as [(m & Hm & Hfm)|Hall].
  - destruct (IHn m ltac:(lia) ltac:(lia) Hfm) as (m' & Hm' & Hfm' & Hleast).
    exists m'. split; [lia | auto].
  - exists n. split; [lia|]. split; [assumption|].
    intros j Hj. apply Hall. lia.
Qed.

End Counting.

Section CollisionLoop.
Context {W : Type} {FS : FileSystem W}.

(** One round probes, changes nothing, and reports [collides]. *)
Lemma check_items_run root bk dest final items (w : W) :
  exists probes,
    check_items root bk dest final items w
    = (Ret (collides root bk dest final items w), w, probes).
Proof.
  induction items as [|item items [probes IH]]; cbn [check_items collides existsb].
  - exists []. reflexivity.
  - fold (collides root bk dest final items w).
    destruct (Py.startswith item bk); cbn [negb andb orb]; [|eauto].
    unfold bind, path_exists, call.
    destruct (fs_exists w (proposed_path_of dest final bk item)); cbn [andb orb].
    + destruct (String.eqb _ _); cbn [negb orb].
      * rewrite IH. eauto.
      * cbn [ret app]. eauto.
    + rewrite IH. eauto.
Qed.

(** With [k] colliding candidates from [n] on and a free one after them,
    the loop returns the free one once it has fuel for [k + 1] rounds. *)
Lemma resolve_least root bk dest t y items (w : W) (k : nat) :
  forall n fuel,
    1 <= n -> k < fuel ->
    (forall m, n <= m < n + k ->
               collides root bk dest (candidate (new_base_name_of t y) m)
                        items w = true) ->
    collides root bk dest (candidate (new_base_name_of t y) (n + k)) items w
    = false ->
    exists probes,
      resolve fuel root bk dest (new_base_name_of t y) items n
              (candidate (new_base_name_of t y) n) w
      = (Ret (candidate (new_base_name_of t y) (n + k)), w, probes).
Proof.
  induction k as [|k IH]; intros n fuel Hn Hfuel Hbusy Hfree;
    (destruct fuel as [|fuel]; [lia|]); cbn [resolve];
    destruct (check_items_run root bk dest
                (candidate (new_base_name_of t y) n) items w) as [probes E];
    unfold bind; rewrite E.
  - rewrite Nat.add_0_r in Hfree. rewrite Hfree. cbn [negb ret app].
    rewrite Nat.add_0_r. eauto.
  - rewrite (Hbusy n) by lia. cbn [negb].
    rewrite (candidate_succ y t n Hn).
    destruct (IH (n + 1) fuel) as [probes' E']; try lia.
    + intros m Hm. apply Hbusy. lia.
    + now replace (n + 1 + k) with (n + S k) by lia.
    + rewrite E'. replace (n + 1 + k) with (n + S k) by lia. eauto.
Qed.

(** With finitely many existing paths some candidate is free. *)
Lemma free_candidate root bk dest t y items (w : W) (existing : list string) :
  (forall p, fs_exists w p = true -> In p existing) ->
  exists n, 1 <= n <= List.length existing + 2
            /\ collides root bk dest (candidate (new_base_name_of t y) n)
                        items w = false.
Proof.
  intros Hfin.
  set (f := fun n => collides root bk dest
                              (candidate (new_base_name_of t y) n) items w).
  destruct (bounded_search f 2 (List.length existing + 1))
    as [(n & Hn & Hf)|Hall].
  - exists n. split; [lia | exact Hf].
  - exfalso.
    pose (R := fun n p =>
                 exists item,
                   p = proposed_path_of dest
                         (candidate (new_base_name_of t y) n) bk item).
    assert (List.length existing + 1 <= List.length existing) as Habs; [|lia].
    apply (pigeonhole R 2).
    + intros n n' p Hn Hn' [item ->] [item' Hp].
      eapply proposed_path_inj; eauto.
    + intros n Hn. specialize (Hall n Hn). unfold f, collides in Hall.
      apply existsb_exists in Hall as (item & _ & Hc).
      apply andb_true_iff in Hc as [Hc _]. apply andb_true_iff in Hc as [_ Hc].
      eexists. split; [apply Hfin; exact Hc|]. exists item. reflexivity.
Qed.

(** C5: when the paths that exist are finitely many, the collision loop of
    a group ends: there is a counter [n], at most two more than their
    number, whose candidate collides on no member, every candidate before
    it in the sequence [<title> (<year>)], [<title> (<year>) (2)], ...
    collides on some member, and with fuel for [n] rounds the loop returns
    that candidate, having changed nothing; it is the final name of every
    member of the group. *)
Theorem C5_collision_loop_terminates
        (root bk ts t y : string) (items : list string) (w : W)
        (existing : list string) :
  (forall p, fs_exists w p = true -> In p existing) ->
  let base := t ++ " (" ++ y ++ ")" in
  let dest := dest_dir_of ts t y in
  exists n,
    1 <= n <= List.length existing + 2
    /\ collides root bk dest (candidate base n) items w = false
    /\ (forall m, 1 <= m < n ->
                  collides root bk dest (candidate base m) items w = true)
    /\ (forall fuel,
           n <= fuel ->
           exists probes,
             resolve fuel root bk dest base items 1 base w
             = (Ret (candidate base n), w, probes))
    /\ (forall hv,
           In hv (files_to_move_of items y t (candidate base n)) ->
           final_name hv = candidate base n).
Proof.
  intros Hfin base dest.
  destruct (free_candidate root bk dest t y items w existing Hfin)
    as (n0 & Hn0 & Hfree0).
  destruct (least_false
              (fun n => collides root bk dest (candidate base n) items w)
              n0 ltac:(lia) Hfree0) as (n & Hn & Hfree & Hleast).
  exists n. split; [lia|]. split; [exact Hfree|]. split; [exact Hleast|]. split.
  - intros fuel Hfuel.
    destruct (resolve_least root bk dest t y items w (n - 1) 1 fuel)
      as [probes E]; try lia.
    + intros m Hm. apply Hleast. lia.
    + now replace (1 + (n - 1)) with n by lia.
    + replace (1 + (n - 1)) with n in E by lia. exists probes. exact E.
  - intros hv Hhv. unfold files_to_move_of in Hhv.
    apply in_map_iff in Hhv as (item & <- & _). reflexivity.
Qed.

End CollisionLoop.

Lemma C5_collision_loop_terminates_witness :
  (forall p, MemFS.exists_ Scenario.w_taken p = true ->
             In p (map fst Scenario.w_taken))
  /\ exists n,
      1 <= n <= 7
      /\ exists probes,
        @resolve _ (MemFS.fs [] []) 7 Scenario.src_dir Scenario.party
                 (dest_dir_of "Videos" "Birthday Party" "2021")
                 "Birthday Party (2021)" Scenario.files 1
                 "Birthday Party (2021)" Scenario.w_taken
        = (Ret (candidate "Birthday Party (2021)" n), Scenario.w_taken, probes).
Proof.
  assert (forall p, MemFS.exists_ Scenario.w_taken p = true ->
                    In p (map fst Scenario.w_taken)) as Hfin.
  { intros p. unfold MemFS.exists_.
    generalize Scenario.w_taken as l.
    induction l as [|[k v] l IH]; cbn [MemFS.lookup map fst In];
      [discriminate|].
    destruct (String.eqb_spec k p); [now left | right; auto]. }
  split; [exact Hfin|].
  destruct (@C5_collision_loop_terminates _ (MemFS.fs [] []) Scenario.src_dir
              Scenario.party "Videos" "Birthday Party" "2021" Scenario.files
              Scenario.w_taken (map fst Scenario.w_taken) Hfin)
    as (n & Hn & _ & _ & Hrun & _).
  exists n. split; [exact Hn|]. apply Hrun.
  cbn [List.length map Scenario.w_taken Scenario.w0] in Hn. lia.
Defined.

(** ** The destination directory *)

Section DestDir.

Lemma last_char_inj (a b : string) (c d : ascii) :
  a ++ String c "" = b ++ String d "" -> c = d.
Proof.
  revert b. induction a as [|x a IH]; intros [|z b] H; cbn [append] in H.
  - now injection H.
  - injection H as _ H. now destruct b.
  - injection H as _ H. now destruct a.
  - injection H as _ H. eauto.
Qed.

Lemma endswith_paren (a : string) : Py.endswith (a ++ ")") "/" = false.
Proof.
  destruct (Py.endswith (a ++ ")") "/") eqn:E; [|reflexivity].
  apply endswith_iff in E as [p E]. apply last_char_inj in E. discriminate.
Qed.

Lemma startswith_slash_append (t r : string) :
  Py.all_chars (Re.chr_ne "/") t = true ->
  Py.startswith (t ++ String " " r) "/" = false.
Proof.
  unfold Py.startswith. destruct t as [|c t]; [reflexivity|].
  cbn [Py.all_chars append String.prefix]. unfold Re.chr_ne.
  intros H. apply andb_true_iff in H as [H _]. apply negb_true_iff in H.
  destruct (ascii_dec "/" c) as [<-|]; [discriminate | reflexivity].
Qed.

(** A candidate of a title without [/] does not start with [/]. *)
Lemma candidate_not_absolute (t y : string) (n : nat) (s : string) :
  Py.all_chars (Re.chr_ne "/") t = true ->
  Py.startswith (candidate (new_base_name_of t y) n ++ s) "/" = false.
Proof.
  intros Ht. unfold candidate, numbered, new_base_name_of.
  destruct (n <=? 1)%nat; rewrite !append_assoc;
    exact (startswith_slash_append t _ Ht).
Qed.

(** Such a destination directory is not empty and ends with the closing
    parenthesis of the base name. *)
Lemma dest_dir_ends_with_paren (ts t y : string) :
  exists a, dest_dir_of ts t y = a ++ ")".
Proof.
  unfold dest_dir_of, OsPath.join. cbn [fold_left].
  set (x := OsPath.join2 (OsPath.join2 ROOT_DIR y) ts).
  unfold OsPath.join2 at 1, new_base_name_of.
  destruct (_ || _).
  - exists (t ++ " (" ++ y). now rewrite !append_assoc.
  - destruct (Py.endswith x "/").
    + exists (x ++ t ++ " (" ++ y). now rewrite !append_assoc.
    + exists (x ++ "/" ++ t ++ " (" ++ y). now rewrite !append_assoc.
Qed.

Lemma proposed_path_under (ts t y bk item : string) (n : nat) :
  Py.all_chars (Re.chr_ne "/") t = true ->
  proposed_path_of (dest_dir_of ts t y) (candidate (new_base_name_of t y) n)
                   bk item
  = dest_dir_of ts t y ++ "/" ++ candidate (new_base_name_of t y) n
    ++ suffix_of bk item.
Proof.
  intros Ht. unfold proposed_path_of, OsPath.join. cbn [fold_left].
  unfold OsPath.join2. rewrite (candidate_not_absolute t y n _ Ht).
  destruct (dest_dir_ends_with_paren ts t y) as [a ->].
  rewrite endswith_paren.
  destruct a; reflexivity.
Qed.

End DestDir.

(** C1, as the code has it: the destination directory of a group is
    computed once, from the base name [<title> (<year>)], and is not
    computed again when the collision counter moves on.  For a BaseKey
    without [/], every path probed in the collision loop and every target
    of a move (and of its notice) is that one directory, a [/], and the
    candidate [<title> (<year>)] or [<title> (<year>) (<n>)] followed by
    the entry's suffix: the counter shows in the file name and never in the
    directory name. *)
Theorem C1_destination_directory_is_fixed
        {W : Type} {FS : FileSystem W}
        (fuel : nat) (ts og : string) (dry : bool) (root bk : string)
        (items : list string) (y t : string) (w : W) :
  parse_name og bk = Some (y, t) ->
  Py.all_chars (Re.chr_ne "/") bk = true ->
  let base := t ++ " (" ++ y ++ ")" in
  let dest_dir := OsPath.join ROOT_DIR [y; ts; base] in
  Forall (fun e =>
            match e with
            | EExists p =>
                p = dest_dir
                \/ exists n item,
                    1 <= n /\ In item items
                    /\ p = dest_dir ++ "/" ++ candidate base n
                           ++ suffix_of bk item
            | EMove _ p | EPrint (MMove _ _ p) =>
                exists n item,
                  1 <= n /\ In item items
                  /\ p = dest_dir ++ "/" ++ candidate base n
                         ++ suffix_of bk item
            | _ => True
            end)
         (snd (process_group fuel ts og dry root (bk, items) w)).
Proof.
  intros Hp Hb base dest_dir.
  pose proof (parse_name_chars _ _ _ _ _ Hp Hb) as Ht.
  eapply Forall_impl;
    [|apply (events_process_group fuel ts og dry root bk items y t Hp w)].
  intros [p|p|s d|p|p c|[d'|og' bk'|d' i p|i|nt ny p|p]|p nt ny d];
    cbn [group_event]; try (intros _; exact I).
  - intros [->|(n & item & Hn & Hi & ->)]; [now left|].
    right. exists n, item. repeat split; auto.
    now apply proposed_path_under.
  - intros (_ & n & item & Hn & Hi & _ & ->). exists n, item.
    repeat split; auto. now apply proposed_path_under.
  - intros (_ & n & Hn & Hi & ->). exists n, i.
    repeat split; auto. now apply proposed_path_under.
Qed.

Lemma C1_destination_directory_is_fixed_witness :
  parse_name "Home" Scenario.party = Some ("2021", "Birthday Party")
  /\ Py.all_chars (Re.chr_ne "/") Scenario.party = true
  /\ Forall (fun e =>
               match e with
               | EMove _ p =>
                   exists n item,
                     p = Scenario.dest ++ "/"
                         ++ candidate "Birthday Party (2021)" n
                         ++ suffix_of Scenario.party item
               | _ => True
               end)
            (snd (@process_group _ (MemFS.fs [] []) 3 "Videos" "Home" false
                    Scenario.src_dir (Scenario.party, Scenario.files)
                    Scenario.w_taken)).
Proof.
  split; [reflexivity|]. split; [reflexivity|].
  eapply Forall_impl;
    [|apply (@C1_destination_directory_is_fixed _ (MemFS.fs [] []) 3 "Videos"
               "Home" false Scenario.src_dir Scenario.party Scenario.files
               "2021" "Birthday Party" Scenario.w_taken eq_refl eq_refl)].
  intros [| |s d| | | |]; try (intros _; exact I).
  intros (n & item & _ & _ & ->). exists n, item. reflexivity.
Defined.

Lemma C6_suffix_preserved_witness :
  let r := @process_group _ (MemFS.fs [] []) 3 "Videos" "Home" false
             Scenario.src_dir (Scenario.party, Scenario.files) Scenario.w0 in
  In (Scenario.party, Scenario.files)
     (group_items "Videos" "Home" Scenario.src_dir Scenario.files)
  /\ parse_name "Home" Scenario.party = Some ("2021", "Birthday Party")
  /\ fst (fst r) = Ret tt
  /\ forall item, In item Scenario.files ->
                  item = Scenario.party ++ suffix_of Scenario.party item.
Proof.
  intros r.
  assert (In (Scenario.party, Scenario.files)
             (group_items "Videos" "Home" Scenario.src_dir Scenario.files))
    as Hg by (vm_compute; left; reflexivity).
  assert (r = (Ret tt, snd (fst r), snd r)) as Hr by (vm_compute; reflexivity).
  split; [exact Hg|]. split; [reflexivity|]. split; [vm_compute; reflexivity|].
  exact (proj1 (@C6_suffix_preserved _ (MemFS.fs [] []) 3 "Videos" "Home"
                  Scenario.src_dir Scenario.files Scenario.party
                  Scenario.files "2021" "Birthday Party" Scenario.w0
                  (snd (fst r)) (snd r) Hg eq_refl Hr)).
Defined.

(** * Further properties of the program *)

(** ** The groups of a directory *)

Section GroupsOfDirectory.

Lemma members_dict_append (d : list (string * list string))
      (key item k : string) :
  members (dict_append d key item) k
  = if String.eqb key k then (members d k ++ [item])%list else members d k.
Proof.
  induction d as [|[k0 v0] d IH]; cbn [dict_append members].
  - destruct (String.eqb key k); reflexivity.
  - destruct (String.eqb_spec k0 key) as [->|Hne]; cbn [members].
    + destruct (String.eqb key k); reflexivity.
    + destruct (String.eqb_spec k0 k) as [->|Hne'].
      * destruct (String.eqb_spec key k); [congruence | reflexivity].
      * exact IH.
Qed.

Lemma existsb_eqb_in (key : string) (l : list string) :
  existsb (String.eqb key) l = true <-> In key l.
Proof.
  rewrite existsb_exists. split.
  - intros (x & Hx & E). apply String.eqb_eq in E. now subst.
  - intros H. exists key. split; [assumption | apply String.eqb_refl].
Qed.

Lemma keys_dict_append (d : list (string * list string)) (key item : string) :
  map fst (dict_append d key item)
  = if existsb (String.eqb key) (map fst d) then map fst d
    else (map fst d ++ [key])%list.
Proof.
  induction d as [|[k0 v0] d IH]; cbn [dict_append map fst existsb];
    [reflexivity|].
  rewrite (String.eqb_sym key k0).
  destruct (String.eqb k0 key); cbn [map fst orb app]; [reflexivity|].
  rewrite IH. destruct (existsb _ _); reflexivity.
Qed.

(** With pairwise different keys, an entry of the dictionary is a key with
    the list read back under it. *)
Lemma in_dict_members (d : list (string * list string)) (k : string)
      (v : list string) :
  NoDup (map fst d) ->
  In (k, v) d <-> In k (map fst d) /\ v = members d k.
Proof.
  induction d as [|[k0 v0] d IH]; cbn [map fst In members]; [tauto|].
  intros Hnd. apply NoDup_cons_iff in Hnd as [Hk0 Hnd].
  destruct (String.eqb_spec k0 k) as [->|Hne].
  - split.
    + intros [E|Hin]; [injection E as ->; auto|].
      exfalso. apply Hk0. apply (in_map fst) in Hin. exact Hin.
    + intros [_ ->]. now left.
  - rewrite (IH Hnd). split.
    + intros [E|H]; [congruence | tauto].
    + intros [[E|H] Hv]; [congruence | tauto].
Qed.

Lemma dict_append_keeps (d : list (string * list string)) (key item : string) :
  NoDup (map fst d) ->
  (forall k, In k (map fst d) <-> members d k <> []) ->
  NoDup (map fst (dict_append d key item))
  /\ (forall k, In k (map fst (dict_append d key item))
                <-> members (dict_append d key item) k <> []).
Proof.
  intros Hnd Hm. rewrite keys_dict_append.
  destruct (existsb (String.eqb key) (map fst d)) eqn:E.
  - apply existsb_eqb_in in E. split; [assumption|].
    intros k. rewrite members_dict_append.
    destruct (String.eqb_spec key k) as [->|Hne]; [|apply Hm].
    split; [intros _ | auto]. now destruct (members d k).
  - assert (~ In key (map fst d)) as Hnot.
    { intros H. apply existsb_eqb_in in H. congruence. }
    split.
    + apply NoDup_app; [assumption | repeat constructor; intros [] |].
      intros x Hx [<-|[]]. contradiction.
    + intros k. rewrite members_dict_append, in_app_iff.
      destruct (String.eqb_spec key k) as [->|Hne].
      * split; [intros _ | intros _; right; now left].
        now destruct (members d k).
      * rewrite <- Hm. cbn [In]. split; [intros [H|[H|[]]]; congruence || auto | auto].
Qed.

Lemma fold_dict_append (l : list string) :
  forall d,
    NoDup (map fst d) ->
    (forall k, In k (map fst d) <-> members d k <> []) ->
    let d' := fold_left (fun grouped item =>
                           dict_append grouped (base_key_of item) item) l d in
    NoDup (map fst d')
    /\ (forall k, In k (map fst d') <-> members d' k <> [])
    /\ (forall k,
           members d' k
           = (members d k
              ++ filter (fun item => String.eqb (base_key_of item) k) l)%list).
Proof.
  induction l as [|item l IH]; intros d Hnd Hm; cbn [fold_left filter].
  - split; [exact Hnd|]. split; [exact Hm|].
    intros k. now rewrite app_nil_r.
  - destruct (dict_append_keeps d (base_key_of item) item Hnd Hm) as [Hnd' Hm'].
    destruct (IH _ Hnd' Hm') as (H1 & H2 & H3).
    split; [exact H1|]. split; [exact H2|].
    intros k. rewrite H3, members_dict_append.
    destruct (String.eqb (base_key_of item) k); [|reflexivity].
    now rewrite <- app_assoc.
Qed.

Lemma group_items_eligible (ts og root : string) (l : list string) :
  group_items ts og root l
  = fold_left (fun grouped item =>
                 dict_append grouped (base_key_of item) item)
              (eligible ts og root l) [].
Proof.
  unfold group_items, eligible. generalize (@nil (string * list string)).
  destruct (String.eqb (OsPath.basename root) ts).
  - induction l as [|item l IH]; intros d; cbn [fold_left]; [reflexivity|].
    destruct (Py.startswith item og); cbn [negb]; apply IH.
  - induction l as [|item l IH]; intros d; cbn [fold_left filter];
      [reflexivity|].
    destruct (Py.startswith item og); cbn [negb fold_left]; apply IH.
Qed.

(** X1: the grouping loop partitions the entries it does not skip by base
    key.  The keys of the dictionary are pairwise different, and [(k,
    items)] is one of its entries exactly when [items] is not empty and is
    the list of the eligible entries whose base key is [k], in the order of
    the listing: no group is empty, no eligible entry is left out, none is
    in two groups. *)
Theorem X1_groups_partition_the_listing
        (ts og root : string) (all_items : list string) :
  NoDup (map fst (group_items ts og root all_items))
  /\ forall k items,
      In (k, items) (group_items ts og root all_items)
      <-> items <> []
          /\ items = filter (fun item => String.eqb (base_key_of item) k)
                            (eligible ts og root all_items).
Proof.
  rewrite group_items_eligible.
  destruct (fold_dict_append (eligible ts og root all_items) [])
    as (Hnd & Hm & Hf).
  { constructor. }
  { intros k. cbn. tauto. }
  cbv zeta in *. split; [exact Hnd|].
  intros k items. rewrite (in_dict_members _ _ _ Hnd), Hm, Hf.
  cbn [members app]. split.
  - intros [H ->]. auto.
  - intros [H ->]. auto.
Qed.

(** X2: in a directory whose own name is the target subdirectory nothing
    is grouped, so processing it probes nothing, prints nothing and changes
    nothing, whatever it holds (the guard of lines 78-80 against working on
    the tool's output again). *)
Theorem X2_target_directory_is_skipped
        {W : Type} {FS : FileSystem W} (fuel : nat) (ts og : string)
        (dry : bool) (root : string) (dirs files : list string) (w : W) :
  OsPath.basename root = ts ->
  group_items ts og root (files ++ dirs) = []
  /\ process_directory fuel ts og dry (root, dirs, files) w = (Ret tt, w, []).
Proof.
  intros H.
  assert (group_items ts og root (files ++ dirs) = []) as E.
  { rewrite group_items_eligible. unfold eligible.
    rewrite H, String.eqb_refl. reflexivity. }
  split; [exact E|]. unfold process_directory. now rewrite E.
Qed.

Lemma X2_target_directory_is_skipped_witness :
  OsPath.basename "/Volumes/media/home_videos/home/2021/Videos" = "Videos"
  /\ @process_directory _ (MemFS.fs [] []) 3 "Videos" "Home" false
       ("/Volumes/media/home_videos/home/2021/Videos", [], Scenario.files)
       Scenario.w0
     = (Ret tt, Scenario.w0, []).
Proof.
  split; [reflexivity|].
  exact (proj2 (@X2_target_directory_is_skipped _ (MemFS.fs [] []) 3 "Videos"
                  "Home" false "/Volumes/media/home_videos/home/2021/Videos"
                  [] Scenario.files Scenario.w0 eq_refl)).
Defined.

End GroupsOfDirectory.

(** ** Which failures are contained *)

Section Containment.
Context {W : Type} {FS : FileSystem W}.

Lemma safe_path_exists p : safe (path_exists (W:=W) p).
Proof. intros w. discriminate. Qed.

Lemma safe_update_nfo p t y d : safe (update_nfo (W:=W) p t y d).
Proof. intros w. rewrite update_nfo_returns. discriminate. Qed.

Lemma safe_check_items root bk dest final items :
  safe (check_items (W:=W) root bk dest final items).
Proof.
  induction items as [|item items IH]; cbn [check_items].
  - apply safe_ret.
  - destruct (Py.startswith item bk); cbn [negb]; [|assumption].
    apply safe_bind; [apply safe_path_exists|].
    intros [|]; [|assumption]. apply safe_if; [assumption | apply safe_ret].
Qed.

Lemma safe_resolve fuel root bk dest base items n final :
  safe (resolve (W:=W) fuel root bk dest base items n final).
Proof.
  revert n final. induction fuel as [|fuel IH]; intros n final; cbn [resolve].
  - intros w. discriminate.
  - apply safe_bind; [apply safe_check_items|].
    intros [|]; cbn [negb]; [apply IH | apply safe_ret].
Qed.

Lemma safe_move_item dry root bk dest hv :
  safe (move_item (W:=W) dry root bk dest hv).
Proof.
  unfold move_item. apply safe_bind; [apply safe_emit|]. intros _.
  destruct dry; cbn [negb].
  - apply safe_if; [apply safe_update_nfo | apply safe_ret].
  - apply safe_try. apply safe_emit.
Qed.

Lemma safe_for_each {A} (body : A -> M W unit) (l : list A) :
  (forall x, safe (body x)) -> safe (for_each body l).
Proof.
  intros H. induction l as [|x l IH]; cbn [for_each].
  - apply safe_ret.
  - apply safe_bind; auto.
Qed.

Lemma safe_walk_loop fuel (body : listing -> M W unit) g :
  (forall l, safe (body l)) -> safe (walk_loop fuel body g).
Proof.
  intros H. revert g. induction fuel as [|n IH]; intros g; cbn [walk_loop].
  - intros w. discriminate.
  - intros w. destruct (fs_next g w) as [[l g']|].
    + apply safe_bind; auto.
    + discriminate.
Qed.

(** X3: a move that raises is contained in its entry: the entry's notice is
    printed, [shutil.move] is called once, the failure is printed, the
    metadata patcher is not called even for an [.nfo] name, and the body of
    the loop ends normally in the world the failed call left. *)
Theorem X3_failed_move_is_contained
        (root bk dest : string) (hv : HomeVideo) (w w1 : W) :
  let src := OsPath.join root [item_name hv] in
  let dst :=
    OsPath.join dest [final_name hv ++ suffix_of bk (item_name hv)] in
  fs_move src dst w = (None, w1) ->
  move_item false root bk dest hv w
  = (Ret tt, w1,
     [EPrint (MMove false (item_name hv) dst); EMove src dst;
      EPrint (MMoveFailed (item_name hv))]).
Proof.
  intros src dst H.
  destruct (move_item_real root bk dest hv w) as (w' & rest & E & _ & Hc).
  fold src dst in E, Hc. rewrite H in Hc. destruct Hc as [-> ->]. exact E.
Qed.

(** X4: the loop over the entries of a group always runs to its end and
    ends normally, whichever moves fail: every entry gets exactly one call
    of [shutil.move], in the order of the group. *)
Theorem X4_every_entry_is_attempted
        (root bk dest y t final : string) (items : list string) (w : W) :
  fst (fst (for_each (move_item false root bk dest)
                     (files_to_move_of items y t final) w)) = Ret tt
  /\ filter is_move
            (snd (for_each (move_item false root bk dest)
                           (files_to_move_of items y t final) w))
     = map (fun item =>
              EMove (OsPath.join root [item])
                    (OsPath.join dest [final ++ suffix_of bk item])) items.
Proof.
  destruct (real_moves root bk dest y t final items w) as (w' & tr & E & H).
  rewrite E. split; [reflexivity | exact H].
Qed.

Lemma process_group_raise_inv
        (fuel : nat) (ts og : string) (dry : bool) (root bk : string)
        (items : list string) (w w' : W) (tr : list event) :
  process_group fuel ts og dry root (bk, items) w = (Raise, w', tr) ->
  exists y t,
    parse_name og bk = Some (y, t)
    /\ dry = false
    /\ fs_exists w (dest_dir_of ts t y) = false
    /\ fs_makedirs (dest_dir_of ts t y) w = (None, w')
    /\ tr = [EExists (dest_dir_of ts t y); EMakedirs (dest_dir_of ts t y)].
Proof.
  unfold process_group. destruct (parse_name og bk) as [[y t]|]; [|discriminate].
  intros H. exists y, t. split; [reflexivity|].
  apply bind_inv in H as [(e & w1 & t1 & t2 & E1 & H & ->)|[[_ H]|[H _]]];
    [| discriminate H | discriminate H].
  unfold path_exists, call in E1. injection E1 as <- <- <-.
  apply bind_inv in H as [([] & w2 & t3 & t4 & E2 & H & ->)|[[_ H]|[H _]]];
    [| | discriminate H].
  - exfalso.
    apply bind_inv in H as [(final & w3 & t5 & t6 & E3 & H & ->)|[[_ H]|[H _]]];
      [| | discriminate H].
    + apply (safe_for_each (move_item dry root bk (dest_dir_of ts t y))
                           (files_to_move_of items y t final)
                           (safe_move_item dry root bk (dest_dir_of ts t y)) w3).
      now rewrite H.
    + apply (safe_resolve fuel root bk (dest_dir_of ts t y)
                          (new_base_name_of t y) items 1
                          (new_base_name_of t y) w2).
      now rewrite H.
  - destruct (fs_exists w (dest_dir_of ts t y)); cbn [negb] in H;
      [discriminate H|].
    destruct dry; [discriminate H|].
    unfold makedirs, call in H.
    destruct (fs_makedirs (dest_dir_of ts t y) w) as [[[]|] w3];
      [discriminate H|].
    injection H as <- <-. repeat split.
Qed.


(** X5: the only exception that leaves the processing of a group is that
    of [os.makedirs]: when a group ends with an exception in flight, its
    key had parsed, the run was not a dry run, the destination directory
    did not exist, [os.makedirs] raised for it, and nothing else was done
    for the group. *)
Theorem X5_only_makedirs_raises
        (fuel : nat) (ts og : string) (dry : bool) (root bk : string)
        (items : list string) (w w' : W) (tr : list event) :
  process_group fuel ts og dry root (bk, items) w = (Raise, w', tr) ->
  exists y t,
    parse_name og bk = Some (y, t)
    /\ dry = false
    /\ fs_exists w (dest_dir_of ts t y) = false
    /\ fs_makedirs (dest_dir_of ts t y) w = (None, w')
    /\ tr = [EExists (dest_dir_of ts t y); EMakedirs (dest_dir_of ts t y)].
Proof. apply process_group_raise_inv. Qed.

(** X6: a dry run lets no exception out, whatever the library holds: it
    ends normally or, in the model, with its fuel used up. *)
Theorem X6_dry_run_never_raises (fuel : nat) (ts og : string) (w : W) :
  fst (fst (migrate_media fuel ts og true w)) <> Raise.
Proof.
  apply (@safe_bind W); [apply safe_emit|]. intros _.
  apply safe_walk_loop. intros [[root dirs] files].
  apply safe_for_each. intros [bk items] w0 H.
  destruct (process_group fuel ts og true root (bk, items) w0)
    as [[o w1] t1] eqn:E. cbn [fst] in H. subst o.
  apply process_group_raise_inv in E as (y & t & _ & Hd & _). discriminate.
Qed.

(** X7: the metadata patcher lets nothing out and stays on its file: for
    every path, title, year and world it ends normally, and every file it
    reads or writes, and every message it prints, is about the path it was
    given; in its dry mode it reads and writes nothing. *)
Theorem X7_patcher_is_contained
        (nfo_path new_title new_year : string) (dry : bool) (w : W) :
  fst (fst (update_nfo nfo_path new_title new_year dry w)) = Ret tt
  /\ Forall (fun e =>
               match e with
               | EUpdateNfo p t y d =>
                   p = nfo_path /\ t = new_title /\ y = new_year /\ d = dry
               | ERead p | EWrite p _ => p = nfo_path /\ dry = false
               | EPrint (MDryNfo t y p) =>
                   p = nfo_path /\ t = new_title /\ y = new_year /\ dry = true
               | EPrint (MNfoError p) => p = nfo_path
               | _ => False
               end)
            (snd (update_nfo nfo_path new_title new_year dry w)).
Proof.
  split; [apply update_nfo_returns|].
  eapply Forall_impl; [|apply emits_update_nfo].
  intros [| | | | |[]|]; cbn [nfo_event]; auto.
Qed.

End Containment.

Lemma X3_failed_move_is_contained_witness :
  let hv := {| item_name := "Home - S2021E01 - A.mp4"; year := "2021";
               title := "A"; final_name := "A (2021)" |} in
  MemFS.move Scenario.read_only
             (OsPath.join Scenario.src_dir [item_name hv])
             (OsPath.join (dest_dir_of "Videos" "A" "2021") ["A (2021).mp4"])
             Scenario.w_two
  = (None, Scenario.w_two)
  /\ fst (fst (@move_item _ (MemFS.fs [] Scenario.read_only) false
                 Scenario.src_dir "Home - S2021E01 - A"
                 (dest_dir_of "Videos" "A" "2021") hv Scenario.w_two))
     = Ret tt.
Proof.
  intros hv. split; [reflexivity|].
  rewrite (@X3_failed_move_is_contained _ (MemFS.fs [] Scenario.read_only)
             Scenario.src_dir "Home - S2021E01 - A"
             (dest_dir_of "Videos" "A" "2021") hv Scenario.w_two
             Scenario.w_two eq_refl).
  reflexivity.
Defined.

Lemma X5_only_makedirs_raises_witness :
  @process_group _ (MemFS.fs [] Scenario.read_only) 3 "Videos" "Home" false
    Scenario.src_dir ("Home - S2021E01 - A", ["Home - S2021E01 - A.mp4"])
    Scenario.w_two
  = (Raise, Scenario.w_two,
     [EExists (dest_dir_of "Videos" "A" "2021");
      EMakedirs (dest_dir_of "Videos" "A" "2021")])
  /\ exists y t,
      parse_name "Home" "Home - S2021E01 - A" = Some (y, t)
      /\ MemFS.makedirs Scenario.read_only (dest_dir_of "Videos" t y)
                        Scenario.w_two = (None, Scenario.w_two).
Proof.
  assert (@process_group _ (MemFS.fs [] Scenario.read_only) 3 "Videos" "Home"
            false Scenario.src_dir
            ("Home - S2021E01 - A", ["Home - S2021E01 - A.mp4"]) Scenario.w_two
          = (Raise, Scenario.w_two,
             [EExists (dest_dir_of "Videos" "A" "2021");
              EMakedirs (dest_dir_of "Videos" "A" "2021")])) as E
      by (vm_compute; reflexivity).
  split; [exact E|].
  destruct (@X5_only_makedirs_raises _ (MemFS.fs [] Scenario.read_only) 3
              "Videos" "Home" false Scenario.src_dir "Home - S2021E01 - A"
              ["Home - S2021E01 - A.mp4"] Scenario.w_two Scenario.w_two _ E)
    as (y & t & Hp & _ & _ & Hm & _).
  exists y, t. split; [exact Hp | exact Hm].
Defined.

(** ** Substitution *)

Section Scanning.

Lemma take_0 (s : string) : Py.take 0 s = "".
Proof. now destruct s. Qed.

Lemma sub_scan_skip (r : Re.regex) (t : list Re.titem) (a b : string) :
  Re.sub_scan r t (String.length a) (a ++ b) = Re.sub_scan r t 0 b.
Proof.
  induction a as [|c a IH]; cbn [append String.length]; [reflexivity|].
  cbn [Re.sub_scan]. exact IH.
Qed.

(** The scan of a pattern that matches no empty text. *)
Lemma sub_scan_scanned (r : Re.regex) (t : list Re.titem) :
  (forall s rest g, Re.match_ r s = Some (rest, g) ->
                    exists m, m <> "" /\ s = m ++ rest) ->
  forall s, scanned r t s (Re.sub_scan r t 0 s).
Proof.
  intros Hne s.
  remember (String.length s) as n eqn:Hn.
  revert s Hn. induction n as [n IH] using lt_wf_ind. intros s Hn.
  destruct s as [|c s].
  - cbn [Re.sub_scan].
    destruct (Re.match_ r "") as [[rest g]|] eqn:E; [|constructor].
    apply Hne in E as (m & Hm & E). destruct m; [congruence | discriminate].
  - cbn [Re.sub_scan].
    destruct (Re.match_ r (String c s)) as [[rest g]|] eqn:E.
    + destruct (Hne _ _ _ E) as (m & Hm & Es).
      destruct m as [|c' m]; [congruence|].
      cbn [append] in Es. injection Es as <- ->.
      cbn [String.length]. rewrite length_append.
      replace (S (String.length m + String.length rest) - String.length rest)
        with (S (String.length m)) by lia.
      rewrite sub_scan_skip.
      change (String c (m ++ rest)) with (String c m ++ rest) in *.
      apply scanned_match; [discriminate | exact E |].
      apply (IH (String.length rest)); [|reflexivity].
      subst n. cbn [append String.length]. rewrite length_append. lia.
    + apply scanned_keep; [exact E|].
      apply (IH (String.length s)); [|reflexivity].
      subst n. cbn [String.length]. lia.
Qed.

Lemma exec_lit_i {A} (l s : string) (g : Re.groups)
      (k : string -> Re.groups -> option A) :
  Re.exec (Re.lit true l) s g k
  = if tag_prefix l s then k (Py.drop (String.length l) s) g else None.
Proof.
  unfold tag_prefix. revert s. induction l as [|x l IH]; intros s.
  - cbn [Re.lit Re.exec String.length]. now rewrite drop_0, take_0.
  - cbn [Re.lit Re.exec String.length]. destruct s as [|c s]; [reflexivity|].
    cbn [Py.take Py.drop tag_eq].
    destruct (Re.chr_eq_i x c); cbn [andb]; [apply IH | reflexivity].
Qed.

Lemma tag_eq_length (l a : string) :
  tag_eq l a = true -> String.length a = String.length l.
Proof.
  revert a. induction l as [|x l IH]; intros [|c a]; cbn [tag_eq String.length];
    try discriminate; [reflexivity|].
  intros H. apply andb_true_iff in H as [_ H]. f_equal. auto.
Qed.

Lemma tag_prefix_append (l a r : string) :
  tag_eq l a = true -> tag_prefix l (a ++ r) = true.
Proof.
  intros H. unfold tag_prefix.
  now rewrite <- (tag_eq_length l a H), take_append.
Qed.

Lemma tag_prefix_split (l s : string) :
  tag_prefix l s = true ->
  exists a r, s = a ++ r /\ tag_eq l a = true
              /\ r = Py.drop (String.length l) s.
Proof.
  unfold tag_prefix. intros H.
  exists (Py.take (String.length l) s), (Py.drop (String.length l) s).
  split; [symmetry; apply take_drop | auto].
Qed.

Lemma exec_lit_i_append {A} (l a r : string) (g : Re.groups)
      (k : string -> Re.groups -> option A) :
  tag_eq l a = true -> Re.exec (Re.lit true l) (a ++ r) g k = k r g.
Proof.
  intros H. rewrite exec_lit_i, (tag_prefix_append l a r H).
  now rewrite <- (tag_eq_length l a H), drop_append.
Qed.

Lemma exec_lit_i_inv {A} (l s : string) (g : Re.groups)
      (k : string -> Re.groups -> option A) (x : A) :
  Re.exec (Re.lit true l) s g k = Some x ->
  exists a r, s = a ++ r /\ tag_eq l a = true /\ k r g = Some x.
Proof.
  rewrite exec_lit_i. destruct (tag_prefix l s) eqn:E; [|discriminate].
  apply tag_prefix_split in E as (a & r & -> & Ha & ->).
  rewrite <- (tag_eq_length l a Ha), drop_append. eauto.
Qed.

Lemma star_lazy_unfold {A} (p : ascii -> bool) (k : string -> option A)
      (s : string) :
  Re.star_lazy p k s
  = match k s with
    | Some r => Some r
    | None =>
        match s with
        | String c s' => if p c then Re.star_lazy p k s' else None
        | EmptyString => None
        end
    end.
Proof. now destruct s. Qed.

(** A lazy repetition stops at the first place where what follows
    matches. *)
Lemma star_lazy_inv {A} (p : ascii -> bool) (k : string -> option A)
      (s : string) (x : A) :
  Re.star_lazy p k s = Some x ->
  exists a r,
    s = a ++ r /\ Py.all_chars p a = true /\ k r = Some x
    /\ forall a1 a2, a = a1 ++ a2 -> a2 <> "" -> k (a2 ++ r) = None.
Proof.
  induction s as [|c s IH]; rewrite star_lazy_unfold.
  - destruct (k "") eqn:E; [|discriminate]. intros H.
    exists "", "". repeat split; try assumption; try reflexivity.
    + congruence.
    + intros [|] [|]; try discriminate. congruence.
  - destruct (k (String c s)) eqn:E.
    + intros H. exists "", (String c s).
      repeat split; try reflexivity; [congruence|].
      intros [|] [|]; try discriminate. congruence.
    + destruct (p c) eqn:Hc; [|discriminate]. intros H.
      destruct (IH H) as (a & r & -> & Ha & Hk & Hmin).
      exists (String c a), r. cbn [Py.all_chars append]. rewrite Hc, Ha.
      repeat split; try assumption.
      intros [|c1 a1] a2 Ea Hne; cbn [append] in Ea.
      * subst a2. exact E.
      * injection Ea as _ Ea. eauto.
Qed.

Lemma star_lazy_some {A} (p : ascii -> bool) (k : string -> option A)
      (a r : string) :
  Py.all_chars p a = true -> k r <> None ->
  Re.star_lazy p k (a ++ r) <> None.
Proof.
  intros Ha Hk. induction a as [|c a IH]; cbn [append];
    rewrite star_lazy_unfold.
  - destruct (k r); [discriminate | congruence].
  - destruct (k (String c (a ++ r))); [discriminate|].
    cbn [Py.all_chars] in Ha. apply andb_true_iff in Ha as [Hc Ha].
    rewrite Hc. auto.
Qed.

Lemma star_greedy_some {A} (p : ascii -> bool) (k : string -> option A)
      (a r : string) :
  Py.all_chars p a = true -> k r <> None ->
  Re.star_greedy p k (a ++ r) <> None.
Proof.
  intros Ha Hk. induction a as [|c a IH]; cbn [append].
  - destruct r as [|c r]; cbn [Re.star_greedy]; [assumption|].
    destruct (p c); [|assumption].
    destruct (Re.star_greedy p k r); [discriminate | assumption].
  - cbn [Py.all_chars] in Ha. apply andb_true_iff in Ha as [Hc Ha].
    cbn [Re.star_greedy]. rewrite Hc.
    destruct (Re.star_greedy p k (a ++ r)) eqn:E; [discriminate|].
    now apply IH in Ha.
Qed.

End Scanning.

Section Templates.

Lemma expand_literal (s : string) (t : list Re.titem) (g : Re.groups) :
  Re.expand (literal_template s ++ t)%list g = s ++ Re.expand t g.
Proof.
  unfold literal_template.
  induction s as [|c s IH]; cbn [list_ascii_of_string map app Re.expand append];
    [reflexivity | now rewrite IH].
Qed.

(** A replacement with no backslash in it stands for itself. *)
Lemma parse_template_literal (n : nat) (s : string) (tail : string)
      (t : list Re.titem) :
  Py.all_chars (Re.chr_ne "\") s = true ->
  Re.parse_template_from n Re.TNormal tail = Some t ->
  Re.parse_template_from n Re.TNormal (s ++ tail)
  = Some (literal_template s ++ t)%list.
Proof.
  intros Hs Ht. unfold literal_template.
  induction s as [|c s IH]; cbn [append list_ascii_of_string map app];
    [exact Ht|].
  cbn [Py.all_chars] in Hs. apply andb_true_iff in Hs as [Hc Hs].
  cbn [Re.parse_template_from]. unfold Re.chr_ne in Hc. rewrite Hc.
  rewrite (IH Hs). reflexivity.
Qed.

(** [\1] before a text that starts with no digit is a reference to
    group 1. *)
Lemma parse_template_group_1 (n : nat) (rest : string) :
  starts_with_digit rest = false ->
  Re.parse_template_from n Re.TNormal (String "\" (String "1" rest))
  = Re.tgroup n 1 (Re.parse_template_from n Re.TNormal rest).
Proof.
  intros Hd. destruct rest as [|d r]; [reflexivity|].
  cbn [starts_with_digit] in Hd.
  remember (String d r) as rest0 eqn:Er.
  cbn [Re.parse_template_from]. cbn [Ascii.eqb Bool.eqb negb].
  change (Py.isdigit "1") with true. cbv iota.
  subst rest0. cbv beta iota. rewrite Hd. reflexivity.
Qed.

Lemma parse_title_template (new_title : string) :
  Py.all_chars (Re.chr_ne "\") new_title = true ->
  starts_with_digit new_title = false ->
  Re.parse_template 3 ("\1" ++ new_title ++ "\3")
  = Some (Re.TGroup 1 :: literal_template new_title ++ [Re.TGroup 3])%list.
Proof.
  intros Hs Hd.
  assert (Re.parse_template_from 3 Re.TNormal (new_title ++ "\3")
          = Some (literal_template new_title ++ [Re.TGroup 3])%list) as E
      by (now apply parse_template_literal).
  unfold Re.parse_template. cbn [append].
  rewrite parse_template_group_1, E; [reflexivity|].
  destruct new_title; [reflexivity | exact Hd].
Qed.

Lemma parse_year_template (new_year : string) :
  Py.all_chars (Re.chr_ne "\") new_year = true ->
  Re.parse_template 0 ("<year>" ++ new_year ++ "</year>")
  = Some (literal_template ("<year>" ++ new_year ++ "</year>")).
Proof.
  intros H. unfold Re.parse_template.
  rewrite <- (append_nil_r ("<year>" ++ new_year ++ "</year>")) at 1.
  rewrite (parse_template_literal 0 _ "" []); [now rewrite app_nil_r | | reflexivity].
  rewrite !all_chars_append, H. reflexivity.
Qed.

End Templates.

Section TitlePass.

Lemma tag_eq_nonempty (l a : string) :
  l <> "" -> tag_eq l a = true -> a <> "".
Proof. destruct l, a; try discriminate; congruence. Qed.

(** What a match of the title pattern is made of. *)
Lemma title_match_inv (s rest : string) (g : Re.groups) :
  Re.match_ title_pattern s = Some (rest, g) ->
  exists o inner c,
    s = o ++ inner ++ c ++ rest
    /\ tag_eq "<title>" o = true
    /\ Py.all_chars Re.dot inner = true
    /\ tag_eq "</title>" c = true
    /\ (forall a b, inner = a ++ b -> b <> "" ->
                    tag_prefix "</title>" (b ++ c ++ rest) = false)
    /\ Re.group 1 g = Some o /\ Re.group 3 g = Some c.
Proof.
  unfold Re.match_, title_pattern. cbn [Re.exec]. intros H.
  apply exec_lit_i_inv in H as (o & s1 & -> & Ho & H).
  apply star_lazy_inv in H as (inner & s2 & -> & Hi & H & Hmin).
  apply exec_lit_i_inv in H as (c & s3 & -> & Hc & H).
  injection H as <- <-.
  exists o, inner, c. repeat split; try assumption.
  - intros a b Ea Hb. specialize (Hmin a b Ea Hb).
    rewrite exec_lit_i in Hmin.
    destruct (tag_prefix "</title>" (b ++ c ++ s3)); [discriminate | reflexivity].
  - cbn [Re.group Nat.eqb]. now rewrite consumed_append.
  - cbn [Re.group Nat.eqb]. now rewrite consumed_append.
Qed.

Lemma title_match_some (s : string) :
  title_element_at s -> Re.match_ title_pattern s <> None.
Proof.
  intros (o & inner & c & rest & -> & Ho & Hi & Hc).
  unfold Re.match_, title_pattern. cbn [Re.exec].
  rewrite (exec_lit_i_append _ _ _ _ _ Ho).
  apply star_lazy_some; [exact Hi|].
  rewrite (exec_lit_i_append _ _ _ _ _ Hc). discriminate.
Qed.

Lemma title_match_nonempty (s rest : string) (g : Re.groups) :
  Re.match_ title_pattern s = Some (rest, g) ->
  exists m, m <> "" /\ s = m ++ rest.
Proof.
  intros H. apply title_match_inv in H as (o & inner & c & -> & Ho & _).
  exists (o ++ inner ++ c). split.
  - pose proof (tag_eq_nonempty "<title>" o ltac:(discriminate) Ho).
    destruct o; [congruence | discriminate].
  - now rewrite !append_assoc.
Qed.

Lemma scanned_title (new_title s out : string) :
  scanned title_pattern
          (Re.TGroup 1 :: literal_template new_title ++ [Re.TGroup 3])%list
          s out ->
  title_rewritten new_title s out.
Proof.
  induction 1 as [|c s out Hm _ IH|m rest g out Hne Hm _ IH].
  - constructor.
  - apply title_keep; [|exact IH].
    intros Hel. now apply title_match_some in Hel.
  - apply title_match_inv in Hm
      as (o & inner & c & E & Ho & Hi & Hc & Hmin & G1 & G3).
    rewrite E. cbn [Re.expand]. rewrite G1, expand_literal.
    cbn [Re.expand]. rewrite G3, append_nil_r, !append_assoc.
    now apply title_element.
Qed.

Lemma title_pass_spec (new_title content : string) :
  Py.all_chars (Re.chr_ne "\") new_title = true ->
  starts_with_digit new_title = false ->
  exists out,
    Re.sub title_pattern 3 ("\1" ++ new_title ++ "\3") content = Some out
    /\ title_rewritten new_title content out.
Proof.
  intros Hs Hd. unfold Re.sub. rewrite (parse_title_template _ Hs Hd).
  eexists. split; [reflexivity|].
  apply scanned_title, sub_scan_scanned. exact title_match_nonempty.
Qed.

(** X8: the title pass of the patcher, for a new title with no backslash
    in it and no digit at its start: [re.sub] succeeds, and its result is
    the content with the inner text of every title element replaced by the
    new title, verbatim; the tags stay as they were written and every
    character outside the inner texts is kept.  A title element is found by
    reading from the left, has no line feed in its inner text, and ends at
    the first closing tag. *)
Theorem X8_title_pass_rewrites_inner_text (new_title content : string) :
  Py.all_chars (Re.chr_ne "\") new_title = true ->
  starts_with_digit new_title = false ->
  exists out,
    Re.sub title_pattern 3 ("\1" ++ new_title ++ "\3") content = Some out
    /\ title_rewritten new_title content out.
Proof. apply title_pass_spec. Qed.

End TitlePass.

Lemma X8_title_pass_rewrites_inner_text_witness :
  Py.all_chars (Re.chr_ne "\") "Birthday Party (2021)" = true
  /\ starts_with_digit "Birthday Party (2021)" = false
  /\ exists out,
      Re.sub title_pattern 3 ("\1" ++ "Birthday Party (2021)" ++ "\3")
             Scenario.nfo_text = Some out
      /\ title_rewritten "Birthday Party (2021)" Scenario.nfo_text out.
Proof.
  split; [reflexivity|]. split; [reflexivity|].
  exact (X8_title_pass_rewrites_inner_text "Birthday Party (2021)"
           Scenario.nfo_text eq_refl eq_refl).
Defined.

Section YearPass.

(** Case folding leaves the characters [>] and [/] alone. *)
Lemma chr_eq_i_gt (c : ascii) : Re.chr_eq_i ">" c = true -> c = ">"%char.
Proof.
  destruct c as [[] [] [] [] [] [] [] []]; vm_compute; intros H;
    first [reflexivity | discriminate H].
Qed.

Lemma chr_eq_i_slash (c : ascii) : Re.chr_eq_i "/" c = true -> c = "/"%char.
Proof.
  destruct c as [[] [] [] [] [] [] [] []]; vm_compute; intros H;
    first [reflexivity | discriminate H].
Qed.

Lemma tag_eq_gt (a : string) : tag_eq ">" a = true -> a = ">".
Proof.
  destruct a as [|c [|d a]]; cbn [tag_eq]; try discriminate.
  - intros H. apply andb_true_iff in H as [H _]. now rewrite (chr_eq_i_gt c H).
  - intros H. apply andb_true_iff in H as [_ H]. discriminate.
Qed.

Lemma tag_eq_slash_gt (a : string) : tag_eq "/>" a = true -> a = "/>".
Proof.
  destruct a as [|c [|d [|e a]]]; cbn [tag_eq]; try discriminate.
  - intros H. apply andb_true_iff in H as [_ H]. discriminate.
  - intros H. apply andb_true_iff in H as [H1 H2].
    apply andb_true_iff in H2 as [H2 _].
    now rewrite (chr_eq_i_slash c H1), (chr_eq_i_gt d H2).
  - intros H. apply andb_true_iff in H as [_ H].
    apply andb_true_iff in H as [_ H]. discriminate.
Qed.

Lemma year_tail_inv (s : string) (g : Re.groups) (x : string * Re.groups)
      (k : string -> Re.groups -> option (string * Re.groups)) :
  Re.exec year_tail s g k = Some x ->
  exists tail r,
    s = tail ++ r /\ k r g = Some x
    /\ ((exists inner c, tail = ">" ++ inner ++ c
                         /\ Py.all_chars Re.dot inner = true
                         /\ tag_eq "</year>" c = true)
        \/ (exists sp, tail = sp ++ "/>"
                       /\ Py.all_chars Re.space sp = true)).
Proof.
  unfold year_tail. cbn [Re.exec].
  destruct (Re.exec (Re.lit true ">") s g _) as [x1|] eqn:E1.
  - intros H. injection H as ->.
    apply exec_lit_i_inv in E1 as (a & s1 & -> & Ha & E1).
    apply tag_eq_gt in Ha as ->.
    apply star_lazy_inv in E1 as (inner & s2 & -> & Hi & E1 & _).
    apply exec_lit_i_inv in E1 as (c & s3 & -> & Hc & E1).
    exists (">" ++ inner ++ c), s3. rewrite !append_assoc.
    split; [reflexivity|]. split; [exact E1|]. left. eauto.
  - intros H.
    apply star_greedy_inv in H as (sp & s1 & -> & Hsp & H).
    apply exec_lit_i_inv in H as (a & s2 & -> & Ha & H).
    apply tag_eq_slash_gt in Ha as ->.
    exists (sp ++ "/>"), s2. rewrite !append_assoc.
    split; [reflexivity|]. split; [exact H|]. right. eauto.
Qed.

Lemma year_tail_some (tail r : string) (g : Re.groups)
      (k : string -> Re.groups -> option (string * Re.groups)) :
  ((exists inner c, tail = ">" ++ inner ++ c
                    /\ Py.all_chars Re.dot inner = true
                    /\ tag_eq "</year>" c = true)
   \/ (exists sp, tail = sp ++ "/>" /\ Py.all_chars Re.space sp = true)) ->
  k r g <> None ->
  Re.exec year_tail (tail ++ r) g k <> None.
Proof.
  intros Ht Hk. unfold year_tail. cbn [Re.exec].
  destruct (Re.exec (Re.lit true ">") (tail ++ r) g _) as [x1|] eqn:E1;
    [discriminate|].
  destruct Ht as [(inner & c & -> & Hi & Hc)|(sp & -> & Hsp)].
  - exfalso. revert E1. rewrite !append_assoc.
    rewrite (exec_lit_i_append ">" ">" _ _ _ eq_refl).
    apply star_lazy_some; [exact Hi|].
    now rewrite (exec_lit_i_append _ _ _ _ _ Hc).
  - rewrite append_assoc. apply star_greedy_some; [exact Hsp|].
    now rewrite (exec_lit_i_append "/>" "/>" _ _ _ eq_refl).
Qed.

Lemma year_pattern_tail :
  year_pattern
  = Re.Seq (Re.lit true "<year")
           (Re.Seq (Re.Opt (Re.Seq (Re.plus Re.space)
                                   (Re.Star true (Re.chr_ne ">"))))
                   year_tail).
Proof. reflexivity. Qed.

Lemma year_match_inv (s rest : string) (g : Re.groups) :
  Re.match_ year_pattern s = Some (rest, g) ->
  exists e, s = e ++ rest /\ year_element e.
Proof.
  unfold Re.match_. rewrite year_pattern_tail. cbn [Re.exec]. intros H.
  apply exec_lit_i_inv in H as (o & s1 & -> & Ho & H).
  match type of H with
  | match ?m with _ => _ end = _ => destruct m as [x|] eqn:E1
  end.
  - injection H as ->. unfold Re.plus in E1. cbn [Re.exec] in E1.
    destruct s1 as [|c s1]; [discriminate|].
    destruct (Re.space c) eqn:Hc; [|discriminate].
    apply star_greedy_inv in E1 as (sp & s2 & -> & Hsp & E1).
    apply star_greedy_inv in E1 as (a & s3 & -> & Ha & E1).
    apply year_tail_inv in E1 as (tail & r & -> & E1 & Ht).
    injection E1 as <- _.
    exists (o ++ (String c sp ++ a) ++ tail). split.
    + repeat first [rewrite append_assoc | progress cbn [append]].
      reflexivity.
    + exists o, (String c sp ++ a), tail. repeat split; auto.
      right. exists (String c sp), a. cbn [Py.all_chars]. rewrite Hc, Hsp.
      repeat split; auto. discriminate.
  - apply year_tail_inv in H as (tail & r & -> & E & Ht).
    injection E as <- _.
    exists (o ++ "" ++ tail). split.
    + repeat first [rewrite append_assoc | progress cbn [append]].
      reflexivity.
    + exists o, "", tail. repeat split; auto.
Qed.

Lemma year_match_some (s : string) :
  year_element_at s -> Re.match_ year_pattern s <> None.
Proof.
  intros (e & rest & -> & o & attrs & tail & -> & Ho & Ha & Ht).
  unfold Re.match_. rewrite year_pattern_tail. cbn [Re.exec].
  rewrite !append_assoc. rewrite (exec_lit_i_append _ _ _ _ _ Ho).
  match goal with
  | |- match ?m with _ => _ end <> None => destruct m as [x|] eqn:E1
  end; [discriminate|].
  destruct Ha as [->|(sp & a & -> & Hne & Hsp & Ha)].
  - cbn [append]. apply year_tail_some; [exact Ht | discriminate].
  - exfalso. revert E1. unfold Re.plus. cbn [Re.exec].
    destruct sp as [|c sp]; [congruence|].
    cbn [Py.all_chars] in Hsp. apply andb_true_iff in Hsp as [Hc Hsp].
    cbn [append]. rewrite Hc. rewrite !append_assoc.
    apply star_greedy_some; [exact Hsp|].
    apply star_greedy_some; [exact Ha|].
    apply year_tail_some; [exact Ht | discriminate].
Qed.

Lemma year_match_nonempty (s rest : string) (g : Re.groups) :
  Re.match_ year_pattern s = Some (rest, g) ->
  exists m, m <> "" /\ s = m ++ rest.
Proof.
  intros H. apply year_match_inv in H as (e & -> & o & attrs & tail & -> & Ho & _).
  eexists. split; [|reflexivity].
  pose proof (tag_eq_nonempty "<year" o ltac:(discriminate) Ho).
  destruct o; [congruence | discriminate].
Qed.

Lemma scanned_year (new_year s out : string) :
  scanned year_pattern
          (literal_template ("<year>" ++ new_year ++ "</year>")) s out ->
  year_rewritten new_year s out.
Proof.
  induction 1 as [|c s out Hm _ IH|m rest g out Hne Hm _ IH].
  - constructor.
  - apply year_keep; [|exact IH].
    intros Hel. now apply year_match_some in Hel.
  - apply year_match_inv in Hm as (e & E & He).
    rewrite E.
    rewrite <- (app_nil_r (literal_template _)), expand_literal.
    cbn [Re.expand]. rewrite append_nil_r, !append_assoc.
    now apply year_replaced.
Qed.

Lemma year_pass_spec (new_year content : string) :
  Py.all_chars (Re.chr_ne "\") new_year = true ->
  exists out,
    Re.sub year_pattern 0 ("<year>" ++ new_year ++ "</year>") content
    = Some out
    /\ year_rewritten new_year content out.
Proof.
  intros Hs. unfold Re.sub. rewrite (parse_year_template _ Hs).
  eexists. split; [reflexivity|].
  apply scanned_year, sub_scan_scanned. exact year_match_nonempty.
Qed.

(** X9: the year pass of the patcher, for a new year with no backslash in
    it (the four digits the parser gives have none): [re.sub] succeeds, and
    its result is the content with every year element, self-closing or
    with an inner text, replaced whole by [<year>], the new year and
    [</year>]; every character outside the year elements is kept. *)
Theorem X9_year_pass_normalizes_elements (new_year content : string) :
  Py.all_chars (Re.chr_ne "\") new_year = true ->
  exists out,
    Re.sub year_pattern 0 ("<year>" ++ new_year ++ "</year>") content
    = Some out
    /\ year_rewritten new_year content out.
Proof. apply year_pass_spec. Qed.

End YearPass.

Lemma X9_year_pass_normalizes_elements_witness :
  Py.all_chars (Re.chr_ne "\") "2021" = true
  /\ exists out,
      Re.sub year_pattern 0 ("<year>" ++ "2021" ++ "</year>")
             Scenario.nfo_text = Some out
      /\ year_rewritten "2021" Scenario.nfo_text out.
Proof.
  split; [reflexivity|].
  exact (X9_year_pass_normalizes_elements "2021" Scenario.nfo_text eq_refl).
Defined.

(** ** The patcher on a file *)

Section PatcherOnFile.
Context {W : Type} {FS : FileSystem W}.

Lemma chr_eq_i_lt (c : ascii) : Re.chr_eq_i "<" c = true -> c = "<"%char.
Proof.
  destruct c as [[] [] [] [] [] [] [] []]; vm_compute; intros H;
    first [reflexivity | discriminate H].
Qed.

(** A tag that starts with [<] is found only where the text has one. *)
Lemma tag_prefix_lt (tag s : string) :
  tag_prefix (String "<" tag) s = true -> exists r, s = String "<" r.
Proof.
  unfold tag_prefix. destruct s as [|c s]; cbn [String.length Py.take tag_eq];
    [discriminate|].
  intros H. apply andb_true_iff in H as [H _].
  rewrite (chr_eq_i_lt c H). eauto.
Qed.

Lemma title_match_lt (s rest : string) (g : Re.groups) :
  Re.match_ title_pattern s = Some (rest, g) -> exists r, s = String "<" r.
Proof.
  unfold Re.match_, title_pattern. cbn [Re.exec]. rewrite exec_lit_i.
  destruct (tag_prefix "<title>" s) eqn:E; [|discriminate].
  intros _. exact (tag_prefix_lt _ _ E).
Qed.

Lemma year_match_lt (s rest : string) (g : Re.groups) :
  Re.match_ year_pattern s = Some (rest, g) -> exists r, s = String "<" r.
Proof.
  unfold Re.match_. rewrite year_pattern_tail. cbn [Re.exec].
  rewrite exec_lit_i.
  destruct (tag_prefix "<year" s) eqn:E; [|discriminate].
  intros _. exact (tag_prefix_lt _ _ E).
Qed.

(** Where nothing can match, the scan gives the text back. *)
Lemma scanned_without_lt (r : Re.regex) (t : list Re.titem) (s out : string) :
  (forall s rest g, Re.match_ r s = Some (rest, g) ->
                    exists r, s = String "<" r) ->
  Py.all_chars (Re.chr_ne "<") s = true ->
  scanned r t s out -> out = s.
Proof.
  intros Hlt Hs Hsc. induction Hsc as [|c s out Hm _ IH|m rest g out Hne Hm _ IH].
  - reflexivity.
  - cbn [Py.all_chars] in Hs. apply andb_true_iff in Hs as [_ Hs].
    now rewrite IH.
  - exfalso. apply Hlt in Hm as [r0 E]. rewrite E in Hs.
    cbn [Py.all_chars] in Hs. discriminate.
Qed.

Lemma sub_without_lt_title (repl s out : string) :
  Py.all_chars (Re.chr_ne "<") s = true ->
  Re.sub title_pattern 3 repl s = Some out -> out = s.
Proof.
  intros Hs. unfold Re.sub.
  destruct (Re.parse_template 3 repl) as [t|]; [|discriminate].
  intros H. injection H as <-.
  apply (scanned_without_lt title_pattern t); [exact title_match_lt | exact Hs |].
  apply sub_scan_scanned. exact title_match_nonempty.
Qed.

Lemma sub_without_lt_year (repl s out : string) :
  Py.all_chars (Re.chr_ne "<") s = true ->
  Re.sub year_pattern 0 repl s = Some out -> out = s.
Proof.
  intros Hs. unfold Re.sub.
  destruct (Re.parse_template 0 repl) as [t|]; [|discriminate].
  intros H. injection H as <-.
  apply (scanned_without_lt year_pattern t); [exact year_match_lt | exact Hs |].
  apply sub_scan_scanned. exact year_match_nonempty.
Qed.

(** X10: a metadata file with no [<] in it is read and never written,
    whatever the new title and the new year: the patcher ends in the world
    the read left, having printed at most its error notice (a title or a
    year that [re] refuses as a template). *)
Theorem X10_file_without_tags_is_not_written
        (nfo_path new_title new_year content : string) (w w1 : W) :
  fs_read nfo_path w = (Some content, w1) ->
  Py.all_chars (Re.chr_ne "<") content = true ->
  exists tail,
    update_nfo nfo_path new_title new_year false w
    = (Ret tt, w1,
       EUpdateNfo nfo_path new_title new_year false :: ERead nfo_path :: tail)
    /\ (tail = [] \/ tail = [EPrint (MNfoError nfo_path)]).
Proof.
  intros Hr Hc. unfold update_nfo, print.
  unfold bind, emit, try_except, read_text, call, re_sub. rewrite Hr.
  destruct (Re.sub title_pattern 3 _ content) as [c1|] eqn:E1;
    [|cbn; eauto].
  apply (sub_without_lt_title _ _ _ Hc) in E1 as ->.
  cbn [ret app]. rewrite String.eqb_refl. cbn [negb ret app].
  destruct (Re.sub year_pattern 0 _ content) as [c2|] eqn:E2;
    [|cbn; eauto].
  apply (sub_without_lt_year _ _ _ Hc) in E2 as ->.
  cbn [ret app]. rewrite String.eqb_refl. cbn [negb ret app]. eauto.
Qed.

(** X11: the patcher on a file it can read and write, for a new title with
    no backslash and no digit at its start and a new year with no
    backslash.  The content goes through the title pass and then the year
    pass; the result of the title pass is written if it differs from what
    was read, and then the result of both passes is written if that
    differs from what was read, so a file whose title changed is written
    twice; the patcher prints nothing. *)
Theorem X11_patcher_writes_both_passes
        (nfo_path new_title new_year content : string) (w w1 : W) :
  fs_read nfo_path w = (Some content, w1) ->
  (forall x w0, fst (fs_write nfo_path x w0) = Some tt) ->
  Py.all_chars (Re.chr_ne "\") new_title = true ->
  starts_with_digit new_title = false ->
  Py.all_chars (Re.chr_ne "\") new_year = true ->
  exists c1 c2,
    title_rewritten new_title content c1
    /\ year_rewritten new_year c1 c2
    /\ snd (update_nfo nfo_path new_title new_year false w)
       = (EUpdateNfo nfo_path new_title new_year false :: ERead nfo_path
          :: (if String.eqb content c1 then [] else [EWrite nfo_path c1])
          ++ (if String.eqb content c2 then [] else [EWrite nfo_path c2]))%list
    /\ fst (fst (update_nfo nfo_path new_title new_year false w)) = Ret tt.
Proof.
  intros Hr Hw Ht Hd Hy.
  destruct (title_pass_spec new_title content Ht Hd) as (c1 & E1 & R1).
  destruct (year_pass_spec new_year c1 Hy) as (c2 & E2 & R2).
  exists c1, c2. split; [exact R1|]. split; [exact R2|].
  split; [|apply update_nfo_returns].
  unfold update_nfo, print.
  unfold bind, emit, try_except, read_text, write_text, call, re_sub.
  rewrite Hr, E1. cbn [ret app].
  destruct (String.eqb content c1); cbn [negb ret app].
  - rewrite E2. cbn [ret app].
    destruct (String.eqb content c2); cbn [negb ret app snd]; [reflexivity|].
    specialize (Hw c2 w1). destruct (fs_write nfo_path c2 w1) as [[[]|] w2];
      [reflexivity | discriminate Hw].
  - pose proof (Hw c1 w1) as Hw1.
    destruct (fs_write nfo_path c1 w1) as [[[]|] w2]; [|discriminate Hw1].
    rewrite E2. cbn [ret app].
    destruct (String.eqb content c2); cbn [negb ret app snd]; [reflexivity|].
    specialize (Hw c2 w2). destruct (fs_write nfo_path c2 w2) as [[[]|] w3];
      [reflexivity | discriminate Hw].
Qed.

End PatcherOnFile.

Lemma X10_file_without_tags_is_not_written_witness :
  let w := [("/x.nfo", MemFS.File "plain text")] in
  MemFS.read "/x.nfo" w = (Some "plain text", w)
  /\ Py.all_chars (Re.chr_ne "<") "plain text" = true
  /\ exists tail,
      @update_nfo _ (MemFS.fs [] []) "/x.nfo" "A (2021)" "2021" false w
      = (Ret tt, w,
         EUpdateNfo "/x.nfo" "A (2021)" "2021" false :: ERead "/x.nfo" :: tail).
Proof.
  intros w. split; [reflexivity|]. split; [reflexivity|].
  destruct (@X10_file_without_tags_is_not_written _ (MemFS.fs [] []) "/x.nfo"
              "A (2021)" "2021" "plain text" w w eq_refl eq_refl)
    as (tail & E & _).
  exists tail. exact E.
Defined.

Lemma X11_patcher_writes_both_passes_witness :
  let w := [("/x.nfo", MemFS.File Scenario.nfo_text)] in
  MemFS.read "/x.nfo" w = (Some Scenario.nfo_text, w)
  /\ (forall x w0, fst (MemFS.write [] "/x.nfo" x w0) = Some tt)
  /\ exists c1 c2,
      title_rewritten "Birthday Party (2021)" Scenario.nfo_text c1
      /\ year_rewritten "2021" c1 c2.
Proof.
  intros w. split; [reflexivity|].
  assert (forall x w0, fst (MemFS.write [] "/x.nfo" x w0) = Some tt) as Hw
      by reflexivity.
  split; [exact Hw|].
  destruct (@X11_patcher_writes_both_passes _ (MemFS.fs [] []) "/x.nfo"
              "Birthday Party (2021)" "2021" Scenario.nfo_text w w
              eq_refl Hw eq_refl eq_refl eq_refl)
    as (c1 & c2 & R1 & R2 & _).
  exists c1, c2. split; [exact R1 | exact R2].
Defined.

(** ** Where a group goes *)

Section Layout.

Lemma endswith_snoc (a : string) (c : ascii) :
  Py.endswith (a ++ String c "") "/" = true -> c = "/"%char.
Proof.
  intros E. apply endswith_iff in E as [p E]. now apply last_char_inj in E.
Qed.

Lemma string_snoc (s : string) :
  s <> "" -> exists s' c, s = s' ++ String c "".
Proof.
  induction s as [|c s IH]; [congruence|]. intros _.
  destruct s as [|d s].
  - exists "", c. reflexivity.
  - destruct IH as (s' & e & E); [discriminate|].
    exists (String c s'), e. cbn [append]. now rewrite <- E.
Qed.

Lemma endswith_append_r (a s : string) :
  s <> "" -> Py.endswith s "/" = false -> Py.endswith (a ++ s) "/" = false.
Proof.
  intros Hne Hs. destruct (string_snoc s Hne) as (s' & c & ->).
  destruct (Py.endswith (a ++ s' ++ String c "") "/") eqn:E; [|reflexivity].
  rewrite <- append_assoc in E. apply endswith_snoc in E as ->.
  now rewrite endswith_append in Hs.
Qed.

Lemma digit_not_slash (c : ascii) : Py.isdigit c = true -> c <> "/"%char.
Proof. intros H ->. discriminate. Qed.

Lemma join2_plain (a b : string) :
  a <> "" -> Py.endswith a "/" = false -> Py.startswith b "/" = false ->
  OsPath.join2 a b = a ++ "/" ++ b.
Proof.
  intros Ha He Hb. unfold OsPath.join2. rewrite Hb, He.
  destruct (String.eqb_spec a ""); [congruence | reflexivity].
Qed.

Lemma year_dir (y : string) :
  String.length y = 4 -> Py.all_chars Py.isdigit y = true ->
  OsPath.join2 ROOT_DIR y = ROOT_DIR ++ "/" ++ y
  /\ Py.endswith (ROOT_DIR ++ "/" ++ y) "/" = false.
Proof.
  intros Hl Hd. destruct (length_4 y Hl) as (c1 & c2 & c3 & c4 & ->).
  cbn [Py.all_chars] in Hd.
  apply andb_true_iff in Hd as [H1 Hd]. apply andb_true_iff in Hd as [_ Hd].
  apply andb_true_iff in Hd as [_ Hd]. apply andb_true_iff in Hd as [H4 _].
  split.
  - apply join2_plain; [discriminate | reflexivity |].
    unfold Py.startswith. cbn [String.prefix].
    destruct (ascii_dec "/" c1) as [<-|]; [discriminate | reflexivity].
  - change (String c1 (String c2 (String c3 (String c4 ""))))
      with (String c1 (String c2 (String c3 "")) ++ String c4 "").
    destruct (Py.endswith _ "/") eqn:E; [|reflexivity].
    rewrite <- !append_assoc in E.
    apply endswith_snoc in E. now apply digit_not_slash in H4.
Qed.

Lemma dest_dir_plain (og bk y t ts : string) :
  parse_name og bk = Some (y, t) ->
  Py.all_chars (Re.chr_ne "/") bk = true ->
  ts <> "" -> Py.startswith ts "/" = false -> Py.endswith ts "/" = false ->
  dest_dir_of ts t y
  = ROOT_DIR ++ "/" ++ y ++ "/" ++ ts ++ "/" ++ t ++ " (" ++ y ++ ")".
Proof.
  intros Hp Hb Hne Hs He.
  pose proof (parse_name_chars _ _ _ _ _ Hp Hb) as Ht.
  apply parse_name_elim in Hp as (ds & rest & _ & Hl & Hd & _).
  destruct (year_dir y Hl Hd) as [Ey Hy].
  unfold dest_dir_of, OsPath.join. cbn [fold_left]. rewrite Ey.
  rewrite (join2_plain (ROOT_DIR ++ "/" ++ y) ts); [| discriminate | exact Hy | exact Hs].
  rewrite join2_plain.
  - unfold new_base_name_of. now rewrite !append_assoc.
  - discriminate.
  - rewrite <- !append_assoc. now apply endswith_append_r.
  - unfold new_base_name_of. now apply startswith_slash_append.
Qed.

(** X12: the place of a group in the library, for an entry name without
    [/] whose key parses and a target subdirectory that is not empty and
    neither starts nor ends with [/]: the destination directory is the
    root, the year, the target subdirectory and [<title> (<year>)], joined
    by [/], and an entry goes there under the candidate name followed by
    its suffix. *)
Theorem X12_output_layout
        (og bk y t ts item : string) (n : nat) :
  parse_name og bk = Some (y, t) ->
  Py.all_chars (Re.chr_ne "/") bk = true ->
  ts <> "" -> Py.startswith ts "/" = false -> Py.endswith ts "/" = false ->
  let base := t ++ " (" ++ y ++ ")" in
  dest_dir_of ts t y = ROOT_DIR ++ "/" ++ y ++ "/" ++ ts ++ "/" ++ base
  /\ proposed_path_of (dest_dir_of ts t y) (candidate base n) bk item
     = ROOT_DIR ++ "/" ++ y ++ "/" ++ ts ++ "/" ++ base ++ "/"
       ++ candidate base n ++ suffix_of bk item.
Proof.
  intros Hp Hb Hne Hs He base.
  pose proof (dest_dir_plain og bk y t ts Hp Hb Hne Hs He) as E.
  split; [exact E|].
  subst base. change (t ++ " (" ++ y ++ ")") with (new_base_name_of t y).
  rewrite (proposed_path_under ts t y bk item n
             (parse_name_chars _ _ _ _ _ Hp Hb)).
  rewrite E. unfold new_base_name_of. now rewrite !append_assoc.
Qed.

(** X13: a target subdirectory that starts with [/] takes the group out
    of the library: [os.path.join] drops the root and the year, and the
    destination directory is the target subdirectory joined with
    [<title> (<year>)]. *)
Theorem X13_absolute_target_leaves_the_library (ts t y : string) :
  Py.startswith ts "/" = true ->
  dest_dir_of ts t y = OsPath.join2 ts (t ++ " (" ++ y ++ ")").
Proof.
  intros H. unfold dest_dir_of, OsPath.join. cbn [fold_left].
  unfold OsPath.join2 at 2. now rewrite H.
Qed.

End Layout.

Lemma X12_output_layout_witness :
  parse_name "Home" Scenario.party = Some ("2021", "Birthday Party")
  /\ Py.all_chars (Re.chr_ne "/") Scenario.party = true
  /\ "Videos" <> ""
  /\ Py.startswith "Videos" "/" = false
  /\ Py.endswith "Videos" "/" = false
  /\ dest_dir_of "Videos" "Birthday Party" "2021" = Scenario.dest.
Proof.
  assert ("Videos" <> "") as Hne by discriminate.
  repeat (split; [first [reflexivity | exact Hne]|]).
  exact (proj1 (X12_output_layout "Home" Scenario.party "2021" "Birthday Party"
                  "Videos" "" 1 eq_refl eq_refl Hne eq_refl eq_refl)).
Defined.

Lemma X13_absolute_target_leaves_the_library_witness :
  Py.startswith "/tmp/out" "/" = true
  /\ dest_dir_of "/tmp/out" "A" "2021" = "/tmp/out/A (2021)".
Proof.
  split; [reflexivity|].
  exact (X13_absolute_target_leaves_the_library "/tmp/out" "A" "2021" eq_refl).
Defined.

(** ** Siblings and titles *)

Section Siblings.

Lemma has_other_char_append (k s : string) :
  Py.all_chars (Re.chr_eq ".") s = false ->
  Py.all_chars (Re.chr_eq ".") (k ++ s) = false.
Proof. intros H. rewrite all_chars_append, H. apply andb_false_r. Qed.

Lemma base_key_with_extension (k e : string) :
  Py.all_chars (Re.chr_ne "/") (k ++ "." ++ e) = true ->
  Py.all_chars (Re.chr_ne ".") e = true ->
  Py.all_chars (Re.chr_eq ".") k = false ->
  base_key_of (k ++ "." ++ e) = strip_poster k.
Proof.
  intros Hsep He Hk. unfold base_key_of.
  destruct (Py.endswith (k ++ "." ++ e) ".trickplay") eqn:Et.
  - apply endswith_iff in Et as [k' Hk'].
    assert (k = k') as <-
        by (apply (last_dot_unique k k' e "trickplay" He eq_refl Hk')).
    rewrite Hk'. now rewrite drop_last_trickplay.
  - now rewrite (splitext_last_dot k e Hsep He), Hk.
Qed.

Lemma base_key_with_marker (k : string) :
  base_key_of (k ++ ".trickplay") = strip_poster k.
Proof.
  unfold base_key_of. rewrite endswith_append. now rewrite drop_last_trickplay.
Qed.

(** X14: the files that belong to one video land in one group.  For a stem
    without [/], not made of [.] only and not ending in [-poster], and
    extensions without [.] and [/]: the video or metadata file
    [<stem>.<ext>], the poster [<stem>-poster.<ext'>] and the cache
    directory [<stem>.trickplay] all have the stem as their base key. *)
Theorem X14_siblings_share_a_base_key (stem ext ext' : string) :
  Py.all_chars (Re.chr_ne "/") stem = true ->
  Py.all_chars (Re.chr_eq ".") stem = false ->
  Py.endswith stem "-poster" = false ->
  Py.all_chars (Re.chr_ne "/") ext = true ->
  Py.all_chars (Re.chr_ne ".") ext = true ->
  Py.all_chars (Re.chr_ne "/") ext' = true ->
  Py.all_chars (Re.chr_ne ".") ext' = true ->
  base_key_of (stem ++ "." ++ ext) = stem
  /\ base_key_of (stem ++ "-poster." ++ ext') = stem
  /\ base_key_of (stem ++ ".trickplay") = stem.
Proof.
  intros Hs Hk Hp He1 He2 He1' He2'.
  assert (strip_poster stem = stem) as Hsp
      by (unfold strip_poster; now rewrite Hp).
  split; [|split].
  - rewrite base_key_with_extension; auto.
    rewrite !all_chars_append, Hs, He1. reflexivity.
  - replace (stem ++ "-poster." ++ ext')
      with ((stem ++ "-poster") ++ "." ++ ext')
      by (now rewrite append_assoc).
    rewrite base_key_with_extension; auto.
    + unfold strip_poster. rewrite endswith_append. apply drop_last_poster.
    + rewrite !all_chars_append, Hs, He1'. reflexivity.
    + now apply has_other_char_append.
  - now rewrite base_key_with_marker.
Qed.

End Siblings.

Lemma X14_siblings_share_a_base_key_witness :
  Py.all_chars (Re.chr_ne "/") Scenario.party = true
  /\ Py.all_chars (Re.chr_eq ".") Scenario.party = false
  /\ Py.endswith Scenario.party "-poster" = false
  /\ base_key_of (Scenario.party ++ "." ++ "mp4") = Scenario.party
  /\ base_key_of (Scenario.party ++ "-poster." ++ "jpg") = Scenario.party
  /\ base_key_of (Scenario.party ++ ".trickplay") = Scenario.party.
Proof.
  split; [reflexivity|]. split; [reflexivity|]. split; [reflexivity|].
  exact (X14_siblings_share_a_base_key Scenario.party "mp4" "jpg"
           eq_refl eq_refl eq_refl eq_refl eq_refl eq_refl eq_refl).
Defined.

Section TrimmedTitle.

Lemma lstrip_no_leading_space (s : string) :
  starts_with_space (Py.lstrip s) = false.
Proof.
  induction s as [|c s IH]; cbn [Py.lstrip]; [reflexivity|].
  destruct (Py.isspace c) eqn:E; [exact IH|]. cbn [starts_with_space].
  exact E.
Qed.

Lemma rstrip_keeps_head (s : string) :
  starts_with_space s = false -> starts_with_space (Py.rstrip s) = false.
Proof.
  destruct s as [|c s]; [reflexivity|]. cbn [starts_with_space Py.rstrip].
  intros H. destruct (Py.rstrip s); [now rewrite H | exact H].
Qed.

Lemma rstrip_no_trailing_space (s : string) :
  ends_with_space (Py.rstrip s) = false.
Proof.
  induction s as [|c s IH]; cbn [Py.rstrip]; [reflexivity|].
  destruct (Py.rstrip s) as [|d r].
  - destruct (Py.isspace c) eqn:E; [reflexivity|].
    cbn [ends_with_space]. exact E.
  - cbn [ends_with_space] in *. exact IH.
Qed.

Lemma all_chars_take_while_self (p : ascii -> bool) (s : string) :
  Py.all_chars p (take_while p s) = true.
Proof.
  induction s as [|c s IH]; cbn [take_while]; [reflexivity|].
  destruct (p c) eqn:E; [|reflexivity]. cbn [Py.all_chars]. now rewrite E.
Qed.

(** X15: a parsed title is trimmed and has one line: it neither starts nor
    ends with white space and holds no line feed; and a key parses only if
    it starts with the prefix. *)
Theorem X15_parsed_title_is_trimmed (og bk y t : string) :
  parse_name og bk = Some (y, t) ->
  starts_with_space t = false
  /\ ends_with_space t = false
  /\ Py.all_chars Re.dot t = true
  /\ Py.startswith bk og = true.
Proof.
  intros H. apply parse_name_elim in H as (ds & rest & -> & _ & _ & _ & _ & ->).
  unfold Py.strip. split; [|split; [|split]].
  - apply rstrip_keeps_head, lstrip_no_leading_space.
  - apply rstrip_no_trailing_space.
  - apply all_chars_rstrip, all_chars_lstrip. apply all_chars_take_while_self.
  - apply startswith_append.
Qed.

End TrimmedTitle.

Lemma X15_parsed_title_is_trimmed_witness :
  parse_name "Home" "Home - S2021E01 -   Birthday Party  "
  = Some ("2021", "Birthday Party")
  /\ ends_with_space "Birthday Party" = false.
Proof.
  split; [reflexivity|].
  exact (proj1 (proj2 (X15_parsed_title_is_trimmed
                         "Home" "Home - S2021E01 -   Birthday Party  "
                         "2021" "Birthday Party" eq_refl))).
Defined.
